(** * A shallow embedding of the CLOVIS router / agent-chaining runtime

    The development follows the Python sources:
    - [models/models.py]            router session, screenshot slot, text helpers
    - [agents/cua_vision/single_call.py]  batch normaliser, click-loop detector
                                    and status texts of the vision engine
    - [agents/cua_vision/tools.py]  [_to_pixels], bounding boxes
    - [agents/clovis/tools.py]      [denormalize], line wrapping, text panel placement
    - [agents/cua_cli/agent.py]     port extraction, background promotion,
                                    managed background processes
    - [core/registry.py], [ui/visualization_api/]  registry of drawn elements
    - [ui/server.py]                overlay input de-duplication, scene store,
                                    status themes

    Python [str] values are modelled as [string]: the texts covered are
    those of code points below 256, and the properties of lower-casing and
    of the regular expressions are stated for such texts. The coordinate
    conversions [_to_pixels] and [denormalize] are computed on IEEE 754
    binary64 floats ([SpecFloat]), as Python computes them; the geometry of
    text panels, whose values are integers and halves, and the bounding
    boxes of the vision tools are computed on rationals [Q]. Dictionaries
    are [gmap]s, or
    insertion-ordered association lists where the iteration order is
    observable. *)

From Stdlib Require Import ZArith QArith Qround Lqa Bool List Ascii String Lia.
From Stdlib Require Import DecimalString.
From Stdlib Require SpecFloat Qminmax.
From stdpp Require Import base option list gmap strings.

Local Open Scope Z_scope.
Local Open Scope stdpp_scope.

(** ** Python built-ins used by the sources *)

Module Py.

(** [str.isspace] on one code point below 256. *)
Definition isspace (c : ascii) : bool :=
  let n := nat_of_ascii c in
  ((9 <=? n)%nat && (n <=? 13)%nat)
  || ((28 <=? n)%nat && (n <=? 32)%nat)
  || (n =? 133)%nat || (n =? 160)%nat.

(** [str.split()] with no separator: maximal runs of non-blank characters. *)
Fixpoint split_from (cur : string) (s : string) : list string :=
  match s with
  | EmptyString => match cur with EmptyString => [] | _ => [cur] end
  | String c s' =>
      if isspace c
      then match cur with
           | EmptyString => split_from EmptyString s'
           | _ => cur :: split_from EmptyString s'
           end
      else split_from (cur +:+ String c EmptyString) s'
  end.

Definition split (s : string) : list string := split_from EmptyString s.

(** [sep.join(parts)]. *)
Definition join (sep : string) (parts : list string) : string :=
  String.concat sep parts.

(** [" ".join(s.split())]. *)
Definition squeeze (s : string) : string := join " " (split s).

Definition lower_char (c : ascii) : ascii :=
  let n := nat_of_ascii c in
  if ((65 <=? n)%nat && (n <=? 90)%nat)
     || ((192 <=? n)%nat && (n <=? 222)%nat && negb (n =? 215)%nat)
  then ascii_of_nat (n + 32) else c.

(** [str.lower] on code points below 256, where it maps a character to
    a character: [A]-[Z] and U+00C0-U+00DE, the multiplication sign apart,
    move by 32. Beyond them Python's [lower] can change the length of a
    text (U+0130), which this model does not cover. *)
Fixpoint lower (s : string) : string :=
  match s with
  | EmptyString => EmptyString
  | String c s' => String (lower_char c) (lower s')
  end.

Fixpoint lstrip (s : string) : string :=
  match s with
  | EmptyString => EmptyString
  | String c s' => if isspace c then lstrip s' else s
  end.

Fixpoint rev_string (acc s : string) : string :=
  match s with
  | EmptyString => acc
  | String c s' => rev_string (String c acc) s'
  end.

Definition rstrip (s : string) : string :=
  rev_string EmptyString (lstrip (rev_string EmptyString s)).

(** [str.strip()]. *)
Definition strip (s : string) : string := rstrip (lstrip s).

(** [needle in hay]. *)
Fixpoint contains (needle hay : string) : bool :=
  String.prefix needle hay
  || match hay with
     | EmptyString => false
     | String _ hay' => contains needle hay'
     end.

(** [any(m in text for m in markers)]. *)
Definition any_in (markers : list string) (text : string) : bool :=
  existsb (fun m => contains m text) markers.

(** Truth value of a string. *)
Definition truthy (s : string) : bool :=
  match s with EmptyString => false | _ => true end.

(** Truth value of an optional string ([None] and [""] are false). *)
Definition otruthy (o : option string) : bool :=
  match o with Some s => truthy s | None => false end.

(** [a or b] on optional strings. *)
Definition or_else (a b : option string) : option string :=
  if otruthy a then a else b.

(** [s[:n]]. *)
Definition take (n : nat) (s : string) : string := String.substring 0 n s.

(** [s[:k]] for an integer [k]: a negative [k] counts from the end. *)
Definition slice_to (k : Z) (s : string) : string :=
  take (Z.to_nat (if k <? 0 then Z.of_nat (String.length s) + k else k)) s.

Definition eqb (a b : string) : bool := String.eqb a b.

(** Some character of [s] is not blank. *)
Fixpoint nonblank (s : string) : bool :=
  match s with
  | EmptyString => false
  | String c s' => negb (isspace c) || nonblank s'
  end.

(** No character of [s] is blank, and [s] is not empty: a word. *)
Fixpoint solid (s : string) : bool :=
  match s with
  | EmptyString => true
  | String c s' => negb (isspace c) && solid s'
  end.

Definition word (s : string) : bool := truthy s && solid s.

End Py.

(** ** [models/models.py]: the stored screenshot *)

Module Screenshot.

(** An image is identified by the serial number of the screen grab that
    produced it. *)
Definition Image := nat.

(** The module global [_stored_screenshot] together with the screen:
    [grabs] counts the calls of [ImageGrab.grab] made so far. *)
Record Slot := { stored : option Image; grabs : nat }.

(** [ImageGrab.grab()]: a new image, distinct from all earlier ones. *)
Definition grab (s : Slot) : Image * Slot :=
  (grabs s, {| stored := stored s; grabs := S (grabs s) |}).

Definition store_screenshot (s : Slot) : Image * Slot :=
  let '(img, s1) := grab s in
  (img, {| stored := Some img; grabs := grabs s1 |}).

Definition get_stored_screenshot (s : Slot) : Image * Slot :=
  let '(screenshot, s1) :=
    match stored s with
    | Some img => (img, s)
    | None => grab s
    end in
  (screenshot, {| stored := None; grabs := grabs s1 |}).

End Screenshot.

(** ** [agents/cua_vision/single_call.py]: batch normaliser *)

Module VisionBatch.

(** A model function call; only the tool name is inspected here. *)
Record FunctionCall := { name : string; args : list (string * string) }.

Definition POSITIONING_TOOLS : list string :=
  ["go_to_element"; "crop_and_search"].

(** Keys of [CLICK_TOOL_TO_TYPE]. *)
Definition CLICK_TOOLS : list string :=
  ["click_left_click"; "click_double_left_click"; "click_right_click"].

Definition mem (s : string) (l : list string) : bool :=
  existsb (Py.eqb s) l.

Definition is_positioning (c : FunctionCall) : bool := mem (name c) POSITIONING_TOOLS.
Definition is_click (c : FunctionCall) : bool := mem (name c) CLICK_TOOLS.
Definition is_complete (c : FunctionCall) : bool := Py.eqb (name c) "task_is_complete".
Arguments is_positioning : simpl never.
Arguments is_click : simpl never.
Arguments is_complete : simpl never.

Definition _normalize_function_call_batch
    (function_calls : list FunctionCall) : list FunctionCall :=
  match function_calls with
  | [] => function_calls
  | [_] => function_calls
  | first :: second :: rest =>
      if is_complete first then [first]
      else if is_positioning first && is_click second then
        match rest with
        | third :: _ =>
            if is_complete third then firstn 3 function_calls
            else firstn 2 function_calls
        | [] => firstn 2 function_calls
        end
      else if is_click first && is_complete second then
        firstn 2 function_calls
      else [first]
  end.

(** The shapes a normalised batch may have: at most one call, a
    positioning call followed by a click, or those two followed by
    [task_is_complete]. *)
Definition one_at_most (l : list FunctionCall) : bool :=
  match l with
  | [] | [_] => true
  | _ => false
  end.

Definition position_click (l : list FunctionCall) : bool :=
  match l with
  | [p; c] => is_positioning p && is_click c
  | _ => false
  end.

Definition position_click_complete (l : list FunctionCall) : bool :=
  match l with
  | [p; c; t] => is_positioning p && is_click c && is_complete t
  | _ => false
  end.

(** The fourth shape the code lets through: a click followed by
    [task_is_complete]. *)
Definition click_complete (l : list FunctionCall) : bool :=
  match l with
  | [c; t] => is_click c && is_complete t
  | _ => false
  end.

Definition count_clicks (l : list FunctionCall) : nat :=
  length (List.filter is_click l).

Definition call (n : string) : FunctionCall := {| name := n; args := [] |}.

End VisionBatch.

(** ** [models/models.py]: text helpers of the router *)

Module RouterText.

(** [_clean_text(value, fallback, max_len)]; [None] is Python's [None]. *)
Definition _clean_text (value : option string) (fallback : string)
    (max_len : nat) : string :=
  match value with
  | None => fallback
  | Some v =>
      let text := Py.squeeze v in
      if Py.truthy text then
        if (max_len <? String.length text)%nat
        then Py.slice_to (Z.of_nat max_len - 3) text +:+ "..."
        else text
      else fallback
  end.

Arguments _clean_text : simpl never.

(** A [ChainStep] dictionary. *)
Record ChainStep := {
  step_agent : string;
  step_task : string;
  step_success : bool;
  step_message : string;
  step_source : string }.

Definition _user_requested_repeat (user_prompt : string) : bool :=
  let lowered := Py.lower user_prompt in
  Py.any_in ["repeat"; "again"; "do it again"; "rerun"; "redo"; "one more time"]
    lowered.

Definition _looks_like_repeat_artifact (text : string) : bool :=
  let lowered := Py.lower text in
  Py.any_in
    ["repeat the exact same task"; "already completed"; "already created";
     "already moved"; "already done";
     "is there anything else i can help you with"]
    lowered.

(** The list [messages] built by [_summarize_completed_steps]. *)
Definition completed_messages (chain_steps : list ChainStep) : list string :=
  List.filter Py.truthy
    (List.map (fun step => _clean_text (Some (step_message step)) "" 220)
       (List.filter step_success chain_steps)).

Definition _summarize_completed_steps (chain_steps : list ChainStep) : string :=
  let successful := List.filter step_success chain_steps in
  match successful with
  | [] => "Task completed."
  | _ =>
      let messages := completed_messages chain_steps in
      match rev messages with
      | [] => "Task completed."
      | [m] => "Task completed: " +:+ m
      | last :: before :: _ =>
          "Task completed: " +:+ before +:+ " Then: " +:+ last
      end
  end.

Definition _finalize_direct_response_text (user_prompt : string)
    (chain_steps : list ChainStep) (text : string) : string :=
  let cleaned := _clean_text (Some text) "Task completed." 420 in
  match chain_steps with
  | [] => cleaned
  | _ =>
      if _user_requested_repeat user_prompt then cleaned
      else if _looks_like_repeat_artifact cleaned
           then _summarize_completed_steps chain_steps
           else cleaned
  end.

End RouterText.

(** ** [models/models.py]: the router session ([call_gemini]) *)

Module Router.
Import RouterText.

Definition _MAX_ROUTER_CHAIN_STEPS : nat := 6.
Definition _REPEATED_STEP_LIMIT : nat := 3.

(** Arguments of a [direct_response] function call. *)
Record DirectArgs := {
  da_text : option string;
  da_font_size : option Z;
  da_font_family : option string }.

(** The dictionary returned by [GeminiModel.route_request]; a missing key
    and a [None] value are both [None]. *)
Record RoutingDict := {
  agent : option string;
  task : option string;
  query : option string;
  response_text : option string;
  direct_response_args : option DirectArgs;
  focus : option string }.

Inductive RoutingResult :=
| NotDict
| Dict (d : RoutingDict).

(** What an awaited collaborator does: it returns, it raises an
    [Exception], or the task is cancelled ([asyncio.CancelledError], which
    no [except Exception] clause catches and which the agent branches
    re-raise explicitly). *)
Inductive Awaited (A : Type) :=
| Returned (a : A)
| Raised (msg : string)
| Cancelled.
Arguments Returned {A} a.
Arguments Raised {A} msg.
Arguments Cancelled {A}.

(** The [history] argument of [_extract_browser_message]: [None], a
    string, or a dictionary/object whose four inspected entries are given
    as the string they hold ([None] when absent, not a string, or when
    calling the attribute raised). *)
Inductive BrowserHistory :=
| HNone
| HStr (s : string)
| HKeyed (final_result summary result message : option string).

(** The dictionary returned by an agent's [execute]. *)
Record AgentResult (R : Type) := {
  success : bool;
  result : R;
  error : option string }.
Arguments success {R} _.
Arguments result {R} _.
Arguments error {R} _.

Record ScreenContext := {
  sc_summary : option string;
  sc_repo_url : option string;
  sc_local_url : option string;
  sc_recommended_agent : option string;
  sc_recommended_task : option string;
  sc_hints : option string }.

(** A function call in the answer of the CLOVIS model, as the loop of
    [generate_clovis_response] treats it: [direct_response] with the text
    its declaration requires, another tool of [CLOVIS_TOOL_MAP] (which
    queues an action for the overlay), or a call that raises: a name that
    is not in the map, or arguments the tool does not accept. *)
Inductive ClovisCall :=
| CallDirectResponse (text : string)
| CallDrawing
| CallRaises (msg : string).

(** What [generate_content] answers for the CLOVIS model: the function
    calls of its parts, in order, and [response.text]. *)
Record ClovisAnswer := {
  function_calls : list ClovisCall;
  answer_text : option string }.

(** The collaborators' answers during one iteration of the router loop.
    The prompt built from the history and the chain state only reaches the
    router model, whose answer is arbitrary; the answers are therefore
    given per iteration. [clovis_generate_content] is the awaited part of
    [generate_clovis_response], up to the list of function calls. *)
Record StepEnv := {
  route_request : Awaited RoutingResult;
  clovis_generate_content : Awaited ClovisAnswer;
  browser_execute : Awaited (AgentResult BrowserHistory);
  cli_execute : Awaited (AgentResult (option string));
  vision_execute : Awaited (AgentResult (option string));
  generate_screen_context : Awaited ScreenContext }.

Record HistoryEntry := { role : string; source : string; text : string }.

(** What a session does that the user or an agent can observe: a call of
    [direct_response] with its [source] and [text], and the start of a
    delegated step. *)
Inductive Event :=
| DirectResponse (source text : string)
| StepRun (signature : string * string).

(** Module globals ([_RAPID_CONVERSATION_HISTORY], [_stored_screenshot])
    and the locals of [call_gemini]. *)
Record Session := {
  history : list HistoryEntry;
  shot : Screenshot.Slot;
  chain_steps : list ChainStep;
  seen_step_signatures : gmap (string * string) nat;
  latest_screen_context : option ScreenContext;
  trace : list Event }.

(** How [call_gemini] leaves: by [return] (or falling off the end), or by
    an exception that propagates to its caller. *)
Inductive Exit := Finished | Escaped.

Inductive Control := Continue | Stop (x : Exit).

(** [deque(maxlen=32).append]. *)
Definition deque_append (maxlen : nat) (q : list HistoryEntry)
    (x : HistoryEntry) : list HistoryEntry :=
  let q' := q ++ [x] in skipn (length q' - maxlen) q'.

Definition _append_rapid_history (role text source : string)
    (s : Session) : Session :=
  let cleaned := _clean_text (Some text) "" 600 in
  if Py.truthy cleaned then
    {| history := deque_append 32 (history s)
                    {| role := role; source := source; text := cleaned |};
       shot := shot s; chain_steps := chain_steps s;
       seen_step_signatures := seen_step_signatures s;
       latest_screen_context := latest_screen_context s;
       trace := trace s |}
  else s.

Definition log_event (e : Event) (s : Session) : Session :=
  {| history := history s; shot := shot s; chain_steps := chain_steps s;
     seen_step_signatures := seen_step_signatures s;
     latest_screen_context := latest_screen_context s;
     trace := trace s ++ [e] |}.

(** [direct_response(text, source=...)] of [agents/clovis/tools.py], the
    function both [ROUTER_TOOL_MAP] and [CLOVIS_TOOL_MAP] hold under the
    key [direct_response]. *)
Definition direct_response (source text : string) (s : Session) : Session :=
  log_event (DirectResponse source text) s.

(** [tool = ROUTER_TOOL_MAP.get("direct_response");
    if tool: tool(text=..., source="rapid_response")]. *)
Definition router_response (text : string) (s : Session) : Session :=
  direct_response "rapid_response" text s.

Definition take_screenshot (s : Session) : Session :=
  {| history := history s;
     shot := snd (Screenshot.get_stored_screenshot (shot s));
     chain_steps := chain_steps s;
     seen_step_signatures := seen_step_signatures s;
     latest_screen_context := latest_screen_context s;
     trace := trace s |}.

Definition append_step (st : ChainStep) (s : Session) : Session :=
  {| history := history s; shot := shot s;
     chain_steps := chain_steps s ++ [st];
     seen_step_signatures := seen_step_signatures s;
     latest_screen_context := latest_screen_context s;
     trace := trace s |}.

Definition set_seen (m : gmap (string * string) nat) (s : Session) : Session :=
  {| history := history s; shot := shot s; chain_steps := chain_steps s;
     seen_step_signatures := m;
     latest_screen_context := latest_screen_context s;
     trace := trace s |}.

Definition set_screen_context (c : ScreenContext) (s : Session) : Session :=
  {| history := history s; shot := shot s; chain_steps := chain_steps s;
     seen_step_signatures := seen_step_signatures s;
     latest_screen_context := Some c;
     trace := trace s |}.

Definition _routing_task_text (d : RoutingDict) : string :=
  _clean_text
    (Py.or_else (Py.or_else (task d) (query d)) (Some EmptyString))
    "" 220.

Definition _routing_signature (d : RoutingDict) : string * string :=
  (Py.lower (Py.strip (default EmptyString (Py.or_else (agent d) (Some EmptyString)))),
   Py.lower (Py.strip (_routing_task_text d))).

Definition _screen_context_message (c : ScreenContext) : string :=
  let summary := _clean_text (sc_summary c) "Screen context captured." 260 in
  let repo_url := _clean_text (sc_repo_url c) "" 120 in
  let local_url := _clean_text (sc_local_url c) "" 120 in
  let recommended_agent := _clean_text (sc_recommended_agent c) "" 40 in
  let extras :=
    (if Py.truthy repo_url then ["repo=" +:+ repo_url] else [])
    ++ (if Py.truthy local_url then ["local=" +:+ local_url] else [])
    ++ (if Py.truthy recommended_agent then ["next=" +:+ recommended_agent] else []) in
  match extras with
  | [] => summary
  | _ => summary +:+ " (" +:+ Py.join ", " extras +:+ ")"
  end.

Definition _extract_browser_message (h : BrowserHistory) : option string :=
  match h with
  | HNone => None
  | HStr s =>
      let cleaned := _clean_text (Some s) "" 1400 in
      if Py.truthy cleaned then Some cleaned else None
  | HKeyed a b c d =>
      let usable o :=
        match o with
        | Some v => Py.truthy (Py.strip v)
        | None => false
        end in
      match List.filter usable [a; b; c; d] with
      | v :: _ => Some (_clean_text v "" 1400)
      | [] => None
      end
  end.

Definition _cli_completion_message (r : AgentResult (option string)) : string :=
  if negb (success r) then _clean_text (error r) "CLI task failed." 1400
  else
    let output := _clean_text (result r) "" 1400 in
    if Py.truthy output then output else "CLI task completed.".

Definition _browser_completion_message (r : AgentResult BrowserHistory) : string :=
  if negb (success r) then _clean_text (error r) "Browser task failed." 1400
  else
    match _extract_browser_message (result r) with
    | Some summary => if Py.truthy summary then summary else "Browser task completed."
    | None => "Browser task completed."
    end.

Definition _vision_completion_message (r : AgentResult (option string)) : string :=
  if negb (success r) then _clean_text (error r) "Computer task failed." 1400
  else _clean_text (result r) "Computer task completed." 1400.

(** The loop of [generate_clovis_response] over the function calls of
    the answer: every tool is run as it comes, [direct_response] with its
    default source [clovis]; the result is [summary_text], or the exception
    of the call that raised. *)
Fixpoint run_clovis_calls (calls : list ClovisCall) (summary_text : option string)
    (s : Session) : Awaited (option string) * Session :=
  match calls with
  | [] => (Returned summary_text, s)
  | CallDirectResponse text :: rest =>
      let summary_text := if Py.truthy text then Some text else summary_text in
      run_clovis_calls rest summary_text (direct_response "clovis" text s)
  | CallDrawing :: rest => run_clovis_calls rest summary_text s
  | CallRaises msg :: _ => (Raised msg, s)
  end.

(** [GeminiModel.generate_clovis_response]: the [summary] of the returned
    dictionary. *)
Definition generate_clovis_response (e : StepEnv) (s : Session)
    : Awaited string * Session :=
  match clovis_generate_content e with
  | Returned answer =>
      let '(outcome, s) :=
        match function_calls answer with
        | [] =>
            (Returned (if Py.otruthy (answer_text answer)
                       then answer_text answer else None), s)
        | calls => run_clovis_calls calls None s
        end in
      match outcome with
      | Returned summary_text => (Returned (_clean_text summary_text "" 420), s)
      | Raised msg => (Raised msg, s)
      | Cancelled => (Cancelled, s)
      end
  | Raised msg => (Raised msg, s)
  | Cancelled => (Cancelled, s)
  end.

(** One delegated agent invocation: the step record to append, or
    [None] when the awaited agent is cancelled and the exception leaves
    [_run_routed_agent_step]. *)
Definition _run_routed_agent_step (e : StepEnv) (d : RoutingDict)
    (s : Session) : option ChainStep * Session :=
  let agent_name := agent d in
  if decide (agent_name = Some "clovis") then
    let s := take_screenshot s in
    match generate_clovis_response e s with
    | (Returned summary, s) =>
        (Some {| step_agent := "clovis";
                 step_task := _routing_task_text d;
                 step_success := true;
                 step_message :=
                   _clean_text (Some summary)
                     "CLOVIS completed the visual guidance task." 420;
                 step_source := "clovis" |}, s)
    | (Raised exc, s) =>
        (Some {| step_agent := "clovis";
                 step_task := _routing_task_text d;
                 step_success := false;
                 step_message := _clean_text (Some exc) "CLOVIS task failed." 420;
                 step_source := "clovis" |}, s)
    | (Cancelled, s) => (None, s)
    end
  else if decide (agent_name = Some "browser") then
    let task := default EmptyString (task d) in
    match browser_execute e with
    | Cancelled => (None, s)
    | outcome =>
        let result :=
          match outcome with
          | Returned r => r
          | Raised exc => {| success := false; result := HNone; error := Some exc |}
          | Cancelled => {| success := false; result := HNone; error := None |}
          end in
        (Some {| step_agent := "browser";
                 step_task := task;
                 step_success := success result;
                 step_message := _browser_completion_message result;
                 step_source := "browser_use" |}, s)
    end
  else if decide (agent_name = Some "cua_cli") then
    let task := default EmptyString (task d) in
    match cli_execute e with
    | Cancelled => (None, s)
    | outcome =>
        let result :=
          match outcome with
          | Returned r => r
          | Raised exc => {| success := false; result := None; error := Some exc |}
          | Cancelled => {| success := false; result := None; error := None |}
          end in
        (Some {| step_agent := "cua_cli";
                 step_task := task;
                 step_success := success result;
                 step_message := _cli_completion_message result;
                 step_source := "cua_cli" |}, s)
    end
  else if decide (agent_name = Some "cua_vision") then
    let s := take_screenshot s in
    let task := default EmptyString (task d) in
    match vision_execute e with
    | Cancelled => (None, s)
    | outcome =>
        let result :=
          match outcome with
          | Returned r => r
          | Raised exc => {| success := false; result := None; error := Some exc |}
          | Cancelled => {| success := false; result := None; error := None |}
          end in
        (Some {| step_agent := "cua_vision";
                 step_task := task;
                 step_success := success result;
                 step_message := _vision_completion_message result;
                 step_source := "cua_vision" |}, s)
    end
  else
    (Some {| step_agent :=
               default "unknown" (Py.or_else agent_name (Some "unknown"));
             step_task := _routing_task_text d;
             step_success := false;
             step_message := "Router returned an unknown agent.";
             step_source := "rapid" |}, s).

Definition repeated_msg : string :=
  "I stopped automatic multi-agent chaining because the next delegated step "
  +:+ "kept repeating. Please rephrase or ask for one specific next action.".

Definition max_step_msg : string :=
  "I stopped after 6 delegated steps to avoid loops. "
  +:+ "If you want me to continue, ask for the next specific step.".

Definition invalid_shape : RoutingDict :=
  {| agent := Some "direct"; task := None; query := None;
     response_text := Some "Router returned an invalid response shape.";
     direct_response_args := None; focus := None |}.

(** The text handed to the [direct_response] tool on a direct routing
    result. *)
Definition direct_text_of (user_prompt : string) (d : RoutingDict)
    (s : Session) : string :=
  let raw_direct_text :=
    Py.or_else
      (match direct_response_args d with
       | Some a => da_text a
       | None => None
       end)
      (response_text d) in
  _finalize_direct_response_text user_prompt (chain_steps s)
    (_clean_text raw_direct_text "Rapid response provided." 420).

(** The part of the loop body after a step record was produced: append
    it, and stop with a failure response when it did not succeed. *)
Definition record_step (failed_name : string) (st : ChainStep)
    (s : Session) : Session * Control :=
  let s := append_step st s in
  let s := _append_rapid_history "assistant" (step_message st) (step_source st) s in
  if negb (step_success st) then
    let failure_msg :=
      "Stopping chained execution because " +:+ failed_name
      +:+ " failed: " +:+ step_message st in
    let s := router_response (_clean_text (Some failure_msg) "Task failed." 420) s in
    let s := _append_rapid_history "assistant" failure_msg "rapid" s in
    (s, Stop Finished)
  else (s, Continue).

(** One iteration of [for step_index in range(_MAX_ROUTER_CHAIN_STEPS)]. *)
Definition router_step (e : StepEnv) (user_prompt : string)
    (s : Session) : Session * Control :=
  match route_request e with
  | Raised _ | Cancelled => (s, Stop Escaped)
  | Returned routing_result =>
      let d :=
        match routing_result with
        | Dict d => d
        | NotDict => invalid_shape
        end in
      if decide (agent d = Some "direct") then
        let direct_text := direct_text_of user_prompt d s in
        let s := router_response direct_text s in
        let s := _append_rapid_history "assistant" direct_text "rapid" s in
        (s, Stop Finished)
      else
        let signature := _routing_signature d in
        let count := (default 0 (seen_step_signatures s !! signature) + 1)%nat in
        let s := set_seen (<[signature := count]> (seen_step_signatures s)) s in
        if (_REPEATED_STEP_LIMIT <=? count)%nat then
          let s := router_response repeated_msg s in
          let s := _append_rapid_history "assistant" repeated_msg "rapid" s in
          (s, Stop Finished)
        else if decide (agent d = Some "screen_context") then
          let judge_task :=
            default EmptyString (Py.or_else (task d) (Some user_prompt)) in
          let s := log_event (StepRun signature) s in
          let s := take_screenshot s in
          match generate_screen_context e with
          | Cancelled => (s, Stop Escaped)
          | Returned c =>
              let s := set_screen_context c s in
              record_step "screen context"
                {| step_agent := "screen_context";
                   step_task := _clean_text (Some judge_task) "" 220;
                   step_success := true;
                   step_message := _screen_context_message c;
                   step_source := "screen_judge" |} s
          | Raised exc =>
              record_step "screen context"
                {| step_agent := "screen_context";
                   step_task := _clean_text (Some judge_task) "" 220;
                   step_success := false;
                   step_message :=
                     _clean_text (Some exc) "Failed to collect screen context." 420;
                   step_source := "screen_judge" |} s
          end
        else
          let s := log_event (StepRun signature) s in
          match _run_routed_agent_step e d s with
          | (None, s) => (s, Stop Escaped)
          | (Some step_result, s) =>
              record_step (step_agent step_result) step_result s
          end
  end.

(** The [for] loop with [n] iterations left, at index [idx]. *)
Fixpoint router_loop (env : nat -> StepEnv) (user_prompt : string)
    (n idx : nat) (s : Session) : Session * Exit :=
  match n with
  | O =>
      let s := router_response max_step_msg s in
      let s := _append_rapid_history "assistant" max_step_msg "rapid" s in
      (s, Finished)
  | S n' =>
      match router_step (env idx) user_prompt s with
      | (s', Continue) => router_loop env user_prompt n' (S idx) s'
      | (s', Stop x) => (s', x)
      end
  end.

(** The session at the start of a call: the globals as found, fresh locals. *)
Definition open_session (hist : list HistoryEntry) (slot : Screenshot.Slot)
    (user_prompt : string) : Session :=
  _append_rapid_history "user" user_prompt "user"
    {| history := hist; shot := slot; chain_steps := [];
       seen_step_signatures := ∅; latest_screen_context := None;
       trace := [] |}.

Definition call_gemini (env : nat -> StepEnv) (hist : list HistoryEntry)
    (slot : Screenshot.Slot) (user_prompt : string) : Session * Exit :=
  router_loop env user_prompt _MAX_ROUTER_CHAIN_STEPS 0
    (open_session hist slot user_prompt).


Definition count_direct (t : list Event) : nat :=
  length (List.filter (fun e => match e with DirectResponse _ _ => true | _ => false end) t).

(** The direct responses of the router itself. *)
Definition count_terminal (t : list Event) : nat :=
  length (List.filter
            (fun e => match e with
                      | DirectResponse source _ => Py.eqb source "rapid_response"
                      | _ => false
                      end) t).

(** The signature of a step of the clovis agent. *)
Definition is_clovis (sig : string * string) : bool := Py.eqb (fst sig) "clovis".

(** A trace in which the router has not responded: delegated steps, and
    direct responses only from the CLOVIS model (source [clovis]) during
    a step of the clovis agent; [in_clovis] says whether the trace starts
    inside such a step. *)
Fixpoint delegated (in_clovis : bool) (t : list Event) : bool :=
  match t with
  | [] => true
  | StepRun sig :: rest => delegated (is_clovis sig) rest
  | DirectResponse source _ :: rest =>
      in_clovis && Py.eqb source "clovis" && delegated in_clovis rest
  end.

Definition count_runs (sig : string * string) (t : list Event) : nat :=
  length (List.filter
            (fun e => match e with
                      | StepRun g => bool_decide (g = sig)
                      | _ => false
                      end) t).

(** A recorded step is usable by the summary when it succeeded with a
    message that has a visible character. *)
Definition usable_step (st : ChainStep) : Prop :=
  step_success st = true /\ Py.nonblank (step_message st) = true.

(** The events one iteration appends: at most one delegated step, with
    what the CLOVIS model said to the user inside it, followed by at most
    one direct response of the router. *)
Definition events_of (ran : option (string * string * list string))
    (resp : option string) : list Event :=
  match ran with
  | Some (g, said) => StepRun g :: List.map (DirectResponse "clovis") said
  | None => []
  end
  ++ match resp with Some t => [DirectResponse "rapid_response" t] | None => [] end.

(** The state of a session that is still in its loop, at iteration
    [idx]: the router has not responded yet, every signature was run as
    often as its counter says and at most twice, and the recorded steps
    are usable and at most [idx]. *)
Definition running (idx : nat) (s : Session) : Prop :=
  delegated false (trace s) = true
  /\ (forall sig,
        count_runs sig (trace s) = default 0%nat (seen_step_signatures s !! sig)
        /\ (count_runs sig (trace s) <= 2)%nat)
  /\ (length (chain_steps s) <= idx)%nat
  /\ Forall usable_step (chain_steps s).

(** A trace that ends with the router's only direct response. *)
Definition ends_with_response (t : list Event) : Prop :=
  exists body text,
    t = body ++ [DirectResponse "rapid_response" text]
    /\ delegated false body = true.

(** Sample collaborators: the router keeps delegating the same CLI task. *)
Definition clone_route : RoutingDict :=
  {| agent := Some "cua_cli"; task := Some "clone repo"; query := None;
     response_text := None; direct_response_args := None; focus := None |}.

Definition clone_result : AgentResult (option string) :=
  {| success := true; result := Some "cloned"; error := None |}.

(** The CLI agent returns. *)
Definition clone_env : StepEnv :=
  {| route_request := Returned (Dict clone_route);
     clovis_generate_content := Cancelled;
     browser_execute := Cancelled;
     cli_execute := Returned clone_result;
     vision_execute := Cancelled;
     generate_screen_context := Cancelled |}.

(** The CLI agent is cancelled while it runs. *)
Definition cancelled_env : StepEnv :=
  {| route_request := Returned (Dict clone_route);
     clovis_generate_content := Cancelled;
     browser_execute := Cancelled;
     cli_execute := Cancelled;
     vision_execute := Cancelled;
     generate_screen_context := Cancelled |}.

Definition empty_slot : Screenshot.Slot :=
  {| Screenshot.stored := None; Screenshot.grabs := 0 |}.

(** Sample collaborators: two CLI steps, then a direct response that
    looks like a repeat artifact. *)
Definition cli_route (t : string) : RoutingDict :=
  {| agent := Some "cua_cli"; task := Some t; query := None;
     response_text := None; direct_response_args := None; focus := None |}.

Definition direct_route (t : string) : RoutingDict :=
  {| agent := Some "direct"; task := None; query := None;
     response_text := Some t; direct_response_args := None; focus := None |}.

Definition answering (d : RoutingDict) (out : string) : StepEnv :=
  {| route_request := Returned (Dict d);
     clovis_generate_content := Cancelled;
     browser_execute := Cancelled;
     cli_execute := Returned {| success := true; result := Some out; error := None |};
     vision_execute := Cancelled;
     generate_screen_context := Cancelled |}.


(** Sample collaborators: the CLOVIS model answers the user itself while
    it annotates the screen; the router then delegates a CLI step and
    responds. *)
Definition clovis_route : RoutingDict :=
  {| agent := Some "clovis"; task := None;
     query := Some "where is the save button";
     response_text := None; direct_response_args := None; focus := None |}.

Definition speaking_env (k : nat) : StepEnv :=
  match k with
  | 0%nat =>
      {| route_request := Returned (Dict clovis_route);
         clovis_generate_content :=
           Returned {| function_calls :=
                         [CallDirectResponse "The Save button is in the toolbar.";
                          CallDrawing];
                       answer_text := None |};
         browser_execute := Cancelled;
         cli_execute := Cancelled;
         vision_execute := Cancelled;
         generate_screen_context := Cancelled |}
  | 1%nat => answering (cli_route "open the editor") "Editor opened."
  | _ => answering (direct_route "Done.") EmptyString
  end.



(** Sample collaborators for the end-to-end scenarios: every agent
    succeeds. *)
Definition route_to (a t : string) : RoutingDict :=
  {| agent := Some a; task := Some t; query := None;
     response_text := None; direct_response_args := None; focus := None |}.

Definition succeeding (r : RoutingResult) : StepEnv :=
  {| route_request := Returned r;
     clovis_generate_content :=
       Returned {| function_calls := [CallDrawing; CallDirectResponse "explained"];
                   answer_text := None |};
     browser_execute :=
       Returned {| success := true; result := HStr "page opened"; error := None |};
     cli_execute :=
       Returned {| success := true; result := Some "command done"; error := None |};
     vision_execute :=
       Returned {| success := true; result := Some "clicked"; error := None |};
     generate_screen_context :=
       Returned {| sc_summary := Some "GitHub repo visible";
                   sc_repo_url := Some "https://github.com/example/repo";
                   sc_local_url := None;
                   sc_recommended_agent := Some "cua_cli";
                   sc_recommended_task := None; sc_hints := None |} |}.

Definition chain_env (k : nat) : StepEnv :=
  match k with
  | 0%nat => succeeding (Dict (route_to "cua_vision" "inspect screen"))
  | 1%nat => succeeding (Dict (route_to "cua_cli" "clone repo locally"))
  | 2%nat => succeeding (Dict (route_to "browser" "open localhost:3000"))
  | _ => succeeding (Dict (direct_route "All done"))
  end.

(** A router that never stops delegating, each time another task. *)
Definition restless_env (k : nat) : StepEnv :=
  succeeding
    (Dict (route_to "cua_cli" ("step " +:+ String (ascii_of_nat (48 + k)) EmptyString))).

End Router.

(** ** Python floats *)

Module Float.
Import SpecFloat.

(** A Python [float] is an IEEE 754 binary64 number. Its operations are
    those of the standard library's specification of IEEE arithmetic,
    which round to nearest, ties to even, and know the infinities and
    NaN. *)
Definition float : Type := spec_float.

Definition prec : Z := 53.
Definition emax : Z := 1024.

(** The float written as the integer literal [n]. *)
Definition lit (n : Z) : float := binary_normalize prec emax n 0 false.

(** [float(n)] for an [int]: the nearest float, or [None] for the
    [OverflowError] of an integer beyond the largest float. *)
Definition of_int (n : Z) : option float :=
  match lit n with
  | S754_infinity _ => None
  | f => Some f
  end.

Definition mul : float -> float -> float := SFmul prec emax.
Definition div : float -> float -> float := SFdiv prec emax.

(** [x <= y] and [x < y]; both are false when a side is NaN. *)
Definition leb : float -> float -> bool := SFleb.
Definition ltb : float -> float -> bool := SFltb.

(** [int(x)]: truncation towards zero; [None] for the error raised on an
    infinity or NaN. *)
Definition to_int (x : float) : option Z :=
  match x with
  | S754_zero _ => Some 0
  | S754_finite s m e => Some (cond_Zopp s (Z.shiftl (Zpos m) e))
  | _ => None
  end.

(** A Python number: an [int] or a [float]. *)
Inductive Number :=
| Int (n : Z)
| Real (x : float).

(** [float(value)]. *)
Definition to_float (value : Number) : option float :=
  match value with
  | Int n => of_int n
  | Real x => Some x
  end.

(** [x * n] for a float [x] and an [int] [n]. *)
Definition times (x : float) (n : Z) : option float :=
  s ← of_int n; Some (mul x s).

End Float.

(** ** Coordinate conversion: [denormalize] (overlay draw tools) and
     [_to_pixels] (vision bounding-box tools) *)

Module Coordinates.
Import Float.

(** [a or b] on integers. *)
Definition or_size (a b : Z) : Z := if a =? 0 then b else a.

(** [0.0 <= val <= hi] on a float. *)
Definition in_band (val : float) (hi : Z) : bool :=
  leb (lit 0) val && leb val (lit hi).

(** [0 <= v <= 1000] on a number. *)
Definition normalized_band (v : Number) : bool :=
  match v with
  | Int n => (0 <=? n) && (n <=? 1000)
  | Real x => in_band x 1000
  end.

(** [int(v / 1000 * size)]; the quotient of two integers is the float
    nearest to it. *)
Definition scaled (v : Number) (size : Z) : option Z :=
  let ratio :=
    match v with
    | Int n => div (lit n) (lit 1000)
    | Real x => div x (lit 1000)
    end in
  product ← times ratio size;
  to_int product.

(** One coordinate of the result of [denormalize]. *)
Definition denormalized (v : Number) (extent : Z) : option Number :=
  if normalized_band v then Int <$> scaled v extent else Some v.

(** [agents/clovis/tools.py: denormalize]; the two size pairs are what
    [_get_sizes] returns, [None] stands for an exception: the
    [RuntimeError] of a missing size, or the [OverflowError] of a size
    that no float can hold. *)
Definition denormalize (screen_size viewport_size : Z * Z)
    (norm_x norm_y : Number) : option (Number * Number) :=
  let '(viewport_width, viewport_height) := viewport_size in
  let '(screen_width, screen_height) := screen_size in
  let width := or_size viewport_width screen_width in
  let height := or_size viewport_height screen_height in
  if (width =? 0) || (height =? 0) then None
  else
    denorm_x ← denormalized norm_x width;
    denorm_y ← denormalized norm_y height;
    Some (denorm_x, denorm_y).

(** [agents/cua_vision/tools.py: _to_pixels]; [None] stands for an
    [OverflowError]. *)
Definition _to_pixels (value : Number) (size : Z) : option float :=
  val ← to_float value;
  if in_band val 1 then times val size
  else if in_band val 1000 then times (div val (lit 1000)) size
  else Some val.

(** [1000 < v] on a number. *)
Definition above_band (v : Number) : bool :=
  match v with
  | Int n => 1000 <? n
  | Real x => ltb (lit 1000) x
  end.

End Coordinates.

(** ** [agents/clovis/tools.py]: placement of text panels *)

Module TextLayout.

Definition Rect : Type := Q * Q * Q * Q.

Definition _TEXT_VIEWPORT_MARGIN_PX : Z := 8.
Definition _TEXT_LAYOUT_STEP_PX : Z := 28.
Definition _TEXT_LAYOUT_MAX_RINGS : nat := 10.
Definition _TEXT_OVERLAP_BUFFER_PX : Z := 0.

(** [max(a, b)] and [min(a, b)] as Python evaluates them. *)
Definition py_max (a b : Q) : Q := if Qlt_le_dec a b then b else a.
Definition py_min (a b : Q) : Q := if Qlt_le_dec b a then b else a.

Definition _clamp (value low high : Q) : Q := py_max low (py_min high value).

(** [int(round(x))]: round half to even. *)
Definition py_round (x : Q) : Z :=
  let f := Qfloor x in
  match Qcompare (x - inject_Z f)%Q (1 # 2)%Q with
  | Lt => f
  | Gt => f + 1
  | Eq => if Z.even f then f else f + 1
  end.

Definition _normalize_align (align : option string) : string :=
  let value :=
    Py.lower (Py.strip (default "left" (Py.or_else align (Some "left")))) in
  if VisionBatch.mem value ["left"; "center"; "right"] then value else "left".

Definition _normalize_baseline (baseline : option string) : string :=
  let value :=
    Py.lower (Py.strip (default "top" (Py.or_else baseline (Some "top")))) in
  if VisionBatch.mem value ["middle"; "center"] then "middle"
  else if Py.eqb value "bottom" then "bottom"
  else "top".

(** The resolved anchor and the rectangle of a panel. *)
Definition Placement : Type := Z * Z * Rect.

Definition _anchor_to_rect (anchor_x anchor_y : Z)
    (panel_width panel_height : Z) (align baseline : string)
    (viewport_width viewport_height : Z) : Placement :=
  let pw := inject_Z panel_width in
  let ph := inject_Z panel_height in
  let left :=
    if Py.eqb align "center" then (inject_Z anchor_x - pw / 2)%Q
    else if Py.eqb align "right" then (inject_Z anchor_x - pw)%Q
    else inject_Z anchor_x in
  let top :=
    if Py.eqb baseline "middle" then (inject_Z anchor_y - ph / 2)%Q
    else if Py.eqb baseline "bottom" then (inject_Z anchor_y - ph)%Q
    else inject_Z anchor_y in
  let horizontal_margin :=
    if viewport_width <? panel_width + 2 * _TEXT_VIEWPORT_MARGIN_PX
    then 0 else _TEXT_VIEWPORT_MARGIN_PX in
  let vertical_margin :=
    if viewport_height <? panel_height + 2 * _TEXT_VIEWPORT_MARGIN_PX
    then 0 else _TEXT_VIEWPORT_MARGIN_PX in
  let min_left := horizontal_margin in
  let min_top := vertical_margin in
  let max_left := Z.max (viewport_width - panel_width - horizontal_margin) min_left in
  let max_top := Z.max (viewport_height - panel_height - vertical_margin) min_top in
  let clamped_left := _clamp left (inject_Z min_left) (inject_Z max_left) in
  let clamped_top := _clamp top (inject_Z min_top) (inject_Z max_top) in
  let resolved_x :=
    if Py.eqb align "center" then (clamped_left + pw / 2)%Q
    else if Py.eqb align "right" then (clamped_left + pw)%Q
    else clamped_left in
  let resolved_y :=
    if Py.eqb baseline "middle" then (clamped_top + ph / 2)%Q
    else if Py.eqb baseline "bottom" then (clamped_top + ph)%Q
    else clamped_top in
  (py_round resolved_x, py_round resolved_y,
   (clamped_left, clamped_top, (clamped_left + pw)%Q, (clamped_top + ph)%Q)).

Definition _rects_overlap (rect_a rect_b : Rect) (buffer : Z) : bool :=
  let '(a_left, a_top, a_right, a_bottom) := rect_a in
  let '(b_left, b_top, b_right, b_bottom) := rect_b in
  let lt x y := negb (Qle_bool y x) in
  lt a_left (b_right - inject_Z buffer)%Q
  && lt (b_left + inject_Z buffer)%Q a_right
  && lt a_top (b_bottom - inject_Z buffer)%Q
  && lt (b_top + inject_Z buffer)%Q a_bottom.

Definition _intersection_area (rect_a rect_b : Rect) : Q :=
  let '(a_left, a_top, a_right, a_bottom) := rect_a in
  let '(b_left, b_top, b_right, b_bottom) := rect_b in
  let width := py_max 0 (py_min a_right b_right - py_max a_left b_left)%Q in
  let height := py_max 0 (py_min a_bottom b_bottom - py_max a_top b_top)%Q in
  (width * height)%Q.

(** The dictionary [_ACTIVE_TEXT_RECTS], in insertion order. *)
Definition Cache : Type := list (string * Rect).

(** [ignore_text_id and other_id == ignore_text_id]. *)
Definition ignored (ignore_text_id : option string) (other_id : string) : bool :=
  match ignore_text_id with
  | Some i => Py.truthy i && Py.eqb other_id i
  | None => false
  end.

Definition _has_text_overlap (cache : Cache) (rect : Rect)
    (ignore_text_id : option string) : bool :=
  existsb
    (fun '(other_id, other_rect) =>
       negb (ignored ignore_text_id other_id)
       && _rects_overlap rect other_rect _TEXT_OVERLAP_BUFFER_PX)
    cache.

Fixpoint _overlap_score_from (score : Q) (cache : Cache) (rect : Rect)
    (ignore_text_id : option string) : Q :=
  match cache with
  | [] => score
  | (other_id, other_rect) :: rest =>
      if ignored ignore_text_id other_id
      then _overlap_score_from score rest rect ignore_text_id
      else _overlap_score_from (score + _intersection_area rect other_rect)%Q
             rest rect ignore_text_id
  end.

Definition _overlap_score (cache : Cache) (rect : Rect)
    (ignore_text_id : option string) : Q :=
  _overlap_score_from 0%Q cache rect ignore_text_id.

(** The twelve offsets tried in one ring. *)
Definition ring_offsets (ring : nat) : list (Z * Z) :=
  let delta := Z.of_nat ring * _TEXT_LAYOUT_STEP_PX in
  [(0, - delta); (0, delta); (delta, 0); (- delta, 0);
   (delta, - delta); (- delta, - delta); (delta, delta); (- delta, delta);
   (2 * delta, 0); (- 2 * delta, 0); (0, 2 * delta); (0, - 2 * delta)].

(** [range(1, _TEXT_LAYOUT_MAX_RINGS + 1)]. *)
Definition rings : list nat := seq 1 _TEXT_LAYOUT_MAX_RINGS.

(** [cache[key] = value] on an insertion-ordered dictionary. *)
Fixpoint dict_set (cache : Cache) (key : string) (value : Rect) : Cache :=
  match cache with
  | [] => [(key, value)]
  | (k, v) :: rest =>
      if Py.eqb k key then (k, value) :: rest
      else (k, v) :: dict_set rest key value
  end.

Section Placement.

(** [_estimate_text_panel_size(text, font_size)]: the estimated panel
    width and height. It is computed in floating point from the text
    and is independent of the cache. *)
Variable _estimate_text_panel_size : string -> Z -> Z * Z.

(** [_viewport_dimensions()]. *)
Variable viewport : Z * Z.

Variable cache : Cache.

Section Search.

Variables (anchor_x anchor_y panel_width panel_height : Z).
Variables (norm_align norm_baseline : string).
Variable text_id : option string.

Definition place (offset : Z * Z) : Placement :=
  _anchor_to_rect (anchor_x + fst offset) (anchor_y + snd offset)
    panel_width panel_height norm_align norm_baseline
    (fst viewport) (snd viewport).

(** The loop variables [best], [best_score], [best_distance]. *)
Definition Best : Type := Placement * Q * Z.

(** The inner [for dx, dy in offsets]: [inl] is an early [return]. *)
Fixpoint scan_offsets (offsets : list (Z * Z)) (b : Best) : Placement + Best :=
  match offsets with
  | [] => inr b
  | (dx, dy) :: rest =>
      let cand := place (dx, dy) in
      let cand_rect := snd cand in
      if negb (_has_text_overlap cache cand_rect text_id) then inl cand
      else
        let score := _overlap_score cache cand_rect text_id in
        let distance := Z.abs dx + Z.abs dy in
        let '(best, best_score, best_distance) := b in
        if negb (Qle_bool best_score score)
           || (Qeq_bool score best_score && (distance <? best_distance))
        then scan_offsets rest (cand, score, distance)
        else scan_offsets rest b
  end.

(** The outer [for ring in range(1, 11)]. *)
Fixpoint scan_rings (rs : list nat) (b : Best) : Placement :=
  match rs with
  | [] => fst (fst b)
  | ring :: rest =>
      match scan_offsets (ring_offsets ring) b with
      | inl found => found
      | inr b' => scan_rings rest b'
      end
  end.

End Search.

Definition _resolve_non_overlapping_anchor (anchor_x anchor_y : Z)
    (text : string) (font_size : Z) (align baseline : option string)
    (text_id : option string) : Placement :=
  let norm_align := _normalize_align align in
  let norm_baseline := _normalize_baseline baseline in
  let '(panel_width, panel_height) := _estimate_text_panel_size text font_size in
  let base :=
    _anchor_to_rect anchor_x anchor_y panel_width panel_height
      norm_align norm_baseline (fst viewport) (snd viewport) in
  let base_rect := snd base in
  if negb (_has_text_overlap cache base_rect text_id) then base
  else
    scan_rings anchor_x anchor_y panel_width panel_height
      norm_align norm_baseline text_id rings
      (base, _overlap_score cache base_rect text_id, 0).

(** [_create_text_non_overlapping]: the drawn anchor, the id and the
    cache afterwards. [fresh_id] is the [uuid4]-based id used when no
    [text_id] is given; [_create_text] returns the id it was passed. *)
Definition _create_text_non_overlapping (fresh_id : string) (x y : Z)
    (text : string) (text_id : option string) (font_size : Z)
    (align baseline : option string) : (Z * Z) * string * Cache :=
  let resolved_text_id :=
    default fresh_id (Py.or_else text_id (Some fresh_id)) in
  let '(resolved_x, resolved_y, rect) :=
    _resolve_non_overlapping_anchor x y text
      (if font_size =? 0 then 18 else font_size)
      align baseline (Some resolved_text_id) in
  let created_id := resolved_text_id in
  ((resolved_x, resolved_y), created_id, dict_set cache created_id rect).

End Placement.

(** The offsets tried by the search, in order, after the requested
    anchor itself. *)
Definition all_offsets : list (Z * Z) := flat_map ring_offsets rings.

Definition candidates : list (Z * Z) := (0, 0) :: all_offsets.

(** Manhattan length of an offset. *)
Definition distance (offset : Z * Z) : Z := Z.abs (fst offset) + Z.abs (snd offset).

(** [(s1, d1)] is not worse than [(s2, d2)]: less overlap, or the same
    overlap at no greater distance. *)
Definition not_worse (s1 : Q) (d1 : Z) (s2 : Q) (d2 : Z) : Prop :=
  (s1 < s2)%Q \/ ((s1 == s2)%Q /\ d1 <= d2).

(** No two rectangles cached under different ids overlap. *)
Definition pairwise_free (cache : Cache) : Prop :=
  forall i j ri rj,
    In (i, ri) cache -> In (j, rj) cache -> i <> j ->
    _rects_overlap ri rj _TEXT_OVERLAP_BUFFER_PX = false.

(** A rectangle overlaps none of those cached under another id than [i]. *)
Definition free_of (cache : Cache) (rect : Rect) (i : string) : Prop :=
  forall k r, In (k, r) cache -> k <> i ->
    _rects_overlap rect r _TEXT_OVERLAP_BUFFER_PX = false.

(** The area two rectangles share: that of the rectangle between the
    greater of their left (top) edges and the lesser of their right
    (bottom) edges, when it has a positive width and height. *)
Definition shared_area (a b : Rect) : Q :=
  let '(a_left, a_top, a_right, a_bottom) := a in
  let '(b_left, b_top, b_right, b_bottom) := b in
  let width := (Qminmax.Qmin a_right b_right - Qminmax.Qmax a_left b_left)%Q in
  let height := (Qminmax.Qmin a_bottom b_bottom - Qminmax.Qmax a_top b_top)%Q in
  if Qlt_le_dec 0 width
  then if Qlt_le_dec 0 height then (width * height)%Q else 0%Q
  else 0%Q.

(** The total overlap area of [rect] against the cache: the sum of the
    areas it shares with the rectangles cached under another id than
    [i]. *)
Definition total_overlap_area (cache : Cache) (rect : Rect) (i : string) : Q :=
  fold_right Qplus 0%Q
    (List.map (fun entry => shared_area rect (snd entry))
       (List.filter (fun entry => negb (String.eqb (fst entry) i)) cache)).

(** A cache in which every candidate position of a small panel overlaps:
    one rectangle covers the viewport, a second one its left half. *)
Definition crowded : Cache :=
  [("a", (0, 0, 800 # 1, 600 # 1))%Q; ("b", (0, 0, 400 # 1, 600 # 1))%Q].

(** A fixed panel size, for examples. *)
Definition fixed_panel (w h : Z) (text : string) (font_size : Z) : Z * Z := (w, h).

(** The loop variables describe the best of the offsets seen so far:
    they are the placement, score and distance of one of them, and that
    one is not worse than any other. *)
Definition tracks (viewport : Z * Z) (cache : Cache)
    (anchor_x anchor_y panel_width panel_height : Z)
    (norm_align norm_baseline : string) (text_id : option string)
    (seen : list (Z * Z)) (b : Placement * Q * Z) : Prop :=
  let rect_of o :=
    snd (place viewport anchor_x anchor_y panel_width panel_height
           norm_align norm_baseline o) in
  let score o := _overlap_score cache (rect_of o) text_id in
  exists o,
    In o seen
    /\ fst (fst b)
       = place viewport anchor_x anchor_y panel_width panel_height
           norm_align norm_baseline o
    /\ snd (fst b) = score o
    /\ snd b = distance o
    /\ forall o', In o' seen -> not_worse (score o) (distance o) (score o') (distance o').

End TextLayout.

(** ** [ui/server.py]: de-duplication of [overlay_input] events *)

Module Overlay.

(** The payload of an [overlay_input] event. *)
Record OverlayInput := {
  text : string;
  requestId : option string;
  request_id : option string }.

(** The fields of [VisualizationServer] used by the event, and the list
    of texts handed to the handler so far. *)
Record Server := {
  _seen_overlay_request_ids : gmap string Q;
  _last_overlay_text : string;
  _last_overlay_ts : Q;
  on_overlay_input : bool;
  handled : list string }.

(** [not ((now - ts) > 10.0)]. *)
Definition kept (now ts : Q) : bool := Qle_bool (now - ts)%Q 10%Q.

Definition invoke (t : string) (srv : Server) : Server :=
  if on_overlay_input srv then
    {| _seen_overlay_request_ids := _seen_overlay_request_ids srv;
       _last_overlay_text := _last_overlay_text srv;
       _last_overlay_ts := _last_overlay_ts srv;
       on_overlay_input := on_overlay_input srv;
       handled := handled srv ++ [t] |}
  else srv.

(** The branch taken when the event carries a request id. *)
Definition by_request_id (now : Q) (rid : string) (ev : OverlayInput)
    (srv : Server) : Server :=
  let live :=
    filter (fun kv : string * Q => Is_true (kept now (snd kv)))
      (_seen_overlay_request_ids srv) in
  match live !! rid with
  | Some _ =>
      {| _seen_overlay_request_ids := live;
         _last_overlay_text := _last_overlay_text srv;
         _last_overlay_ts := _last_overlay_ts srv;
         on_overlay_input := on_overlay_input srv;
         handled := handled srv |}
  | None =>
      invoke (text ev)
        {| _seen_overlay_request_ids := <[rid := now]> live;
           _last_overlay_text := _last_overlay_text srv;
           _last_overlay_ts := _last_overlay_ts srv;
           on_overlay_input := on_overlay_input srv;
           handled := handled srv |}
  end.

(** The branch taken when it carries none. *)
Definition by_text (now : Q) (ev : OverlayInput) (srv : Server) : Server :=
  let normalized := Py.squeeze (text ev) in
  if Py.truthy normalized
     && Py.eqb normalized (_last_overlay_text srv)
     && negb (Qle_bool (6 # 5) (now - _last_overlay_ts srv)%Q)
  then srv
  else
    invoke (text ev)
      {| _seen_overlay_request_ids := _seen_overlay_request_ids srv;
         _last_overlay_text := normalized;
         _last_overlay_ts := now;
         on_overlay_input := on_overlay_input srv;
         handled := handled srv |}.

(** [request_id = payload.get("requestId") or payload.get("request_id")]. *)
Definition request_id_of (ev : OverlayInput) : option string :=
  match Py.or_else (requestId ev) (request_id ev) with
  | Some rid => if Py.truthy rid then Some rid else None
  | None => None
  end.

(** The [overlay_input] branch of [_handle_client], at time
    [now = time.monotonic()]. *)
Definition handle_overlay_input (now : Q) (ev : OverlayInput)
    (srv : Server) : Server :=
  match request_id_of ev with
  | Some rid => by_request_id now rid ev srv
  | None => by_text now ev srv
  end.

(** The server as constructed, with a handler registered. *)
Definition fresh_server : Server :=
  {| _seen_overlay_request_ids := ∅;
     _last_overlay_text := EmptyString;
     _last_overlay_ts := 0%Q;
     on_overlay_input := true;
     handled := [] |}.

(** A sequence of timed events, handled in order. *)
Fixpoint run (events : list (Q * OverlayInput)) (srv : Server) : Server :=
  match events with
  | [] => srv
  | (now, ev) :: rest => run rest (handle_overlay_input now ev srv)
  end.

(** Whether the event handled at [now] reaches the handler. *)
Definition invoked (now : Q) (ev : OverlayInput) (srv : Server) : bool :=
  (length (handled srv) <? length (handled (handle_overlay_input now ev srv)))%nat.

(** Number of handler invocations caused by the events of a sequence that
    carry the request id [rid]. *)
Fixpoint count_invoked_for (rid : string) (events : list (Q * OverlayInput))
    (srv : Server) : nat :=
  match events with
  | [] => 0
  | (now, ev) :: rest =>
      ((if bool_decide (request_id_of ev = Some rid) && invoked now ev srv
        then 1 else 0)
       + count_invoked_for rid rest (handle_overlay_input now ev srv))%nat
  end.

Definition blank : OverlayInput :=
  {| text := EmptyString; requestId := None; request_id := None |}.

End Overlay.

(** ** [agents/cua_cli/agent.py]: ports, background promotion and the
     localhost-claim check of [CLIAgent.execute] *)

Module CliAgent.

(** *** The three regular expressions of [_extract_port_candidates] *)

(** The classes [\d], [\w], [\s] and the matching of letters under
    [re.IGNORECASE] are those of code points below 256. *)

Definition code (c : ascii) : nat := nat_of_ascii c.

Definition between (lo n hi : nat) : bool := (lo <=? n)%nat && (n <=? hi)%nat.

(** [\d]. *)
Definition isdigit (c : ascii) : bool := between 48 (code c) 57.

(** [\w]: alphanumeric code points below 256, and the underscore. *)
Definition isword (c : ascii) : bool :=
  let n := code c in
  between 48 n 57 || between 65 n 90 || between 97 n 122 || (n =? 95)%nat
  || (n =? 170)%nat || (n =? 178)%nat || (n =? 179)%nat || (n =? 181)%nat
  || (n =? 185)%nat || (n =? 186)%nat || between 188 n 190
  || between 192 n 214 || between 216 n 246 || between 248 n 255.

(** A literal matched at the head of [s] ignoring case; the rest of [s]. *)
Fixpoint ci_prefix (pat s : string) : option string :=
  match pat with
  | EmptyString => Some s
  | String p pat' =>
      match s with
      | String c s' =>
          if Ascii.eqb (Py.lower_char c) p then ci_prefix pat' s' else None
      | EmptyString => None
      end
  end.

(** At most [max] leading digits, greedily. *)
Fixpoint take_digits (max : nat) (s : string) : string * string :=
  match max with
  | O => (EmptyString, s)
  | S max' =>
      match s with
      | String c s' =>
          if isdigit c
          then let '(ds, rest) := take_digits max' s' in (String c ds, rest)
          else (EmptyString, s)
      | EmptyString => (EmptyString, s)
      end
  end.

(** [(?:localhost|127\.0\.0\.1)\s*:\s*(\d{2,5})] at the head of [s]:
    group 1 and the text after the match. *)
Definition match_host_port (s : string) : option (string * string) :=
  let after_host :=
    match ci_prefix "localhost" s with
    | Some r => Some r
    | None => ci_prefix "127.0.0.1" s
    end in
  match after_host with
  | Some r =>
      match Py.lstrip r with
      | String ":" r2 =>
          let '(ds, r3) := take_digits 5 (Py.lstrip r2) in
          if (2 <=? String.length ds)%nat then Some (ds, r3) else None
      | _ => None
      end
  | None => None
  end.

(** [\bport\s+(\d{2,5})\b] at the head of [s], [prev] being the character
    before it. The closing [\b] can only hold at the end of the whole
    digit run, which must therefore have two to five digits. *)
Definition match_port_word (prev : option ascii) (s : string)
    : option (string * string) :=
  if match prev with Some c => isword c | None => false end then None
  else
    match ci_prefix "port" s with
    | Some r =>
        let r2 := Py.lstrip r in
        if (String.length r2 <? String.length r)%nat then
          let '(ds, r3) := take_digits (String.length r2) r2 in
          let n := String.length ds in
          if (2 <=? n)%nat && (n <=? 5)%nat
             && negb match r3 with String c _ => isword c | EmptyString => false end
          then Some (ds, r3) else None
        else None
    | None => None
    end.

(** [--port(?:=|\s+)(\d{2,5})] at the head of [s]. *)
Definition match_port_flag (s : string) : option (string * string) :=
  match ci_prefix "--port" s with
  | Some r =>
      let after_sep :=
        match r with
        | String "=" r2 => Some r2
        | _ =>
            let r2 := Py.lstrip r in
            if (String.length r2 <? String.length r)%nat then Some r2 else None
        end in
      match after_sep with
      | Some r2 =>
          let '(ds, r3) := take_digits 5 r2 in
          if (2 <=? String.length ds)%nat then Some (ds, r3) else None
      | None => None
      end
  | None => None
  end.

(** [re.finditer]: matches are searched from left to right and do not
    overlap; [skip] counts the characters still covered by the last
    match. *)
Fixpoint finditer (m : option ascii -> string -> option (string * string))
    (skip : nat) (prev : option ascii) (s : string) : list string :=
  match skip with
  | S k =>
      match s with
      | String c s' => finditer m k (Some c) s'
      | EmptyString => []
      end
  | O =>
      match m prev s with
      | Some (group, rest) =>
          group ::
          match s with
          | String c s' =>
              finditer m (String.length s - String.length rest - 1) (Some c) s'
          | EmptyString => []
          end
      | None =>
          match s with
          | String c s' => finditer m 0 (Some c) s'
          | EmptyString => []
          end
      end
  end.

(** [int(digits)]. *)
Fixpoint int_from (acc : Z) (digits : string) : Z :=
  match digits with
  | EmptyString => acc
  | String c ds => int_from (10 * acc + Z.of_nat (code c - 48)) ds
  end.

Definition int (digits : string) : Z := int_from 0 digits.

(** Insertion into a strictly increasing list: [sorted(set(...))]. *)
Fixpoint insert_port (p : Z) (l : list Z) : list Z :=
  match l with
  | [] => [p]
  | q :: rest =>
      if p <? q then p :: l
      else if p =? q then l
      else q :: insert_port p rest
  end.

Definition sorted_set (l : list Z) : list Z := fold_right insert_port [] l.

Definition _extract_port_candidates (text : string) : list Z :=
  let found :=
    finditer (fun _ => match_host_port) 0 None text
    ++ finditer match_port_word 0 None text
    ++ finditer (fun _ => match_port_flag) 0 None text in
  sorted_set
    (List.filter (fun p => (1 <=? p) && (p <=? 65535)) (List.map int found)).

(** [str(n)] and [str(list_of_ints)]. *)
Definition str_int (n : Z) : string := NilZero.string_of_int (Z.to_int n).

Definition str_list (l : list Z) : string :=
  "[" +:+ Py.join ", " (List.map str_int l) +:+ "]".

(** *** The machine: clock, sockets, files *)

(** Times are in milliseconds of [time.monotonic()]. [port_open t p]
    says whether a connection to [127.0.0.1:p] attempted at time [t]
    succeeds; [connect_ms t p] is how long that attempt takes and
    [sleep_late_ms t] by how much a sleep started at [t] oversleeps. *)
Record World := {
  clock : Z;
  port_open : Z -> Z -> bool;
  connect_ms : Z -> Z -> nat;
  sleep_late_ms : Z -> nat;
  files : gset string;
  tmpdir : string;
  api_key_set : bool }.

Definition advance (ms : Z) (w : World) : World :=
  {| clock := clock w + ms; port_open := port_open w;
     connect_ms := connect_ms w; sleep_late_ms := sleep_late_ms w;
     files := files w; tmpdir := tmpdir w; api_key_set := api_key_set w |}.

Definition create_file (path : string) (w : World) : World :=
  {| clock := clock w; port_open := port_open w;
     connect_ms := connect_ms w; sleep_late_ms := sleep_late_ms w;
     files := {[ path ]} ∪ files w; tmpdir := tmpdir w;
     api_key_set := api_key_set w |}.

Definition _is_local_port_open (port : Z) (w : World) : bool * World :=
  (port_open w (clock w) port,
   advance (Z.of_nat (connect_ms w (clock w) port)) w).

(** [asyncio.sleep(ms / 1000)]. *)
Definition sleep (ms : Z) (w : World) : World :=
  advance (ms + Z.of_nat (sleep_late_ms w (clock w))) w.

(** [for port in ports: if await cls._is_local_port_open(port): return port]. *)
Fixpoint probe_ports (ports : list Z) (w : World) : option Z * World :=
  match ports with
  | [] => (None, w)
  | port :: rest =>
      let '(ok, w1) := _is_local_port_open port w in
      if ok then (Some port, w1) else probe_ports rest w1
  end.

(** [while time.monotonic() < deadline: ...; await asyncio.sleep(0.35)]. *)
Fixpoint wait_loop (fuel : nat) (deadline : Z) (ports : list Z)
    (w : World) : option Z * World :=
  match fuel with
  | O => (None, w)
  | S fuel' =>
      if clock w <? deadline then
        match probe_ports ports w with
        | (Some port, w1) => (Some port, w1)
        | (None, w1) => wait_loop fuel' deadline ports (sleep 350 w1)
        end
      else (None, w)
  end.

(** Every round takes at least 350 ms, so this many rounds reach the
    deadline. *)
Definition rounds_for (timeout_ms : Z) : nat := Z.to_nat (timeout_ms / 350) + 2.

Definition _wait_for_any_port (ports : list Z) (timeout_ms : Z)
    (w : World) : option Z * World :=
  match ports with
  | [] => (None, w)
  | _ => wait_loop (rounds_for timeout_ms) (clock w + timeout_ms) ports w
  end.

(** *** Managed background processes *)

(** An entry of a tool-call list. *)
Record ToolCall := {
  tool_name : string;
  tool_id : string;
  tc_command : string;
  tc_status : option string;
  tc_pid : option Z;
  tc_log_path : option string }.

(** The dataclass [CLIResponse]. *)
Record CLIResponse := {
  success : bool;
  output : string;
  error : option string;
  tool_calls : option (list ToolCall) }.

(** The dictionary returned by [execute] and by the promotion helpers. *)
Record ExecResult := {
  r_success : bool;
  r_result : option string;
  r_error : option string;
  r_tool_calls : option (list ToolCall) }.

(** An entry of [_managed_background_processes]; [started_at] is read
    off the model's one clock. *)
Record Metadata := {
  id : string;
  pid : Z;
  pgid : Z;
  command : string;
  cwd : string;
  log_path : string;
  started_at : Z;
  task : string;
  ports : option (list Z);
  active_port : option Z;
  health_warning : option string }.

(** A call either returns or raises an exception with a message. *)
Inductive Outcome (A : Type) :=
| Ok (a : A)
| Raise (msg : string).
Arguments Ok {A} a.
Arguments Raise {A} msg.

(** What the operating system answers when a process is launched:
    the random id, whether the log file can be opened, the pid of the
    created process ([None]: [create_subprocess_exec] raises), the
    answer of [os.getpgid] ([None]: it raises), and the text of the
    exception raised when opening or creating fails. *)
Record Launcher := {
  uuid_hex : string;
  open_log : bool;
  spawn_pid : option Z;
  getpgid : option Z;
  os_error : string }.

(** The class attribute and the machine. *)
Record State := {
  world : World;
  _managed_background_processes : gmap string Metadata }.

(** [os.path.join(dir, name)]. *)
Definition path_join (dir name : string) : string :=
  match Py.rev_string EmptyString dir with
  | EmptyString => name
  | String "/" _ => dir +:+ name
  | _ => dir +:+ "/" +:+ name
  end.

Definition _start_background_process (os : Launcher)
    (command working_dir task : string) (st : State)
    : Outcome ExecResult * State :=
  let w := world st in
  let process_id := uuid_hex os in
  let log_path := path_join (tmpdir w) ("clovis_cli_bg_" +:+ process_id +:+ ".log") in
  if negb (open_log os) then (Raise (os_error os), st)
  else
    let w := create_file log_path w in
    match spawn_pid os with
    | None =>
        (Raise (os_error os),
         {| world := w;
            _managed_background_processes := _managed_background_processes st |})
    | Some pid =>
        let pgid := match getpgid os with Some g => g | None => pid end in
        let found := _extract_port_candidates (task +:+ String "010" command) in
        let '(opened, w) :=
          match found with
          | [] => (None, w)
          | _ => _wait_for_any_port found 20000 w
          end in
        let metadata :=
          {| id := process_id; pid := pid; pgid := pgid; command := command;
             cwd := working_dir; log_path := log_path;
             started_at := clock (world st); task := task;
             ports := match found with [] => None | _ => Some found end;
             active_port := opened;
             health_warning :=
               match found, opened with
               | _ :: _, None =>
                   Some ("Started process " +:+ str_int pid
                         +:+ ", but no expected port became reachable: "
                         +:+ str_list found)
               | _, _ => None
               end |} in
        let summary_parts :=
          ["Started background process " +:+ process_id;
           "(pid " +:+ str_int pid +:+ ")";
           "command: " +:+ command;
           "log: " +:+ log_path]
          ++ match opened, found with
             | Some port, _ => ["verified on http://127.0.0.1:" +:+ str_int port]
             | None, _ :: _ =>
                 ["expected ports: " +:+ str_list found;
                  "health-check did not confirm readiness yet"]
             | None, [] => []
             end in
        (Ok {| r_success := true;
               r_result := Some (Py.join " | " summary_parts);
               r_error := None;
               r_tool_calls :=
                 Some [{| tool_name := "background_process_manager";
                          tool_id := process_id;
                          tc_command := command;
                          tc_status := None;
                          tc_pid := Some pid;
                          tc_log_path := Some log_path |}] |},
         {| world := w;
            _managed_background_processes :=
              <[process_id := metadata]> (_managed_background_processes st) |})
    end.

(** [_clean_join_text] applied to the listed parts. *)
Definition _clean_join_text (parts : list (option string)) : string :=
  Py.join " | "
    (List.filter Py.truthy
       (List.map (fun part => Py.squeeze (default EmptyString part)) parts)).

Definition _is_timeout_error_text (text : option string) : bool :=
  let lowered := Py.lower (default EmptyString text) in
  Py.contains "timed out" lowered || Py.contains "timeout" lowered.

(** The text of the error raised by [_validate_local_server_claim]. *)
Definition claim_error (found : list Z) : string :=
  "Task reported a local server as running, but none of the claimed ports are reachable: "
  +:+ str_list found
  +:+ ". The process likely exited or never started successfully.".

(** The two textual hints of [_validate_local_server_claim]. *)
Definition claims_local_server (output_text : string) : bool :=
  let lowered := Py.lower output_text in
  let has_localhost_hint :=
    Py.contains "localhost" lowered || Py.contains "127.0.0.1" lowered
    || Py.contains "port " lowered in
  let has_running_hint :=
    Py.any_in ["running"; "started"; "listening"; "serving"; "available at"]
      lowered in
  has_localhost_hint && has_running_hint.

Definition _validate_local_server_claim (output_text : string)
    (w : World) : option string * World :=
  if negb (Py.truthy output_text) then (None, w)
  else if negb (claims_local_server output_text) then (None, w)
  else
    let found := _extract_port_candidates output_text in
    match found with
    | [] => (None, w)
    | _ =>
        match _wait_for_any_port found 15000 w with
        | (Some _, w1) => (None, w1)
        | (None, w1) => (Some (claim_error found), w1)
        end
    end.

Definition set_world (w : World) (st : State) : State :=
  {| world := w;
     _managed_background_processes := _managed_background_processes st |}.

(** The text searched for ports by the promotion pass:
    ["\n".join(filter(None, [task, response.output, launch_command]))]. *)
Definition combined_text (task : string) (response : CLIResponse)
    (launch_command : string) : string :=
  Py.join (String "010" EmptyString)
    (List.filter Py.truthy [task; output response; launch_command]).

(** The message of the [RuntimeError] raised by [_build_cli_env]. *)
Definition api_key_missing : string :=
  "GEMINI_API_KEY not found in environment. "
  +:+ "Please set it in your .env file.".

(** [if response.tool_calls:]. *)
Definition has_tool_calls (response : CLIResponse) : bool :=
  match tool_calls response with
  | Some (_ :: _) => true
  | _ => false
  end.

Section Execute.

(** [_infer_server_launch_from_tool_calls]: the server-like command
    found in the tool calls and its working directory. It resolves
    paths against the file system and is taken as given. *)
Variable _infer_server_launch_from_tool_calls :
  option (list ToolCall) -> option (string * string).

Variable os : Launcher.

Definition _maybe_promote_server_launch_from_tool_calls (task : string)
    (response : CLIResponse) (st : State)
    : Outcome (option ExecResult) * State :=
  match _infer_server_launch_from_tool_calls (tool_calls response) with
  | None => (Ok None, st)
  | Some (launch_command, launch_cwd) =>
      let combined := combined_text task response launch_command in
      let found := _extract_port_candidates combined in
      let '(opened, w) :=
        match found with
        | [] => (None, world st)
        | _ => _wait_for_any_port found 1200 (world st)
        end in
      let st := set_world w st in
      match opened with
      | Some port =>
          if _is_timeout_error_text (error response) then
            (Ok (Some
                   {| r_success := true;
                      r_result :=
                        Some (_clean_join_text
                                [Some (output response);
                                 Some ("Local server is reachable on http://127.0.0.1:"
                                       +:+ str_int port +:+ ".")]);
                      r_error := None;
                      r_tool_calls := tool_calls response |}), st)
          else (Ok None, st)
      | None =>
          if negb (api_key_set w) then (Raise api_key_missing, st)
          else
            match _start_background_process os launch_command launch_cwd task st with
            | (Raise msg, st) => (Raise msg, st)
            | (Ok started, st) =>
                let merged_tool_calls :=
                  default [] (tool_calls response)
                  ++ default [] (r_tool_calls started) in
                (Ok (Some
                       {| r_success := true;
                          r_result :=
                            Some (_clean_join_text
                                    [Some (output response); r_result started]);
                          r_error := None;
                          r_tool_calls :=
                            match merged_tool_calls with
                            | [] => None
                            | _ => Some merged_tool_calls
                            end |}), st)
            end
      end
  end.

(** [if response.tool_calls: promoted = await
    self._maybe_promote_server_launch_from_tool_calls(task, response)];
    without tool calls nothing is promoted. *)
Definition promotion_pass (task : string) (response : CLIResponse) (st : State)
    : Outcome (option ExecResult) * State :=
  if has_tool_calls response
  then _maybe_promote_server_launch_from_tool_calls task response st
  else (Ok None, st).

(** What [except Exception as e] in [execute] returns. *)
Definition failed (msg : string) : ExecResult :=
  {| r_success := false; r_result := None; r_error := Some msg;
     r_tool_calls := None |}.

(** The part of [execute] that follows the last [_run_cli] call: the
    promotion pass, the localhost-claim check with its second
    promotion pass, and the final result. *)
Definition execute_after_run (task : string) (response : CLIResponse)
    (st : State) : ExecResult * State :=
  let first_pass := promotion_pass task response st in
  match first_pass with
  | (Raise msg, st) => (failed msg, st)
  | (Ok (Some promoted), st) => (promoted, st)
  | (Ok None, st) =>
      let '(localhost_claim_error, w) :=
        _validate_local_server_claim (output response) (world st) in
      let st := set_world w st in
      match localhost_claim_error with
      | Some err =>
          let second_pass := promotion_pass task response st in
          match second_pass with
          | (Raise msg, st) => (failed msg, st)
          | (Ok (Some promoted), st) => (promoted, st)
          | (Ok None, st) =>
              ({| r_success := false;
                  r_result := Some (output response);
                  r_error := Some err;
                  r_tool_calls := tool_calls response |}, st)
          end
      | None =>
          ({| r_success := success response;
              r_result := Some (output response);
              r_error := error response;
              r_tool_calls := tool_calls response |}, st)
      end
  end.

End Execute.

(** [w'] is [w] some time later: the same sockets, timings and files. *)
Definition later (w w' : World) : Prop :=
  clock w <= clock w'
  /\ port_open w' = port_open w
  /\ connect_ms w' = connect_ms w
  /\ sleep_late_ms w' = sleep_late_ms w
  /\ files w' = files w
  /\ tmpdir w' = tmpdir w
  /\ api_key_set w' = api_key_set w.

(** [w'] is [w] some time later with the same sockets; files may have
    been created. *)
Definition after (w w' : World) : Prop :=
  clock w <= clock w' /\ port_open w' = port_open w
  /\ api_key_set w' = api_key_set w.

(** [p] answered a probe of a polling wait begun at [start] and over at
    [stop]: the probe was made at time [t], in a round of probes that began
    at [round], less than [ms] after the start. *)
Definition answered (w : World) (start ms stop : Z) (p : Z) : Prop :=
  exists round t,
    start <= round <= t /\ t <= stop /\ round < start + ms
    /\ port_open w t p = true.

(** What a promotion pass can answer besides declining. The launch found
    in the tool calls was started in the background. *)
Definition started (infer : option (list ToolCall) -> option (string * string))
    (os : Launcher) (response : CLIResponse)
    (table table' : gmap string Metadata) : Prop :=
  exists launch meta,
    infer (tool_calls response) = Some launch
    /\ table' = <[uuid_hex os := meta]> table
    /\ command meta = fst launch.

(** Or the run had timed out and a port named in the task, the output or
    the launch command answered a probe of the 1.2-second polling wait,
    begun at [start] and over at [stop], so nothing was started. *)
Definition reachable (infer : option (list ToolCall) -> option (string * string))
    (task : string) (response : CLIResponse) (w : World)
    (start stop : Z) (r : ExecResult) : Prop :=
  _is_timeout_error_text (error response) = true
  /\ exists launch p,
      infer (tool_calls response) = Some launch
      /\ In p (_extract_port_candidates (combined_text task response (fst launch)))
      /\ answered w start 1200 stop p
      /\ r_result r
         = Some (_clean_join_text
                   [Some (output response);
                    Some ("Local server is reachable on http://127.0.0.1:"
                          +:+ str_int p +:+ ".")])
      /\ r_error r = None.

(** Or the attempt raised, for want of the API key or by an error of the
    operating system. *)
Definition raised (os : Launcher) (msg : string) : Prop :=
  msg = api_key_missing \/ msg = os_error os.

(** The time at which the localhost-claim check of a run begins and the
    time at which it is over, when the first promotion pass declines: the
    check is the 15-second polling wait on the ports the output claims. *)
Definition check_begins (infer : option (list ToolCall) -> option (string * string))
    (os : Launcher) (task : string) (response : CLIResponse) (st : State) : Z :=
  clock (world (snd (promotion_pass infer os task response st))).

Definition check_ends (infer : option (list ToolCall) -> option (string * string))
    (os : Launcher) (task : string) (response : CLIResponse) (st : State) : Z :=
  clock (snd (_validate_local_server_claim (output response)
                (world (snd (promotion_pass infer os task response st))))).

(** Sample run for the localhost-claim check: the task names port 3000,
    which something else already serves; the timed-out run claims a server
    on port 4000, which nothing serves. *)
Definition sample_launch (calls : option (list ToolCall)) : option (string * string) :=
  match calls with
  | Some (_ :: _) => Some ("npm start", "/home/u/demo")
  | _ => None
  end.

Definition sample_os : Launcher :=
  {| uuid_hex := "0a1b2c3d"; open_log := true;
     spawn_pid := Some 4242; getpgid := Some 4242;
     os_error := "[Errno 2] No such file or directory" |}.

Definition sample_call : ToolCall :=
  {| tool_name := "run_shell_command"; tool_id := "t1";
     tc_command := "cd ~/demo && npm start"; tc_status := Some "success";
     tc_pid := None; tc_log_path := None |}.

Definition timed_out_response : CLIResponse :=
  {| success := false;
     output := "Server running at http://localhost:4000";
     error := Some "CLI task timed out after 120 seconds";
     tool_calls := Some [sample_call] |}.

Definition only_3000 : State :=
  {| world :=
       {| clock := 0; port_open := fun _ p => p =? 3000;
          connect_ms := fun _ _ => 5%nat; sleep_late_ms := fun _ => 0%nat;
          files := ∅; tmpdir := "/tmp"; api_key_set := true |};
     _managed_background_processes := ∅ |}.

(** The same machine with no port served at all, and a run without
    tool calls. *)
Definition nothing_served : State :=
  {| world :=
       {| clock := 0; port_open := fun _ _ => false;
          connect_ms := fun _ _ => 5%nat; sleep_late_ms := fun _ => 0%nat;
          files := ∅; tmpdir := "/tmp"; api_key_set := true |};
     _managed_background_processes := ∅ |}.

Definition plain_response : CLIResponse :=
  {| success := true;
     output := "Server running at http://localhost:4000";
     error := None;
     tool_calls := None |}.

(** A machine on which [port] answers exactly at the times [open_at]. *)
Definition machine (open_at : Z -> Z -> bool) (connect : nat) (key : bool) : State :=
  {| world :=
       {| clock := 0; port_open := open_at;
          connect_ms := fun _ _ => connect; sleep_late_ms := fun _ => 0%nat;
          files := ∅; tmpdir := "/tmp"; api_key_set := key |};
     _managed_background_processes := ∅ |}.

(** A run that succeeded with a launch among its tool calls and claims a
    server on port 4000. *)
Definition launched_response : CLIResponse :=
  {| success := true;
     output := "Server running at http://localhost:4000";
     error := None;
     tool_calls := Some [sample_call] |}.

(** A run without tool calls that claims servers on ports 4000 and 5000. *)
Definition two_port_response : CLIResponse :=
  {| success := true;
     output := "Servers running at http://localhost:4000 and http://localhost:5000";
     error := None;
     tool_calls := None |}.


End CliAgent.

(** * Further parts of the program *)

(** ** [agents/clovis/tools.py]: wrapping a line of text *)

Module Wrap.

(** [s[n:]]. *)
Fixpoint drop (n : nat) (s : string) : string :=
  match n, s with
  | O, _ => s
  | S n', String _ s' => drop n' s'
  | S _, EmptyString => EmptyString
  end.

(** [raw_line.split(sep)] for a one-character separator: the fields
    between the separators, empty fields included. *)
Fixpoint split_on_from (sep : ascii) (cur s : string) : list string :=
  match s with
  | EmptyString => [cur]
  | String c s' =>
      if Ascii.eqb c sep then cur :: split_on_from sep EmptyString s'
      else split_on_from sep (cur +:+ String c EmptyString) s'
  end.

Definition split_on (sep : ascii) (s : string) : list string :=
  split_on_from sep EmptyString s.

(** [list(raw_line)]. *)
Fixpoint chars (s : string) : list string :=
  match s with
  | EmptyString => []
  | String c s' => String c EmptyString :: chars s'
  end.

(** The loop [for idx in range(0, len(word), max_chars)] of the inner
    function [_append_long_word]; [rest] is [word[idx:]], [at_start] is
    [idx == 0], and [fuel] bounds the number of chunks. *)
Fixpoint long_word_loop (fuel max_chars : nat) (at_start : bool) (rest : string)
    (lines : list string) (current_local : string) : list string * string :=
  match fuel with
  | O => (lines, current_local)
  | S fuel' =>
      match rest with
      | EmptyString => (lines, current_local)
      | _ =>
          let chunk := Py.take max_chars rest in
          if at_start
          then long_word_loop fuel' max_chars false (drop max_chars rest) lines chunk
          else long_word_loop fuel' max_chars false (drop max_chars rest)
                 (lines ++ [current_local]) chunk
      end
  end.

Definition _append_long_word (max_chars : nat) (word existing : string)
    (lines : list string) : list string * string :=
  long_word_loop (String.length word) max_chars true word lines existing.

(** The body of [for word in words], on the pair of [lines] and
    [current]. *)
Definition wrap_word (max_chars : nat) (st : list string * string)
    (word : string) : list string * string :=
  let '(lines, current) := st in
  if negb (Py.truthy current) then
    if (String.length word <=? max_chars)%nat then (lines, word)
    else _append_long_word max_chars word current lines
  else
    let candidate := current +:+ " " +:+ word in
    if (String.length candidate <=? max_chars)%nat then (lines, candidate)
    else
      let lines := lines ++ [current] in
      if (String.length word <=? max_chars)%nat then (lines, word)
      else _append_long_word max_chars word EmptyString lines.

Definition _wrap_line_to_width (raw_line : string) (max_chars : Z) : list string :=
  if max_chars <=? 1 then
    if Py.truthy raw_line then chars raw_line else [EmptyString]
  else
    let '(lines, current) :=
      fold_left (wrap_word (Z.to_nat max_chars)) (split_on " " raw_line)
        ([], EmptyString) in
    lines ++ [if Py.truthy current then current else EmptyString].

(** [s] without its space characters. *)
Fixpoint no_spaces (s : string) : string :=
  match s with
  | EmptyString => EmptyString
  | String c s' => if Ascii.eqb c " " then no_spaces s' else String c (no_spaces s')
  end.

(** The lines one after the other. *)
Definition glued (lines : list string) : string := String.concat EmptyString lines.

End Wrap.

(** ** [agents/clovis/tools.py]: forgetting text panels *)

Module TextCache.
Import TextLayout.

(** [cache.pop(key, None)] on an insertion-ordered dictionary. *)
Fixpoint dict_pop (cache : Cache) (key : string) : Cache :=
  match cache with
  | [] => []
  | (k, v) :: rest =>
      if Py.eqb k key then rest else (k, v) :: dict_pop rest key
  end.

(** The effect of [_destroy_text_with_layout_reset] on
    [_ACTIVE_TEXT_RECTS]. *)
Definition _destroy_text_with_layout_reset (text_id : string) (cache : Cache) : Cache :=
  dict_pop cache text_id.

(** The effect of [_clear_screen_with_layout_reset], and of
    [stop_all_actions], on [_ACTIVE_TEXT_RECTS]. *)
Definition _clear_screen_with_layout_reset (cache : Cache) : Cache := [].

(** [text_id or f"text_{uuid}"]. *)
Definition resolved_text_id (text_id : option string) (fresh_id : string) : string :=
  default fresh_id (Py.or_else text_id (Some fresh_id)).

(** A rectangle with a positive width and height. *)
Definition proper (r : Rect) : Prop :=
  let '(x0, y0, x1, y1) := r in (x0 < x1)%Q /\ (y0 < y1)%Q.

End TextCache.

(** ** [agents/cua_vision/tools.py]: bounding boxes of the vision tools

    The coordinates are Python floats. They are read here as exact
    rationals, which leaves out rounding and the value NaN; what is proved
    of these definitions is stated so that it rests only on the order of
    the clamped values. *)

Module BBox.
Import Coordinates.

(** [0 <= x <= hi]. *)
Definition in_band (x hi : Q) : bool := Qle_bool 0 x && Qle_bool x hi.

(** [_to_pixels], in exact arithmetic. *)
Definition _to_pixels (value : Q) (size : Z) : Q :=
  let val := value in
  if in_band val 1 then (val * inject_Z size)%Q
  else if in_band val 1000 then ((val / 1000) * inject_Z size)%Q
  else val.

(** The dictionary stored by [_set_last_capture_context]. *)
Record CaptureContext := {
  width : Z;
  height : Z;
  logical_width : Z;
  logical_height : Z;
  offset_x : Q;
  offset_y : Q;
  scale_x : Q;
  scale_y : Q;
  mode : string }.

Definition AUTO_FORCE_ZOOM_MIN_SIDE_LOGICAL_PX : Z := 96.
Definition AUTO_FORCE_ZOOM_MAX_AREA_LOGICAL_PX2 : Z := 14000.

(** [_clamp]. *)
Definition _clamp (value low high : Q) : Q :=
  TextLayout.py_max low (TextLayout.py_min high value).

(** [abs(x)]. *)
Definition py_abs (x : Q) : Q := if Qlt_le_dec x 0 then (- x)%Q else x.

(** [a, b = sorted((a, b))]. *)
Definition sorted2 (a b : Q) : Q * Q :=
  if Qlt_le_dec b a then (b, a) else (a, b).

(** The context the bounding-box helpers work with: the stored one, or
    the one found after [capture_active_window()] ran ([captured]);
    [None] makes them raise [RuntimeError]. *)
Definition current_context (context captured : option CaptureContext)
    : option CaptureContext :=
  match context with
  | Some c => Some c
  | None => captured
  end.

(** The first block of [_bbox_center_to_screen_coords]: the bounding box
    in pixels of a [width] x [height] frame, ordered and clamped, as
    [(left, top, right, bottom)]. Tuples are destructured with the names
    [x0], [y0], [x1], [y1] for left, top, right and bottom. *)
Definition clamped_box (width height : Z) (ymin xmin ymax xmax : Q)
    : Q * Q * Q * Q :=
  let top := _to_pixels ymin height in
  let left := _to_pixels xmin width in
  let bottom := _to_pixels ymax height in
  let right := _to_pixels xmax width in
  let horizontal := sorted2 left right in
  let vertical := sorted2 top bottom in
  let left := _clamp (fst horizontal) 0 (inject_Z (Z.max (width - 1) 0)) in
  let right := _clamp (snd horizontal) 1 (inject_Z (Z.max width 1)) in
  let top := _clamp (fst vertical) 0 (inject_Z (Z.max (height - 1) 0)) in
  let bottom := _clamp (snd vertical) 1 (inject_Z (Z.max height 1)) in
  (left, top, right, bottom).

Definition _bbox_center_to_screen_coords (context captured : option CaptureContext)
    (ymin xmin ymax xmax : Q) : option (Q * Q) :=
  match current_context context captured with
  | None => None
  | Some context =>
      let width := or_size (logical_width context) (width context) in
      let height := or_size (logical_height context) (height context) in
      let '(x0, y0, x1, y1) :=
        clamped_box width height ymin xmin ymax xmax in
      let center_x_window := (x0 + (x1 - x0) / 2)%Q in
      let center_y_window := (y0 + (y1 - y0) / 2)%Q in
      Some ((center_x_window + offset_x context)%Q,
            (center_y_window + offset_y context)%Q)
  end.

Definition _should_force_zoom (width_px height_px : Q) : bool :=
  let w := TextLayout.py_max width_px 0 in
  let h := TextLayout.py_max height_px 0 in
  let area := (w * h)%Q in
  (Qle_bool w (inject_Z AUTO_FORCE_ZOOM_MIN_SIDE_LOGICAL_PX)
   && Qle_bool h (inject_Z AUTO_FORCE_ZOOM_MIN_SIDE_LOGICAL_PX))
  || Qle_bool area (inject_Z AUTO_FORCE_ZOOM_MAX_AREA_LOGICAL_PX2).

End BBox.

(** ** [agents/cua_vision/single_call.py]: the click-loop detector and
     the status texts of the engine *)

Module LoopGuard.

Definition CLICK_CYCLE_LOOP_STOP_THRESHOLD : nat := 4.

Definition _task_expects_repeated_clicks (task : string) : bool :=
  let text := Py.lower task in
  Py.any_in
    ["times"; "repeatedly"; "keep clicking"; "click again";
     "double click multiple"; "spam click"; "until"; "every"; "loop"]
    text.

Section Detector.

(** Action signatures are tuples built by [_action_signature]; only their
    equality matters here. *)
Context {Sig : Type} `{EqDecision Sig}.

(** The three fields of [SingleCallVisionEngine] used by the detector. *)
Record Detector := {
  _pending_position_signature : option Sig;
  _last_click_cycle_signature : option (Sig * Sig);
  _repeated_click_cycle_count : nat }.

(** The fields as [__init__] sets them. *)
Definition fresh_detector : Detector :=
  {| _pending_position_signature := None;
     _last_click_cycle_signature := None;
     _repeated_click_cycle_count := 0 |}.

Definition _register_action_and_detect_click_loop (task name : string)
    (signature : Sig) (click_type : option string) (d : Detector)
    : bool * Detector :=
  if VisionBatch.mem name VisionBatch.POSITIONING_TOOLS then
    (false,
     {| _pending_position_signature := Some signature;
        _last_click_cycle_signature := _last_click_cycle_signature d;
        _repeated_click_cycle_count := _repeated_click_cycle_count d |})
  else if Py.otruthy click_type then
    match _pending_position_signature d with
    | None => (false, d)
    | Some pending =>
        let cycle_signature := (pending, signature) in
        let d :=
          if decide (Some cycle_signature = _last_click_cycle_signature d) then
            {| _pending_position_signature := _pending_position_signature d;
               _last_click_cycle_signature := _last_click_cycle_signature d;
               _repeated_click_cycle_count := S (_repeated_click_cycle_count d) |}
          else
            {| _pending_position_signature := _pending_position_signature d;
               _last_click_cycle_signature := Some cycle_signature;
               _repeated_click_cycle_count := 1 |} in
        ((CLICK_CYCLE_LOOP_STOP_THRESHOLD <=? _repeated_click_cycle_count d)%nat
         && negb (_task_expects_repeated_clicks task), d)
    end
  else (false, fresh_detector).

(** An action handed to the detector. *)
Record Action := {
  a_name : string;
  a_signature : Sig;
  a_click_type : option string }.

Definition positions (a : Action) : bool :=
  VisionBatch.mem (a_name a) VisionBatch.POSITIONING_TOOLS.

Definition clicks (a : Action) : bool :=
  negb (positions a) && Py.otruthy (a_click_type a).

(** The answers of the detector to a sequence of actions, and its state
    afterwards. *)
Fixpoint observe (task : string) (actions : list Action) (d : Detector)
    : list bool * Detector :=
  match actions with
  | [] => ([], d)
  | a :: rest =>
      let '(stop, d1) :=
        _register_action_and_detect_click_loop task (a_name a) (a_signature a)
          (a_click_type a) d in
      let '(stops, d2) := observe task rest d1 in
      (stop :: stops, d2)
  end.

(** The number of click actions after the last action that is neither a
    click nor a positioning, [n] being the number before [actions]. *)
Fixpoint clicks_since_reset (actions : list Action) (n : nat) : nat :=
  match actions with
  | [] => n
  | a :: rest =>
      if positions a then clicks_since_reset rest n
      else if clicks a then clicks_since_reset rest (S n)
      else clicks_since_reset rest 0
  end.

(** [k] times a positioning followed by a click. *)
Fixpoint cycles (position click : Action) (k : nat) : list Action :=
  match k with
  | O => []
  | S k' => position :: click :: cycles position click k'
  end.

End Detector.

Arguments Detector Sig : clear implicits.
Arguments Action Sig : clear implicits.

(** The actions of the regression test of the detector. *)
Definition light_mode_task : string :=
  "Open Settings and change appearance to Light Mode.".

Definition go_to_light_mode : Action string :=
  {| a_name := "go_to_element"; a_signature := "go_to_element bucket 24 7";
     a_click_type := None |}.

Definition click_light_mode : Action string :=
  {| a_name := "click_left_click";
     a_signature := "click_left_click target_description=Light mode option";
     a_click_type := Some "left click" |}.

(** *** Status texts *)

(** A message sent to the overlay. *)
Inductive UiCall :=
| ShowStatusBubble (text : string)
| ShowCursorStatus (text : string)
| UpdateStatusBubble (text : string)
| UpdateCursorStatus (text : string)
| HideCursorStatus
| HideStatusBubble (delay_ms : Z).

(** [_status_visible], [_last_status_text] and the messages sent so far;
    a message whose sending fails is sent all the same, and every call
    runs to its end. *)
Record Status := {
  _status_visible : bool;
  _last_status_text : option string;
  sent : list UiCall }.

Definition initial_status : Status :=
  {| _status_visible := false; _last_status_text := None; sent := [] |}.

Definition _set_status (text : string) (s : Status) : Status :=
  if decide (Some text = _last_status_text s) then s
  else if negb (_status_visible s) then
    {| _status_visible := true;
       _last_status_text := Some text;
       sent := sent s ++ [ShowStatusBubble text; ShowCursorStatus text] |}
  else
    {| _status_visible := _status_visible s;
       _last_status_text := Some text;
       sent := sent s ++ [UpdateStatusBubble text; UpdateCursorStatus text] |}.

Definition _hide_statuses (delay_ms : Z) (s : Status) : Status :=
  if negb (_status_visible s) then s
  else
    {| _status_visible := false;
       _last_status_text := None;
       sent := sent s ++ [HideCursorStatus; HideStatusBubble delay_ms] |}.

(** A call of one of the two methods. *)
Inductive StatusOp :=
| SetStatus (text : string)
| HideStatuses (delay_ms : Z).

Definition apply_op (s : Status) (op : StatusOp) : Status :=
  match op with
  | SetStatus text => _set_status text s
  | HideStatuses delay_ms => _hide_statuses delay_ms s
  end.

(** What the overlay shows after a sequence of messages: [None] when a
    message does not fit the state (a second show, an update or a hide of
    something not shown, an update that repeats the text shown), else
    the texts in the status bubble and beside the cursor. *)
Fixpoint overlay_after (calls : list UiCall) (bubble cursor : option string)
    : option (option string * option string) :=
  match calls with
  | [] => Some (bubble, cursor)
  | ShowStatusBubble t :: rest =>
      match bubble with
      | None => overlay_after rest (Some t) cursor
      | Some _ => None
      end
  | ShowCursorStatus t :: rest =>
      match cursor with
      | None => overlay_after rest bubble (Some t)
      | Some _ => None
      end
  | UpdateStatusBubble t :: rest =>
      match bubble with
      | Some old => if decide (old = t) then None else overlay_after rest (Some t) cursor
      | None => None
      end
  | UpdateCursorStatus t :: rest =>
      match cursor with
      | Some old => if decide (old = t) then None else overlay_after rest bubble (Some t)
      | None => None
      end
  | HideCursorStatus :: rest =>
      match cursor with
      | Some _ => overlay_after rest bubble None
      | None => None
      end
  | HideStatusBubble _ :: rest =>
      match bubble with
      | Some _ => overlay_after rest None cursor
      | None => None
      end
  end.

End LoopGuard.

(** ** [agents/cua_cli/agent.py]: stopping managed background processes *)

Module Background.
Import CliAgent.

(** A [SIGTERM] sent by [os.killpg] or [os.kill]; it is recorded whether
    or not the call raises, since the exception is swallowed. *)
Inductive Signal :=
| Killpg (pgid : Z)
| Kill (pid : Z).

(** The [try] block shared by [stop_background_process] and
    [_cleanup_background_processes_sync]. *)
Definition terminate (meta : Metadata) : list Signal :=
  if 0 <? pgid meta then [Killpg (pgid meta)]
  else if 0 <? pid meta then [Kill (pid meta)]
  else [].

Definition stop_background_process (process_id : string)
    (table : gmap string Metadata) : bool * gmap string Metadata * list Signal :=
  match table !! process_id with
  | None => (false, table, [])
  | Some meta => (true, delete process_id table, terminate meta)
  end.

(** The loop of [stop_all_background_processes] over the ids listed
    before it starts. *)
Fixpoint stop_each (ids : list string) (stopped : nat)
    (table : gmap string Metadata) (signals : list Signal)
    : nat * gmap string Metadata * list Signal :=
  match ids with
  | [] => (stopped, table, signals)
  | proc_id :: rest =>
      let '(ok, table, sent) := stop_background_process proc_id table in
      stop_each rest (if ok then S stopped else stopped) table (signals ++ sent)
  end.

(** [stop_all_background_processes]; the ids are taken in the order the
    finite map lists them. *)
Definition stop_all_background_processes (table : gmap string Metadata)
    : nat * gmap string Metadata * list Signal :=
  stop_each (fst <$> map_to_list table) 0 table [].

(** Strictly increasing lists. *)
Fixpoint increasing (l : list Z) : bool :=
  match l with
  | a :: (b :: _) as rest => (a <? b) && increasing rest
  | _ => true
  end.

(** The message [_run_cli] joins to the error of a run that timed out. *)
Definition timeout_msg (timeout : Z) : string :=
  "CLI task timed out after " +:+ str_int timeout +:+ " seconds".

End Background.

(** ** [models/models.py]: the conversation history and the screen
     context payload *)

Module RouterState.
Import RouterText.
Import Router.

(** What [_RAPID_CONVERSATION_HISTORY] holds: at most 32 entries, each
    with a text of 1 to 600 characters that is not blank. *)
Definition history_ok (h : list HistoryEntry) : Prop :=
  (length h <= 32)%nat
  /\ Forall (fun e => Py.nonblank (text e) = true
                      /\ (String.length (text e) <= 600)%nat) h.

(** [_normalize_screen_context_payload]; every key of the result is
    present. *)
Definition _normalize_screen_context_payload (payload : ScreenContext)
    (user_request : string) : ScreenContext :=
  let recommended_agent :=
    Py.lower
      (Py.strip
         (default EmptyString
            (Py.or_else (sc_recommended_agent payload) (Some EmptyString)))) in
  let recommended_agent :=
    if negb (VisionBatch.mem recommended_agent
               ["cua_cli"; "cua_vision"; "browser"; "clovis"; "direct"])
    then EmptyString else recommended_agent in
  let recommended_task := _clean_text (sc_recommended_task payload) EmptyString 420 in
  let recommended_task :=
    if negb (Py.truthy recommended_task)
    then _clean_text (Some user_request) EmptyString 420
    else recommended_task in
  {| sc_summary := Some (_clean_text (sc_summary payload) EmptyString 420);
     sc_repo_url := Some (_clean_text (sc_repo_url payload) EmptyString 420);
     sc_local_url := Some (_clean_text (sc_local_url payload) EmptyString 420);
     sc_recommended_agent := Some recommended_agent;
     sc_recommended_task := Some recommended_task;
     sc_hints := Some (_clean_text (sc_hints payload) EmptyString 420) |}.

End RouterState.

(** ** [core/registry.py], [ui/visualization_api] and [ui/server.py]:
     the elements on screen, as the client registers them and as the
     server keeps them *)

Module Scene.

(** A value of the dictionary [registry]. *)
Inductive Entry :=
| BoxEntry (x_min y_min x_max y_max : Z)
| TextEntry (x y : Z).

Definition register_box (box_id : string) (x_min y_min x_max y_max : Z)
    (registry : gmap string Entry) : gmap string Entry :=
  <[box_id := BoxEntry x_min y_min x_max y_max]> registry.

Definition register_text (text_id : string) (x_pos y_pos : Z)
    (registry : gmap string Entry) : gmap string Entry :=
  <[text_id := TextEntry x_pos y_pos]> registry.

(** [registry.pop(entry_id, None) is not None]. *)
Definition remove_entry (entry_id : string) (registry : gmap string Entry)
    : bool * gmap string Entry :=
  (bool_decide (is_Some (registry !! entry_id)), delete entry_id registry).

Definition clear (registry : gmap string Entry) : gmap string Entry := ∅.

(** The geometry keys of a [draw_box] and of a [draw_text] payload, the
    only ones that matter here. *)
Definition BoxPayload : Type := Z * Z * Z * Z.
Definition TextPayload : Type := Z * Z * string.

(** A message of the client to the server. *)
Inductive Message :=
| draw_box (id : string) (x y width height : Z)
| draw_text (id : string) (x y : Z) (text : string)
| remove_box (id : string)
| remove_text (id : string)
| clear_all.

(** The dictionaries [boxes] and [texts] of [VisualizationServer]. *)
Record Server := {
  boxes : gmap string BoxPayload;
  texts : gmap string TextPayload }.

(** The branches of [_handle_client] for these messages. *)
Definition handle (m : Message) (srv : Server) : Server :=
  match m with
  | draw_box id x y width height =>
      {| boxes := <[id := (x, y, width, height)]> (boxes srv); texts := texts srv |}
  | draw_text id x y text =>
      {| boxes := boxes srv; texts := <[id := (x, y, text)]> (texts srv) |}
  | remove_box id => {| boxes := delete id (boxes srv); texts := texts srv |}
  | remove_text id => {| boxes := boxes srv; texts := delete id (texts srv) |}
  | clear_all => {| boxes := ∅; texts := ∅ |}
  end.

(** The module globals of the client side, and the server it talks to;
    a message sent is handled before the next call. *)
Record System := {
  registry : gmap string Entry;
  _BOX_CACHE : gmap string BoxPayload;
  server : Server }.

(** [given or f"prefix_{uuid}"]. *)
Definition id_or (given : option string) (fresh : string) : string :=
  default fresh (Py.or_else given (Some fresh)).

(** [draw_bounding_box._draw_bounding_box], on integer coordinates. *)
Definition _draw_bounding_box (y_min x_min y_max x_max : Z)
    (box_id : option string) (fresh : string) (sys : System) : string * System :=
  let width := x_max - x_min in
  let height := y_max - y_min in
  let box_id := id_or box_id fresh in
  let '(x, y, width, height) := (x_min, y_min, width, height) in
  (box_id,
   {| _BOX_CACHE := <[box_id := (x, y, width, height)]> (_BOX_CACHE sys);
      server := handle (draw_box box_id x y width height) (server sys);
      registry := register_box box_id x y (x + width) (y + height) (registry sys) |}).

(** [create_text._create_text]. *)
Definition _create_text (x y : Z) (text : string) (text_id : option string)
    (fresh : string) (sys : System) : string * System :=
  let text_id := id_or text_id fresh in
  (text_id,
   {| _BOX_CACHE := _BOX_CACHE sys;
      server := handle (draw_text text_id x y text) (server sys);
      registry := register_text text_id x y (registry sys) |}).

(** [destroy_box._destroy_box]. *)
Definition _destroy_box (box_id : string) (sys : System) : System :=
  {| _BOX_CACHE := delete box_id (_BOX_CACHE sys);
     server := handle (remove_box box_id) (server sys);
     registry := snd (remove_entry box_id (registry sys)) |}.

(** [destroy_text._destroy_text]. *)
Definition _destroy_text (text_id : string) (sys : System) : System :=
  {| _BOX_CACHE := _BOX_CACHE sys;
     server := handle (remove_text text_id) (server sys);
     registry := snd (remove_entry text_id (registry sys)) |}.

(** [clear_screen._clear_screen]. *)
Definition _clear_screen (sys : System) : System :=
  {| _BOX_CACHE := _BOX_CACHE sys;
     server := handle clear_all (server sys);
     registry := clear (registry sys) |}.

(** [draw_bounding_box.get_box_rect]. *)
Definition get_box_rect (box_id : string) (sys : System) : option BoxPayload :=
  _BOX_CACHE sys !! box_id.

(** A call of the visualization API. *)
Inductive Call :=
| DrawBoundingBox (y_min x_min y_max x_max : Z) (box_id : option string) (fresh : string)
| CreateText (x y : Z) (text : string) (text_id : option string) (fresh : string)
| DestroyBox (box_id : string)
| DestroyText (text_id : string)
| ClearScreen.

Definition perform (sys : System) (c : Call) : System :=
  match c with
  | DrawBoundingBox y_min x_min y_max x_max box_id fresh =>
      snd (_draw_bounding_box y_min x_min y_max x_max box_id fresh sys)
  | CreateText x y text text_id fresh => snd (_create_text x y text text_id fresh sys)
  | DestroyBox box_id => _destroy_box box_id sys
  | DestroyText text_id => _destroy_text text_id sys
  | ClearScreen => _clear_screen sys
  end.

Definition start : System :=
  {| registry := ∅; _BOX_CACHE := ∅; server := {| boxes := ∅; texts := ∅ |} |}.

(** Every registry entry describes an element the server shows under
    that id, with the same geometry; a registered box has its rectangle
    cached. *)
Definition described (sys : System) : Prop :=
  forall id,
    match registry sys !! id with
    | Some (BoxEntry x_min y_min x_max y_max) =>
        boxes (server sys) !! id = Some (x_min, y_min, x_max - x_min, y_max - y_min)
        /\ get_box_rect id sys = Some (x_min, y_min, x_max - x_min, y_max - y_min)
    | Some (TextEntry x y) =>
        exists text, texts (server sys) !! id = Some (x, y, text)
    | None => True
    end.

(** *** The theme of the status bubble *)

Section Themes.

(** A theme is a non-empty dictionary of colours. *)
Context {Theme : Type}.

(** [_theme_for_status()]: the palette chosen from the screen as it is at
    the [n]-th sampling. *)
Variable _theme_for_status : nat -> Theme.

(** The status commands; [theme] is the payload's theme when it has a
    non-empty one. *)
Inductive StatusCommand :=
| show_status_bubble (theme : option Theme)
| update_status_bubble (theme : option Theme)
| complete_status_bubble (theme : option Theme)
| hide_status_bubble
| clear_command.

(** [_active_status_theme], the number of samplings made, and the
    themes of the payloads broadcast. *)
Record StatusServer := {
  _active_status_theme : option Theme;
  samplings : nat;
  broadcast : list (option Theme) }.

Definition with_sampled_theme (s : StatusServer) : StatusServer :=
  let theme := _theme_for_status (samplings s) in
  {| _active_status_theme := Some theme;
     samplings := S (samplings s);
     broadcast := broadcast s ++ [Some theme] |}.

Definition handle_status (s : StatusServer) (c : StatusCommand) : StatusServer :=
  match c with
  | show_status_bubble (Some theme) =>
      {| _active_status_theme := Some theme; samplings := samplings s;
         broadcast := broadcast s ++ [Some theme] |}
  | show_status_bubble None => with_sampled_theme s
  | update_status_bubble (Some theme) | complete_status_bubble (Some theme) =>
      {| _active_status_theme := Some theme; samplings := samplings s;
         broadcast := broadcast s ++ [Some theme] |}
  | update_status_bubble None | complete_status_bubble None =>
      match _active_status_theme s with
      | Some active =>
          {| _active_status_theme := Some active; samplings := samplings s;
             broadcast := broadcast s ++ [Some active] |}
      | None => with_sampled_theme s
      end
  | hide_status_bubble | clear_command =>
      {| _active_status_theme := None; samplings := samplings s;
         broadcast := broadcast s ++ [None] |}
  end.

(** An update or completion that brings no theme of its own. *)
Definition follows (c : StatusCommand) : bool :=
  match c with
  | update_status_bubble None | complete_status_bubble None => true
  | _ => false
  end.

End Themes.

End Scene.

(** ** [agents/cua_cli/agent.py]: process-management tasks *)

Module Management.
Import CliAgent.
Import Background.

(** A row of [list_background_processes]. *)
Record Row := {
  row_id : string;
  row_pid : Z;
  row_command : string;
  row_log_path : string;
  uptime_seconds : Z;
  row_active_port : option Z }.

(** [list_background_processes] at time [now], in milliseconds like
    [started_at]; the rows come in the order the finite map lists its
    entries. *)
Definition list_background_processes (now : Z) (table : gmap string Metadata)
    : list Row :=
  (fun '(proc_id, meta) =>
     {| row_id := proc_id;
        row_pid := pid meta;
        row_command := command meta;
        row_log_path := log_path meta;
        uptime_seconds := Z.max 0 (now - started_at meta) / 1000;
        row_active_port :=
          match active_port meta with
          | Some port => if port =? 0 then None else Some port
          | None => None
          end |})
  <$> map_to_list table.

(** The line printed for a row. *)
Definition row_line (row : Row) : string :=
  row_id row +:+ " pid=" +:+ str_int (row_pid row)
  +:+ " port=" +:+ match row_active_port row with
                   | Some port => str_int port
                   | None => "-"
                   end
  +:+ " uptime=" +:+ str_int (uptime_seconds row) +:+ "s cmd=" +:+ row_command row.

(** [\s+] at the head of [s]: the rest, when at least one blank was
    there. *)
Definition blanks (s : string) : option string :=
  let rest := Py.lstrip s in
  if (String.length rest <? String.length s)%nat then Some rest else None.

(** [[a-zA-Z0-9_-]]. *)
Definition is_id_char (c : ascii) : bool :=
  let n := code c in
  between 97 n 122 || between 65 n 90 || between 48 n 57
  || (n =? 95)%nat || (n =? 45)%nat.

(** The longest run of id characters at the head of [s]. *)
Fixpoint take_id (s : string) : string :=
  match s with
  | String c s' => if is_id_char c then String c (take_id s') else EmptyString
  | EmptyString => EmptyString
  end.

(** [(?:stop|kill)\s+background\s+process\s+([a-zA-Z0-9_-]+)] at the head
    of [s], ignoring case: group 1. *)
Definition match_stop (s : string) : option string :=
  let verb :=
    match ci_prefix "stop" s with
    | Some r => Some r
    | None => ci_prefix "kill" s
    end in
  r1 ← verb;
  r2 ← blanks r1;
  r3 ← ci_prefix "background" r2;
  r4 ← blanks r3;
  r5 ← ci_prefix "process" r4;
  r6 ← blanks r5;
  match take_id r6 with
  | EmptyString => None
  | proc_id => Some proc_id
  end.

(** [re.search]: the leftmost match. *)
Fixpoint search_stop (s : string) : option string :=
  match match_stop s with
  | Some proc_id => Some proc_id
  | None =>
      match s with
      | String _ s' => search_stop s'
      | EmptyString => None
      end
  end.

(** [_maybe_handle_background_management_task] at time [now]: the
    response, when the task is a management task, the table of managed
    processes and the signals sent. *)
Definition _maybe_handle_background_management_task (now : Z) (task : string)
    (table : gmap string Metadata)
    : option ExecResult * gmap string Metadata * list Signal :=
  let lower := Py.lower (Py.strip task) in
  if Py.contains "list background process" lower
     || Py.contains "show background process" lower then
    let rows := list_background_processes now table in
    match rows with
    | [] =>
        (Some {| r_success := true;
                 r_result := Some "No managed background processes.";
                 r_error := None; r_tool_calls := None |}, table, [])
    | _ =>
        let lines := row_line <$> rows in
        (Some {| r_success := true;
                 r_result :=
                   Some ("Managed background processes:" +:+ String "010" EmptyString
                         +:+ Py.join (String "010" EmptyString) lines);
                 r_error := None; r_tool_calls := None |}, table, [])
    end
  else if Py.contains "stop all background process" lower
          || Py.contains "kill all background process" lower then
    let '(count, table, signals) := stop_all_background_processes table in
    (Some {| r_success := true;
             r_result :=
               Some ("Stopped " +:+ str_int (Z.of_nat count)
                     +:+ " background process(es).");
             r_error := None; r_tool_calls := None |}, table, signals)
  else
    match search_stop task with
    | Some proc_id =>
        let proc_id := Py.strip proc_id in
        let '(ok, table, signals) := stop_background_process proc_id table in
        if ok then
          (Some {| r_success := true;
                   r_result := Some ("Stopped background process " +:+ proc_id +:+ ".");
                   r_error := None; r_tool_calls := None |}, table, signals)
        else
          (Some {| r_success := false; r_result := None;
                   r_error := Some ("No background process found: " +:+ proc_id);
                   r_tool_calls := None |}, table, signals)
    | None => (None, table, [])
    end.

End Management.

(** * Properties *)

(** ** The stored screenshot *)

(** C10. Every call of [get_stored_screenshot] leaves the slot empty; the
    image captured by [store_screenshot] is returned by the first call that
    follows and by no later one: the next call returns an image grabbed at
    that moment, different from the stored one. *)
Theorem get_stored_screenshot_one_shot :
  (forall s, Screenshot.stored (snd (Screenshot.get_stored_screenshot s)) = None)
  /\ (forall s,
        let '(img, s0) := Screenshot.store_screenshot s in
        let '(first, s1) := Screenshot.get_stored_screenshot s0 in
        let '(second, s2) := Screenshot.get_stored_screenshot s1 in
        first = img
        /\ second = Screenshot.grabs s1
        /\ Screenshot.grabs s2 = S (Screenshot.grabs s1)
        /\ second <> img
        /\ Screenshot.stored s2 = None).
Proof.
  split.
  - intros [st g]. unfold Screenshot.get_stored_screenshot. cbn.
    destruct st; reflexivity.
  - intros [st g]. cbn. repeat split; lia.
Qed.

(** ** The batch normaliser of the vision engine *)

Import VisionBatch.

Lemma firstn_is_prefix {A} (n : nat) (l : list A) :
  firstn n l = firstn (length (firstn n l)) l.
Proof.
  revert l. induction n as [|n IH]; intros [|x l]; cbn; try reflexivity.
  f_equal. apply IH.
Qed.

(** C5, as stated, fails: a click followed by [task_is_complete] is
    returned unchanged, and is none of the three claimed shapes. *)
Lemma normalize_batch_click_complete_kept :
  let batch := [call "click_left_click"; call "task_is_complete"] in
  _normalize_function_call_batch batch = batch
  /\ one_at_most (_normalize_function_call_batch batch) = false
  /\ position_click (_normalize_function_call_batch batch) = false
  /\ position_click_complete (_normalize_function_call_batch batch) = false.
Proof. repeat split. Qed.

(** C5, amended. The normalised batch is a prefix of the model's calls
    (extras are dropped) of one of four shapes: at most one call,
    positioning then click, positioning then click then
    [task_is_complete], or click then [task_is_complete]; it never
    contains two click calls. *)
Theorem normalize_batch_shapes (function_calls : list FunctionCall) :
  let batch := _normalize_function_call_batch function_calls in
  batch = firstn (length batch) function_calls
  /\ (one_at_most batch
      || position_click batch
      || position_click_complete batch
      || click_complete batch) = true
  /\ (count_clicks batch <= 1)%nat.
Proof.
  assert (Hcomplete : forall c, is_complete c = true -> is_click c = false).
  { intros [n ?] H. unfold is_complete, is_click, mem, Py.eqb in *. cbn in *.
    apply String.eqb_eq in H. subst. reflexivity. }
  assert (Hposition : forall c, is_positioning c = true -> is_click c = false).
  { intros [n ?] H. unfold is_positioning, is_click, mem, Py.eqb in *. cbn in *.
    rewrite orb_false_r in H. apply orb_prop in H as [H|H];
      apply String.eqb_eq in H; subst; reflexivity. }
  assert (Hone : forall c, (count_clicks [c] <= 1)%nat).
  { intros c. unfold count_clicks.
    cbn. destruct (is_click c); cbn; lia. }
  destruct function_calls as [|a [|b rest]].
  - cbn. repeat split. unfold count_clicks. cbn. lia.
  - cbn. repeat split. apply Hone.
  - unfold _normalize_function_call_batch.
    destruct (is_complete a) eqn:Ha.
    { cbn. repeat split. apply Hone. }
    destruct (is_positioning a && is_click b) eqn:Hpc.
    { apply andb_prop in Hpc as [Hp Hc].
      pose proof (Hposition a Hp) as Hna.
      destruct rest as [|c rest].
      - change (firstn 2 [a; b]) with [a; b].
        cbn. unfold count_clicks. cbn. rewrite Hp, Hc, Hna. cbn. repeat split. lia.
      - destruct (is_complete c) eqn:Hcc.
        + pose proof (Hcomplete c Hcc) as Hnc.
          change (firstn 3 (a :: b :: c :: rest)) with [a; b; c].
          cbn. unfold count_clicks. cbn. rewrite Hp, Hc, Hcc, Hna, Hnc. cbn.
          repeat split. lia.
        + change (firstn 2 (a :: b :: c :: rest)) with [a; b].
          cbn. unfold count_clicks. cbn. rewrite Hp, Hc, Hna. cbn. repeat split. lia. }
    destruct (is_click a && is_complete b) eqn:Hct.
    { apply andb_prop in Hct as [Hc Ht].
      pose proof (Hcomplete b Ht) as Hnb.
      change (firstn 2 (a :: b :: rest)) with [a; b].
      cbn. unfold count_clicks. cbn. rewrite Hc, Ht, Hnb. cbn.
      repeat split; [|lia]. rewrite !orb_true_r. reflexivity. }
    cbn. repeat split. apply Hone.
Qed.

(** ** Coordinate bands *)

Import Float.
Import Coordinates.

Lemma lit_0 : lit 0 = SpecFloat.S754_zero false.
Proof. reflexivity. Qed.

Lemma lit_1 : lit 1 = SpecFloat.S754_finite false 4503599627370496 (-52).
Proof. vm_compute. reflexivity. Qed.

Lemma lit_1000 : lit 1000 = SpecFloat.S754_finite false 8796093022208000 (-43).
Proof. vm_compute. reflexivity. Qed.

Lemma compare_positive (m1 m2 : positive) (e1 e2 : Z) :
  SpecFloat.SFcompare (SpecFloat.S754_finite false m1 e1)
    (SpecFloat.S754_finite false m2 e2)
  = Some match Z.compare e1 e2 with
         | Lt => Lt
         | Gt => Gt
         | Eq => Pos.compare_cont Eq m1 m2
         end.
Proof. reflexivity. Qed.

(** A float above 1000 lies in neither band. *)
Lemma above_1000_out (p : float) :
  ltb (lit 1000) p = true -> in_band p 1 = false /\ in_band p 1000 = false.
Proof.
  unfold in_band, ltb, leb, SpecFloat.SFltb, SpecFloat.SFleb.
  rewrite lit_0, lit_1, lit_1000.
  destruct p as [s|s| |s m e].
  - discriminate.
  - destruct s; [discriminate|]. intros _. split; reflexivity.
  - discriminate.
  - destruct s; [discriminate|]. rewrite !compare_positive.
    destruct (Z.compare_spec (-43) e) as [E|E|E].
    + subst e. rewrite Z.compare_refl.
      change (-43 ?= -52) with Gt.
      pose proof (Pos.compare_cont_antisym 8796093022208000 m Eq) as A.
      change (CompOpp Eq) with Eq in A. rewrite <- A.
      destruct (Pos.compare_cont Eq 8796093022208000 m); try discriminate.
      intros _. split; apply andb_false_intro2; reflexivity.
    + assert (E1 : (e ?= -52) = Gt) by (apply Z.compare_gt_iff; lia).
      assert (E2 : (e ?= -43) = Gt) by (apply Z.compare_gt_iff; lia).
      rewrite E1, E2. intros _. split; apply andb_false_intro2; reflexivity.
    + discriminate.
Qed.

Lemma above_band_out (v : Number) :
  above_band v = true -> normalized_band v = false.
Proof.
  destruct v as [n|x]; cbn [above_band normalized_band].
  - intros H. apply Z.ltb_lt in H. apply andb_false_intro2. apply Z.leb_gt. exact H.
  - intros H. apply above_1000_out. exact H.
Qed.

Lemma denormalize_some (screen_size viewport_size : Z * Z) (x y : Number) :
  or_size (fst viewport_size) (fst screen_size) <> 0 ->
  or_size (snd viewport_size) (snd screen_size) <> 0 ->
  denormalize screen_size viewport_size x y
  = (px ← denormalized x (or_size (fst viewport_size) (fst screen_size));
     py ← denormalized y (or_size (snd viewport_size) (snd screen_size));
     Some (px, py)).
Proof.
  intros Hw Hh. unfold denormalize.
  destruct viewport_size as [vw vh], screen_size as [sw sh].
  cbn [fst snd] in *.
  destruct (Z.eqb_spec (or_size vw sw) 0); [contradiction|].
  destruct (Z.eqb_spec (or_size vh sh) 0); [contradiction|].
  reflexivity.
Qed.

(** A number returned for an in-band coordinate is an integer; any other
    coordinate is returned as it is. *)
Lemma denormalized_above (v : Number) (extent : Z) :
  above_band v = true -> denormalized v extent = Some v.
Proof.
  intros H. unfold denormalized. rewrite (above_band_out v H). reflexivity.
Qed.

(** C4, as stated, fails for both functions. In [_to_pixels] the bands
    overlap: the ratio [1/1024] of a 1024 px axis is 1 px, but its
    pre-multiplied form [1000/1024] is again read as a ratio (1000 px); the
    normalized value 500 of a 500 px axis is 250 px, and 250 passed back is
    read as normalized again (125 px). Where the bands do not overlap the
    floating-point operations still round: the ratio [9/31] and its
    pre-multiplied form give different pixel values on a 1440 px axis.
    [denormalize] has no ratio band at all: [0.5] is 0 px while [500] is
    512 px of 1024. *)
Lemma coordinate_bands_overlap :
  let tiny := div (lit 1) (lit 1024) in
  let ratio := div (lit 9) (lit 31) in
  (_to_pixels (Real tiny) 1024 = Some (lit 1)
   /\ _to_pixels (Real (mul (lit 1000) tiny)) 1024 = Some (lit 1000))
  /\ (_to_pixels (Int 500) 500 = Some (lit 250)
      /\ _to_pixels (Int 250) 500 = Some (lit 125))
  /\ (in_band ratio 1 = true
      /\ in_band (mul (lit 1000) ratio) 1 = false
      /\ in_band (mul (lit 1000) ratio) 1000 = true
      /\ _to_pixels (Real (mul (lit 1000) ratio)) 1440 <> _to_pixels (Real ratio) 1440)
  /\ denormalize (0, 0) (1024, 768) (Real (div (lit 1) (lit 2))) (Int 0)
     = Some (Int 0, Int 0)
  /\ denormalize (0, 0) (1024, 768) (Int 500) (Int 0) = Some (Int 512, Int 0).
Proof.
  cbv zeta. repeat split; try (vm_compute; reflexivity).
  intros H. vm_compute in H. discriminate.
Qed.

(** C4, amended. [_to_pixels] reads a value in [0, 1] as a ratio
    ([val * size]), another value in [0, 1000] as normalized
    ([val / 1000 * size]) and any other value as pixels, in floating-point
    arithmetic. A ratio and its pre-multiplied form [1000 * r] give the
    same pixels when the latter lies in the normalized band outside the
    ratio band and dividing it by 1000 gives the ratio back, and always
    for the ratio 0; a pixel value above 1000 that [_to_pixels] returns is
    returned unchanged when passed again. [denormalize] has no ratio
    band: a coordinate in [0, 1000] is normalized and truncated to an
    integer, any other coordinate is returned as it is, so a result above
    1000 is returned unchanged when passed again. *)
Theorem coordinate_bands (size : Z) (s : float) (screen_size viewport_size : Z * Z)
    (v : float) (x y : Number) :
  of_int size = Some s ->
  (in_band v 1 = true -> _to_pixels (Real v) size = Some (mul v s))
  /\ (in_band v 1 = false -> in_band v 1000 = true ->
      _to_pixels (Real v) size = Some (mul (div v (lit 1000)) s))
  /\ (in_band v 1 = false -> in_band v 1000 = false ->
      _to_pixels (Real v) size = Some v)
  /\ (in_band v 1 = true ->
      let pre := mul (lit 1000) v in
      in_band pre 1 = false -> in_band pre 1000 = true ->
      div pre (lit 1000) = v ->
      _to_pixels (Real pre) size = _to_pixels (Real v) size)
  /\ _to_pixels (Real (mul (lit 1000) (lit 0))) size = _to_pixels (Real (lit 0)) size
  /\ (forall p, _to_pixels (Real v) size = Some p -> ltb (lit 1000) p = true ->
        _to_pixels (Real p) size = Some p)
  /\ (let width := or_size (fst viewport_size) (fst screen_size) in
      let height := or_size (snd viewport_size) (snd screen_size) in
      width <> 0 -> height <> 0 ->
      denormalize screen_size viewport_size x y
      = (px ← denormalized x width; py ← denormalized y height; Some (px, py))
      /\ (normalized_band x = true -> denormalized x width = Int <$> scaled x width)
      /\ (normalized_band x = false -> denormalized x width = Some x)
      /\ (forall px py,
            denormalize screen_size viewport_size x y = Some (px, py) ->
            above_band px = true -> above_band py = true ->
            denormalize screen_size viewport_size px py = Some (px, py))).
Proof.
  intros Hs.
  assert (B1 : in_band v 1 = true -> _to_pixels (Real v) size = Some (mul v s)).
  { intros H. unfold _to_pixels, times. cbn [to_float mbind option_bind].
    rewrite H, Hs. reflexivity. }
  assert (B2 : forall u, in_band u 1 = false -> in_band u 1000 = true ->
               _to_pixels (Real u) size = Some (mul (div u (lit 1000)) s)).
  { intros u H1 H2. unfold _to_pixels, times. cbn [to_float mbind option_bind].
    rewrite H1, H2, Hs. reflexivity. }
  assert (B3 : forall u, in_band u 1 = false -> in_band u 1000 = false ->
               _to_pixels (Real u) size = Some u).
  { intros u H1 H2. unfold _to_pixels. cbn [to_float mbind option_bind].
    rewrite H1, H2. reflexivity. }
  split; [exact B1|]. split; [apply B2|]. split; [apply B3|].
  split; [|split; [|split]].
  - intros Hv pre H1 H2 Hback.
    rewrite (B2 pre H1 H2), (B1 Hv), Hback. reflexivity.
  - reflexivity.
  - intros p _ Hp. destruct (above_1000_out p Hp) as [H1 H2]. apply B3; assumption.
  - intros width height Hw Hh.
    split; [apply denormalize_some; assumption|].
    split; [intros E; unfold denormalized; rewrite E; reflexivity|].
    split; [intros E; unfold denormalized; rewrite E; reflexivity|].
    intros px py _ Hx Hy. rewrite denormalize_some by assumption.
    fold width height.
    rewrite (denormalized_above px width Hx), (denormalized_above py height Hy).
    reflexivity.
Qed.

Lemma coordinate_bands_witness :
  let half := div (lit 1) (lit 2) in
  _to_pixels (Real half) 800 = Some (mul half (lit 800))
  /\ _to_pixels (Real (mul (lit 1000) half)) 800 = _to_pixels (Real half) 800.
Proof.
  intros half.
  destruct (coordinate_bands 800 (lit 800) (0, 0) (800, 600) half (Int 500) (Int 500))
    as (H1 & _ & _ & H4 & _); [reflexivity|].
  split; [apply H1; reflexivity|].
  apply H4; reflexivity.
Defined.

(** ** De-duplication of overlay input *)

Import Overlay.

Ltac fields :=
  cbn [handled on_overlay_input _seen_overlay_request_ids _last_overlay_text
       _last_overlay_ts snd fst] in *.

Lemma invoke_handled (t : string) (srv : Server) :
  on_overlay_input srv = true ->
  handled (invoke t srv) = handled srv ++ [t]
  /\ on_overlay_input (invoke t srv) = true.
Proof. intros H. unfold invoke. rewrite H. fields. split; reflexivity. Qed.

Lemma handler_kept (now : Q) (ev : OverlayInput) (srv : Server) :
  on_overlay_input srv = true ->
  on_overlay_input (handle_overlay_input now ev srv) = true.
Proof.
  intros H. unfold handle_overlay_input, by_request_id, by_text, invoke.
  repeat (case_match; fields); assumption.
Qed.

Lemma grows (l : list string) (t : string) :
  (length l <? length (l ++ [t]))%nat = true.
Proof. rewrite length_app. cbn. apply Nat.ltb_lt. lia. Qed.

(** The rule applied to an event that carries a request id. *)
Lemma by_request_id_rule (now : Q) (rid : string) (ev : OverlayInput) (srv : Server) :
  on_overlay_input srv = true ->
  request_id_of ev = Some rid ->
  invoked now ev srv
  = match _seen_overlay_request_ids srv !! rid with
    | Some ts => negb (kept now ts)
    | None => true
    end.
Proof.
  intros Hh Hr. unfold invoked, handle_overlay_input. rewrite Hr.
  unfold by_request_id.
  destruct (filter _ (_seen_overlay_request_ids srv) !! rid) as [ts|] eqn:E.
  - apply map_lookup_filter_Some in E as [E K]. rewrite E. fields.
    apply Is_true_true in K. rewrite K. cbn [negb]. apply Nat.ltb_irrefl.
  - unfold invoke. fields. rewrite Hh. fields. rewrite grows.
    destruct (_seen_overlay_request_ids srv !! rid) as [ts|] eqn:E'; [|reflexivity].
    destruct (kept now ts) eqn:K; [|reflexivity].
    exfalso.
    assert (filter (fun kv : string * Q => Is_true (kept now (snd kv)))
              (_seen_overlay_request_ids srv) !! rid = Some ts) as F.
    { apply map_lookup_filter_Some. split; [exact E'|]. fields. rewrite K. exact I. }
    congruence.
Qed.

(** The rule applied to an event that carries none. *)
Lemma by_text_rule (now : Q) (ev : OverlayInput) (srv : Server) :
  on_overlay_input srv = true ->
  request_id_of ev = None ->
  invoked now ev srv
  = negb (Py.truthy (Py.squeeze (text ev))
          && Py.eqb (Py.squeeze (text ev)) (_last_overlay_text srv)
          && negb (Qle_bool (6 # 5) (now - _last_overlay_ts srv)%Q)).
Proof.
  intros Hh Hr. unfold invoked, handle_overlay_input. rewrite Hr.
  unfold by_text.
  destruct (_ && _ && _); cbn [negb].
  - apply Nat.ltb_irrefl.
  - unfold invoke. fields. rewrite Hh. fields. apply grows.
Qed.

Lemma handled_step (now : Q) (ev : OverlayInput) (srv : Server) :
  on_overlay_input srv = true ->
  handled (handle_overlay_input now ev srv)
  = handled srv ++ (if invoked now ev srv then [text ev] else []).
Proof.
  intros Hh. unfold invoked, handle_overlay_input, by_request_id, by_text, invoke.
  repeat (case_match; fields);
    rewrite ?grows, ?Nat.ltb_irrefl in *; try discriminate; try congruence;
    rewrite ?app_nil_r; reflexivity.
Qed.

(** While no more than ten seconds have passed since a request id was
    recorded, the record stays and events carrying it are dropped. *)
Lemma recorded_id_blocks (rid : string) (t0 : Q) (events : list (Q * OverlayInput)) :
  forall srv,
    on_overlay_input srv = true ->
    _seen_overlay_request_ids srv !! rid = Some t0 ->
    (forall t e, In (t, e) events -> (t - t0 <= 10)%Q) ->
    count_invoked_for rid events srv = 0%nat.
Proof.
  induction events as [|[now ev] rest IH]; intros srv Hh Hs Hw; [reflexivity|].
  assert (K : kept now t0 = true).
  { unfold kept. apply Qle_bool_iff. apply (Hw now ev). left. reflexivity. }
  cbn [count_invoked_for].
  rewrite IH.
  - case_bool_decide as Hr; cbn [andb]; [|reflexivity].
    rewrite (by_request_id_rule now rid ev srv Hh Hr), Hs, K. reflexivity.
  - apply handler_kept. exact Hh.
  - unfold handle_overlay_input.
    assert (F : filter (fun kv : string * Q => Is_true (kept now (snd kv)))
                  (_seen_overlay_request_ids srv) !! rid = Some t0).
    { apply map_lookup_filter_Some. split; [exact Hs|]. fields. rewrite K. exact I. }
    destruct (request_id_of ev) as [r|].
    + unfold by_request_id.
      destruct (filter _ (_seen_overlay_request_ids srv) !! r) eqn:E; fields.
      * exact F.
      * unfold invoke. fields. rewrite Hh. fields.
        rewrite lookup_insert_ne; [exact F|]. intros ->. congruence.
    + unfold by_text, invoke. repeat (case_match; fields); exact Hs.
  - intros t e Hin. apply (Hw t e). right. exact Hin.
Qed.

(** C8, as stated, fails: two events without request id and with the same
    (empty) normalized text, half a second apart, both reach the handler. *)
Lemma overlay_input_blank_text_repeats :
  request_id_of blank = None
  /\ Py.squeeze (text blank) = EmptyString
  /\ handled (run [(0%Q, blank); ((1 # 2)%Q, blank)] fresh_server)
     = [EmptyString; EmptyString].
Proof. repeat split. Qed.

(** C8, amended. With a handler registered, every [overlay_input] event
    either is dropped or invokes the handler exactly once with its text.
    An event with a request id is dropped exactly when that id was
    recorded, by an event that was let through, at most 10 seconds
    earlier; so the event that records an id and all events carrying the
    same id within the next 10 seconds cause exactly one invocation. An
    event without request id is dropped exactly when its normalized text
    is not empty, equals the normalized text of the last event without
    request id that was let through, and arrives less than 1.2 seconds
    after it. *)
Theorem overlay_input_dedup (srv : Server) (now : Q) (ev : OverlayInput) :
  on_overlay_input srv = true ->
  handled (handle_overlay_input now ev srv)
  = handled srv ++ (if invoked now ev srv then [text ev] else [])
  /\ (forall rid,
        request_id_of ev = Some rid ->
        invoked now ev srv
        = match _seen_overlay_request_ids srv !! rid with
          | Some ts => negb (Qle_bool (now - ts)%Q 10%Q)
          | None => true
          end)
  /\ (request_id_of ev = None ->
      invoked now ev srv
      = negb (Py.truthy (Py.squeeze (text ev))
              && Py.eqb (Py.squeeze (text ev)) (_last_overlay_text srv)
              && negb (Qle_bool (6 # 5) (now - _last_overlay_ts srv)%Q)))
  /\ (forall rid later,
        request_id_of ev = Some rid ->
        invoked now ev srv = true ->
        (forall t e, In (t, e) later -> (t - now <= 10)%Q) ->
        count_invoked_for rid ((now, ev) :: later) srv = 1%nat).
Proof.
  intros Hh. split; [|split; [|split]].
  - apply handled_step. exact Hh.
  - intros rid Hr. apply by_request_id_rule; assumption.
  - apply by_text_rule. exact Hh.
  - intros rid later Hr Hi Hw. cbn [count_invoked_for].
    rewrite Hi. rewrite bool_decide_eq_true_2 by exact Hr. cbn [andb].
    rewrite (recorded_id_blocks rid now later); [reflexivity| | |exact Hw].
    + apply handler_kept. exact Hh.
    + unfold invoked, handle_overlay_input in *. rewrite Hr in *.
      unfold by_request_id in *.
      destruct (filter _ (_seen_overlay_request_ids srv) !! rid) eqn:E; fields.
      * rewrite Nat.ltb_irrefl in Hi. discriminate.
      * unfold invoke. fields. rewrite Hh. fields. apply lookup_insert_eq.
Qed.

Lemma overlay_input_dedup_witness :
  let ev := {| text := "open mail"; requestId := Some "r1"; request_id := None |} in
  count_invoked_for "r1" [(0%Q, ev); (5%Q, ev); (9%Q, ev)] fresh_server = 1%nat.
Proof.
  intros ev.
  apply (overlay_input_dedup fresh_server 0%Q ev); try reflexivity.
  intros t e [H|[H|[]]]; inversion H; subst; unfold Qle; cbn; lia.
Defined.

(** ** Facts about the string helpers *)

Lemma append_cons (c : ascii) (s t : string) :
  String c s +:+ t = String c (s +:+ t).
Proof. reflexivity. Qed.

Lemma append_nil_l (t : string) : EmptyString +:+ t = t.
Proof. reflexivity. Qed.

Ltac append_step := rewrite ?append_cons, ?append_nil_l; cbn.

Lemma append_nil_r (s : string) : s +:+ EmptyString = s.
Proof. induction s as [|c s IH]; append_step; [reflexivity|]. rewrite IH. reflexivity. Qed.

Lemma append_assoc (a b c : string) : (a +:+ b) +:+ c = a +:+ (b +:+ c).
Proof.
  induction a as [|x a IH]; rewrite ?append_cons, ?append_nil_l; [reflexivity|].
  rewrite IH. reflexivity.
Qed.

Lemma length_append (a b : string) :
  String.length (a +:+ b) = (String.length a + String.length b)%nat.
Proof. induction a as [|x a IH]; append_step; [reflexivity|]. rewrite IH. reflexivity. Qed.

Lemma nonblank_append (a b : string) :
  Py.nonblank (a +:+ b) = Py.nonblank a || Py.nonblank b.
Proof.
  induction a as [|x a IH]; append_step; [reflexivity|].
  rewrite IH. apply orb_assoc.
Qed.

Lemma solid_append (a b : string) :
  Py.solid (a +:+ b) = Py.solid a && Py.solid b.
Proof.
  induction a as [|x a IH]; append_step; [reflexivity|].
  rewrite IH. apply andb_assoc.
Qed.

Lemma word_nonblank (w : string) : Py.word w = true -> Py.nonblank w = true.
Proof.
  destruct w as [|c w]; cbn; [discriminate|].
  intros H. apply andb_prop in H as [H _]. rewrite H. reflexivity.
Qed.

Lemma truthy_append_r (a b : string) :
  Py.truthy b = true -> Py.truthy (a +:+ b) = true.
Proof. destruct a; append_step; intros; [assumption|reflexivity]. Qed.

(** Every element of [split_from cur s] is a word when [cur] has no
    blank. *)
Lemma split_from_words (s : string) :
  forall cur, Py.solid cur = true ->
    Forall (fun w => Py.word w = true) (Py.split_from cur s).
Proof.
  induction s as [|c s IH]; intros cur Hc; cbn.
  - destruct cur; [constructor|]. constructor; [|constructor].
    unfold Py.word. cbn [Py.truthy andb]. exact Hc.
  - destruct (Py.isspace c) eqn:E.
    + destruct cur.
      * apply IH. reflexivity.
      * constructor; [unfold Py.word; cbn [Py.truthy andb]; exact Hc|].
        apply IH. reflexivity.
    + apply IH. rewrite solid_append, Hc. cbn. rewrite E. reflexivity.
Qed.

Lemma split_from_nil (s : string) :
  forall cur, Py.split_from cur s = [] <-> cur = EmptyString /\ Py.nonblank s = false.
Proof.
  induction s as [|c s IH]; intros cur; cbn.
  - destruct cur; split; try tauto; try discriminate.
    intros [H _]. discriminate.
  - destruct (Py.isspace c) eqn:E; cbn.
    + destruct cur.
      * rewrite IH. tauto.
      * split; [discriminate|]. intros [H _]. discriminate.
    + rewrite IH. split; [|intros [_ H]; discriminate].
      intros [H _]. destruct cur; discriminate.
Qed.

Lemma join_truthy (sep w : string) (ws : list string) :
  Py.truthy w = true -> Py.truthy (Py.join sep (w :: ws)) = true.
Proof.
  intros H. unfold Py.join. cbn. destruct ws; [exact H|].
  destruct w; [discriminate|reflexivity].
Qed.

Lemma join_nonblank (sep w : string) (ws : list string) :
  Py.nonblank w = true -> Py.nonblank (Py.join sep (w :: ws)) = true.
Proof.
  intros H. unfold Py.join. cbn. destruct ws; [exact H|].
  rewrite nonblank_append, H. reflexivity.
Qed.

(** [" ".join(s.split())] is non-empty exactly when [s] has a character
    that is not blank, and then it has one itself. *)
Lemma squeeze_truthy (s : string) : Py.truthy (Py.squeeze s) = Py.nonblank s.
Proof.
  unfold Py.squeeze, Py.split.
  pose proof (split_from_words s EmptyString eq_refl) as Hw.
  pose proof (split_from_nil s EmptyString) as Hn.
  destruct (Py.split_from EmptyString s) as [|w ws].
  - cbn. symmetry. apply Hn. reflexivity.
  - inversion Hw as [|? ? Hw1 _]; subst.
    rewrite join_truthy by (apply andb_prop in Hw1 as [H _]; exact H).
    destruct (Py.nonblank s) eqn:E; [reflexivity|].
    assert (w :: ws = []) by (apply Hn; split; reflexivity).
    discriminate.
Qed.

Lemma squeeze_nonblank (s : string) : Py.nonblank (Py.squeeze s) = Py.nonblank s.
Proof.
  rewrite <- (squeeze_truthy s). unfold Py.squeeze, Py.split.
  pose proof (split_from_words s EmptyString eq_refl) as Hw.
  destruct (Py.split_from EmptyString s) as [|w ws]; [reflexivity|].
  inversion Hw as [|? ? Hw1 _]; subst.
  rewrite join_nonblank by (apply word_nonblank; exact Hw1).
  rewrite join_truthy by (apply andb_prop in Hw1 as [H _]; exact H).
  reflexivity.
Qed.

Import RouterText.

(** [_clean_text] returns the fallback or a text with a visible
    character. *)
Lemma clean_text_cases (value : option string) (fallback : string) (max_len : nat) :
  _clean_text value fallback max_len = fallback
  \/ Py.nonblank (_clean_text value fallback max_len) = true.
Proof.
  unfold _clean_text. destruct value as [v|]; [|left; reflexivity].
  destruct (Py.truthy (Py.squeeze v)) eqn:E; [|left; reflexivity].
  right. destruct (max_len <? _)%nat.
  - rewrite nonblank_append. cbn. apply orb_true_r.
  - rewrite squeeze_nonblank, <- squeeze_truthy. exact E.
Qed.

Lemma clean_text_nonblank (value : option string) (fallback : string) (max_len : nat) :
  Py.nonblank fallback = true ->
  Py.nonblank (_clean_text value fallback max_len) = true.
Proof.
  intros H. destruct (clean_text_cases value fallback max_len) as [E|E];
    [rewrite E; exact H|exact E].
Qed.

Lemma nonblank_truthy (s : string) : Py.nonblank s = true -> Py.truthy s = true.
Proof. destruct s; [discriminate|reflexivity]. Qed.

Lemma clean_text_truthy_nonblank (value : option string) (max_len : nat) :
  Py.truthy (_clean_text value EmptyString max_len) = true ->
  Py.nonblank (_clean_text value EmptyString max_len) = true.
Proof.
  intros H. destruct (clean_text_cases value EmptyString max_len) as [E|E];
    [rewrite E in H; discriminate|exact E].
Qed.


(** A slice from the start is a prefix; for an index that is not
    negative, the prefix of that length. *)
Lemma slice_take (k : Z) (s : string) :
  exists n, Py.slice_to k s = Py.take n s /\ (0 <= k -> n = Z.to_nat k).
Proof.
  unfold Py.slice_to. eexists. split; [reflexivity|].
  intros H. destruct (Z.ltb_spec k 0); [lia|reflexivity].
Qed.

Lemma length_take (n : nat) (s : string) :
  (String.length (Py.take n s) <= n)%nat.
Proof.
  unfold Py.take. revert s. induction n as [|n IH]; intros [|c s]; cbn; try lia.
  specialize (IH s). lia.
Qed.

(** [_clean_text] is bounded by [max_len] or by the fallback. *)
Lemma clean_text_bounded (value : option string) (fallback : string) (max_len : nat) :
  (3 <= max_len)%nat ->
  (String.length fallback <= max_len)%nat ->
  (String.length (_clean_text value fallback max_len) <= max_len)%nat.
Proof.
  intros H3 Hf. unfold _clean_text. destruct value as [v|]; [|exact Hf].
  destruct (slice_take (Z.of_nat max_len - 3) (Py.squeeze v)) as (n & -> & Hn).
  destruct (Py.truthy _); [|exact Hf].
  destruct (Nat.ltb_spec max_len (String.length (Py.squeeze v))); [|assumption].
  rewrite length_append. pose proof (length_take n (Py.squeeze v)).
  cbn. lia.
Qed.

(** ** The router session *)

Import Router.

Ltac session_fields :=
  cbn [history shot chain_steps seen_step_signatures latest_screen_context
       trace fst snd] in *.

Lemma append_history_frame (r t src : string) (s : Session) :
  trace (_append_rapid_history r t src s) = trace s
  /\ chain_steps (_append_rapid_history r t src s) = chain_steps s
  /\ seen_step_signatures (_append_rapid_history r t src s) = seen_step_signatures s.
Proof. unfold _append_rapid_history. destruct (Py.truthy _); repeat split. Qed.

Ltac frame_once :=
  match goal with
  | |- context [trace (_append_rapid_history ?r ?t ?src ?s)] =>
      rewrite (proj1 (append_history_frame r t src s))
  | |- context [chain_steps (_append_rapid_history ?r ?t ?src ?s)] =>
      rewrite (proj1 (proj2 (append_history_frame r t src s)))
  | |- context [seen_step_signatures (_append_rapid_history ?r ?t ?src ?s)] =>
      rewrite (proj2 (proj2 (append_history_frame r t src s)))
  | _ =>
      progress (unfold router_response, direct_response, log_event,
                  take_screenshot, append_step, set_seen, set_screen_context)
  | _ => progress session_fields
  end.

Ltac frame := repeat frame_once.

(** What [record_step] does with a step record. *)
Lemma record_step_spec (failed_name : string) (st : ChainStep) (s : Session) :
  let '(s', c) := record_step failed_name st s in
  chain_steps s' = chain_steps s ++ [st]
  /\ seen_step_signatures s' = seen_step_signatures s
  /\ (if step_success st
      then c = Continue /\ trace s' = trace s
      else c = Stop Finished
           /\ trace s'
              = trace s
                ++ [DirectResponse "rapid_response"
                      (_clean_text
                         (Some ("Stopping chained execution because "
                                +:+ failed_name +:+ " failed: " +:+ step_message st))
                         "Task failed." 420)]).
Proof.
  unfold record_step. destruct (step_success st); cbn [negb]; frame; repeat split.
Qed.

(** The tools run for the CLOVIS model add its direct responses to the
    trace and leave the router's locals alone. *)
Lemma run_clovis_calls_spec (calls : list ClovisCall) :
  forall summary s,
    exists said,
      trace (snd (run_clovis_calls calls summary s))
      = trace s ++ List.map (DirectResponse "clovis") said
      /\ chain_steps (snd (run_clovis_calls calls summary s)) = chain_steps s
      /\ seen_step_signatures (snd (run_clovis_calls calls summary s))
         = seen_step_signatures s.
Proof.
  induction calls as [|[text| |msg] rest IH]; intros summary s; cbn [run_clovis_calls].
  - exists []. cbn. rewrite app_nil_r. repeat split.
  - destruct (IH (if Py.truthy text then Some text else summary)
                (direct_response "clovis" text s)) as (said & H1 & H2 & H3).
    exists (text :: said). rewrite H1, H2, H3. frame.
    rewrite <- app_assoc. repeat split.
  - apply IH.
  - exists []. cbn. rewrite app_nil_r. repeat split.
Qed.

Lemma generate_clovis_response_spec (e : StepEnv) (s : Session) :
  exists said,
    trace (snd (generate_clovis_response e s))
    = trace s ++ List.map (DirectResponse "clovis") said
    /\ chain_steps (snd (generate_clovis_response e s)) = chain_steps s
    /\ seen_step_signatures (snd (generate_clovis_response e s))
       = seen_step_signatures s.
Proof.
  unfold generate_clovis_response.
  destruct (clovis_generate_content e) as [answer|msg|].
  2,3: exists []; cbn; rewrite app_nil_r; repeat split.
  destruct (function_calls answer) as [|c calls].
  - exists []. cbn. rewrite app_nil_r. repeat split.
  - destruct (run_clovis_calls_spec (c :: calls) None s) as (said & H).
    exists said.
    destruct (run_clovis_calls (c :: calls) None s) as [[summary|msg|] s'];
      exact H.
Qed.

(** A delegated agent leaves the router's locals alone, and nothing is
    added to the trace but what the CLOVIS model says in a step of the
    clovis agent; when the step reports success, its message has a visible
    character. *)
Lemma run_routed_agent_step_spec (e : StepEnv) (d : RoutingDict) (s : Session) :
  exists said,
    let '(o, s') := _run_routed_agent_step e d s in
    trace s' = trace s ++ List.map (DirectResponse "clovis") said
    /\ (said <> [] -> agent d = Some "clovis")
    /\ chain_steps s' = chain_steps s
    /\ seen_step_signatures s' = seen_step_signatures s
    /\ (forall st, o = Some st -> step_success st = true -> usable_step st).
Proof.
  unfold _run_routed_agent_step, usable_step.
  repeat case_decide.
  - destruct (generate_clovis_response_spec e (take_screenshot s))
      as (said & H1 & H2 & H3).
    exists said.
    destruct (generate_clovis_response e (take_screenshot s)) as [[summary|msg|] s'];
      cbn [snd] in H1, H2, H3; revert H1 H2 H3; frame; intros H1 H2 H3;
      (split; [exact H1|]); (split; [intros _; assumption|]);
      (split; [exact H2|]); (split; [exact H3|]);
      intros st [= <-]; cbn [step_success step_message]; try discriminate.
    intros _. split; [reflexivity|]. apply clean_text_nonblank. reflexivity.
  - exists []. rewrite app_nil_r.
    destruct (browser_execute e) as [r|msg|]; frame;
      (split; [reflexivity|]); (split; [congruence|]);
      (split; [reflexivity|]); (split; [reflexivity|]);
      intros st [= <-]; cbn [step_success step_message success result error]; try discriminate; intros Hs; (split; [exact Hs|]).
    unfold _browser_completion_message. rewrite Hs. cbn [negb].
    destruct (_extract_browser_message (result r)) as [m|] eqn:E; [|reflexivity].
    destruct (Py.truthy m) eqn:T; [|reflexivity].
    unfold _extract_browser_message in E. destruct (result r) as [|h|? ? ? ?].
    + discriminate.
    + destruct (Py.truthy (_clean_text (Some h) "" 1400)) eqn:T'; [|discriminate].
      injection E as <-. apply clean_text_truthy_nonblank. exact T'.
    + destruct (List.filter _ _); [discriminate|]. injection E as <-.
      apply clean_text_truthy_nonblank. exact T.
  - exists []. rewrite app_nil_r.
    destruct (cli_execute e) as [r|msg|]; frame;
      (split; [reflexivity|]); (split; [congruence|]);
      (split; [reflexivity|]); (split; [reflexivity|]);
      intros st [= <-]; cbn [step_success step_message success result error]; try discriminate; intros Hs; (split; [exact Hs|]).
    unfold _cli_completion_message. rewrite Hs. cbn [negb].
    destruct (Py.truthy (_clean_text (result r) "" 1400)) eqn:T; [|reflexivity].
    apply clean_text_truthy_nonblank. exact T.
  - exists []. rewrite app_nil_r.
    destruct (vision_execute e) as [r|msg|]; frame;
      (split; [reflexivity|]); (split; [congruence|]);
      (split; [reflexivity|]); (split; [reflexivity|]);
      intros st [= <-]; cbn [step_success step_message success result error]; try discriminate; intros Hs; (split; [exact Hs|]).
    unfold _vision_completion_message. rewrite Hs. cbn [negb].
    apply clean_text_nonblank. reflexivity.
  - exists []. rewrite app_nil_r. frame.
    (split; [reflexivity|]); (split; [congruence|]);
      (split; [reflexivity|]); (split; [reflexivity|]).
    intros st [= <-]. cbn [step_success]. discriminate.
Qed.

Lemma screen_context_message_nonblank (c : ScreenContext) :
  Py.nonblank (_screen_context_message c) = true.
Proof.
  unfold _screen_context_message.
  assert (H : Py.nonblank (_clean_text (sc_summary c) "Screen context captured." 260) = true)
    by (apply clean_text_nonblank; reflexivity).
  destruct (_ ++ _ ++ _); [exact H|].
  rewrite nonblank_append, H. reflexivity.
Qed.

Ltac norm_trace :=
  cbn [events_of app List.map]; rewrite <- ?app_assoc, ?app_nil_r; cbn [app List.map].

Lemma clovis_signature (d : RoutingDict) :
  agent d = Some "clovis" -> is_clovis (_routing_signature d) = true.
Proof. intros H. unfold _routing_signature. rewrite H. reflexivity. Qed.

(** One iteration of the router loop appends at most one delegated step,
    with the direct responses the CLOVIS model made inside it, and then at
    most one direct response of the router. It continues only after a
    usable step was recorded, it finishes exactly when the router
    responded, and an agent runs only after its signature counter was
    raised to less than 3. *)
Lemma router_step_shape (e : StepEnv) (user_prompt : string) (s : Session) :
  exists ran resp,
    let '(s', c) := router_step e user_prompt s in
    trace s' = trace s ++ events_of ran resp
    /\ (c = Continue ->
        exists sig said st,
          ran = Some (sig, said) /\ resp = None
          /\ chain_steps s' = chain_steps s ++ [st] /\ usable_step st)
    /\ (c = Stop Finished -> resp <> None)
    /\ (c = Stop Escaped -> resp = None)
    /\ (forall sig said, ran = Some (sig, said) ->
          seen_step_signatures s'
          = <[sig := (default 0 (seen_step_signatures s !! sig) + 1)%nat]>
              (seen_step_signatures s)
          /\ (default 0 (seen_step_signatures s !! sig) + 1 < 3)%nat
          /\ (said <> [] -> is_clovis sig = true))
    /\ (length (chain_steps s') <= S (length (chain_steps s)))%nat.
Proof.
  unfold router_step.
  destruct (route_request e) as [rr|msg|].
  2,3: exists None, None; cbn; rewrite app_nil_r;
       repeat split; try discriminate; try congruence; lia.
  set (d := match rr with Dict d => d | NotDict => invalid_shape end).
  destruct (decide (agent d = Some "direct")) as [Hd|Hd].
  { exists None, (Some (direct_text_of user_prompt d s)). frame.
    repeat split; try discriminate; try congruence; lia. }
  set (sig := _routing_signature d).
  set (count := (default 0 (seen_step_signatures s !! sig) + 1)%nat).
  destruct (Nat.leb_spec _REPEATED_STEP_LIMIT count) as [Hc|Hc].
  { exists None, (Some repeated_msg). frame.
    repeat split; try discriminate; try congruence; lia. }
  unfold _REPEATED_STEP_LIMIT in Hc.
  assert (Hseen : forall said0 : list string,
            (said0 <> [] -> agent d = Some "clovis") ->
            forall g said, Some (sig, said0) = Some (g, said) ->
            <[sig := count]> (seen_step_signatures s)
            = <[g := (default 0 (seen_step_signatures s !! g) + 1)%nat]>
                (seen_step_signatures s)
            /\ (default 0 (seen_step_signatures s !! g) + 1 < 3)%nat
            /\ (said <> [] -> is_clovis g = true)).
  { intros said0 Hsaid g said [= <- <-]. split; [reflexivity|]. split; [exact Hc|].
    intros Hne. apply clovis_signature. apply Hsaid. exact Hne. }
  assert (Hnil : @nil string <> @nil string -> agent d = Some "clovis") by congruence.
  destruct (decide (agent d = Some "screen_context")) as [Hs|Hs].
  - destruct (generate_screen_context e) as [c|msg|].
    + exists (Some (sig, @nil string)), None.
      match goal with
      | |- context [record_step ?f ?st ?s0] =>
          pose proof (record_step_spec f st s0) as R;
          destruct (record_step f st s0) as [s' c']
      end.
      cbn [step_success] in R. destruct R as (R1 & R2 & -> & R3).
      revert R1 R2 R3. frame. intros R1 R2 R3.
      rewrite R1, R2, R3. norm_trace.
      split; [reflexivity|]. split.
      { intros _. eexists sig, (@nil string), _. repeat split.
        cbn [step_message]. apply screen_context_message_nonblank. }
      split; [discriminate|]. split; [reflexivity|]. split; [exact (Hseen (@nil string) Hnil)|].
      rewrite length_app. cbn. lia.
    + eexists (Some (sig, @nil string)), (Some _).
      match goal with
      | |- context [record_step ?f ?st ?s0] =>
          pose proof (record_step_spec f st s0) as R;
          destruct (record_step f st s0) as [s' c']
      end.
      cbn [step_success] in R. destruct R as (R1 & R2 & -> & R3).
      revert R1 R2 R3. frame. intros R1 R2 R3.
      rewrite R1, R2, R3. norm_trace.
      split; [reflexivity|]. split; [discriminate|]. split; [discriminate|].
      split; [discriminate|]. split; [exact (Hseen (@nil string) Hnil)|].
      rewrite length_app. cbn. lia.
    + exists (Some (sig, @nil string)), None. frame. norm_trace.
      split; [reflexivity|]. split; [discriminate|]. split; [discriminate|].
      split; [reflexivity|]. split; [exact (Hseen (@nil string) Hnil)|]. lia.
  - match goal with
    | |- context [_run_routed_agent_step ?e0 ?d0 ?s0] =>
        destruct (run_routed_agent_step_spec e0 d0 s0) as [said A];
        destruct (_run_routed_agent_step e0 d0 s0) as [[st|] s1]
    end; destruct A as (A1 & Asaid & A2 & A3 & A4); revert A1 A2 A3; frame;
      intros A1 A2 A3.
    + pose proof (record_step_spec (step_agent st) st s1) as R.
      destruct (record_step (step_agent st) st s1) as [s' c'].
      destruct R as (R1 & R2 & R3).
      destruct (step_success st) eqn:Hst.
      * exists (Some (sig, said)), None. destruct R3 as [-> R3].
        rewrite R1, R2, R3, A1, A2, A3. norm_trace.
        split; [reflexivity|]. split.
        { intros _. exists sig, said, st. repeat split; apply (A4 st eq_refl Hst). }
        split; [discriminate|]. split; [reflexivity|]. split; [exact (Hseen said Asaid)|].
        rewrite length_app. cbn. lia.
      * eexists (Some (sig, said)), (Some _). destruct R3 as [-> R3].
        rewrite R1, R2, R3, A1, A2, A3. norm_trace.
        split; [reflexivity|]. split; [discriminate|]. split; [discriminate|].
        split; [discriminate|]. split; [exact (Hseen said Asaid)|].
        rewrite length_app. cbn. lia.
    + exists (Some (sig, said)), None. rewrite A1, A2, A3. norm_trace.
      split; [reflexivity|]. split; [discriminate|]. split; [discriminate|].
      split; [reflexivity|]. split; [exact (Hseen said Asaid)|]. lia.
Qed.

Lemma count_runs_app (sig : string * string) (a b : list Event) :
  count_runs sig (a ++ b) = (count_runs sig a + count_runs sig b)%nat.
Proof. unfold count_runs. rewrite List.filter_app, length_app. reflexivity. Qed.

Lemma count_direct_app (a b : list Event) :
  count_direct (a ++ b) = (count_direct a + count_direct b)%nat.
Proof. unfold count_direct. rewrite List.filter_app, length_app. reflexivity. Qed.

Lemma count_terminal_app (a b : list Event) :
  count_terminal (a ++ b) = (count_terminal a + count_terminal b)%nat.
Proof. unfold count_terminal. rewrite List.filter_app, length_app. reflexivity. Qed.

(** Before the router responds, the trace holds no response of its. *)
Lemma count_terminal_delegated (t : list Event) :
  forall b, delegated b t = true -> count_terminal t = 0%nat.
Proof.
  induction t as [|[source text|g] t IH]; intros b; cbn [delegated]; [reflexivity| |].
  - intros H. apply andb_prop in H as [H Ht]. apply andb_prop in H as [_ Hs].
    unfold Py.eqb in Hs. apply String.eqb_eq in Hs. subst source.
    unfold count_terminal. cbn. apply (IH b Ht).
  - intros H. unfold count_terminal. cbn. apply (IH _ H).
Qed.

Lemma delegated_app_run (a : list Event) (g : string * string) (rest : list Event) :
  forall b,
    delegated b (a ++ StepRun g :: rest)
    = delegated b a && delegated (is_clovis g) rest.
Proof.
  induction a as [|[source text|h] a IH]; intros b; cbn [app delegated].
  - reflexivity.
  - rewrite IH. rewrite !andb_assoc. reflexivity.
  - apply IH.
Qed.

Lemma delegated_said (said : list string) (b : bool) :
  (said <> [] -> b = true) ->
  delegated b (List.map (DirectResponse "clovis") said) = true.
Proof.
  destruct said as [|t said]; [reflexivity|].
  intros H. rewrite (H ltac:(discriminate)).
  generalize (t :: said). clear. intros l.
  induction l as [|x l IH]; [reflexivity|]. cbn. exact IH.
Qed.

(** The events of an iteration in which the router does not respond keep
    the trace free of its responses. *)
Lemma delegated_events (t : list Event)
    (ran : option (string * string * list string)) :
  delegated false t = true ->
  (forall sig said, ran = Some (sig, said) -> said <> [] -> is_clovis sig = true) ->
  delegated false (t ++ events_of ran None) = true.
Proof.
  intros Ht Hran. unfold events_of. rewrite app_nil_r.
  destruct ran as [[g said]|]; [|rewrite app_nil_r; exact Ht].
  rewrite delegated_app_run, Ht. cbn [andb].
  apply delegated_said. apply (Hran g said eq_refl).
Qed.

Lemma count_runs_said (sig : string * string) (said : list string) :
  count_runs sig (List.map (DirectResponse "clovis") said) = 0%nat.
Proof. induction said as [|t said IH]; [reflexivity|exact IH]. Qed.

Lemma count_runs_events (sig : string * string)
    (ran : option (string * string * list string)) (resp : option string) :
  count_runs sig (events_of ran resp)
  = if bool_decide (fst <$> ran = Some sig) then 1%nat else 0%nat.
Proof.
  unfold events_of. rewrite count_runs_app.
  replace (count_runs sig match resp with
                         | Some t => [DirectResponse "rapid_response" t]
                         | None => []
                         end) with 0%nat by (destruct resp; reflexivity).
  destruct ran as [[g said]|]; cbn [fmap option_fmap option_map fst].
  - change (StepRun g :: List.map (DirectResponse "clovis") said)
      with ([StepRun g] ++ List.map (DirectResponse "clovis") said).
    rewrite count_runs_app, count_runs_said. unfold count_runs. cbn.
    repeat case_bool_decide; simplify_eq; reflexivity.
  - rewrite bool_decide_eq_false_2 by discriminate. reflexivity.
Qed.

(** One iteration keeps a running session running, or ends it. *)
Lemma router_step_running (e : StepEnv) (user_prompt : string) (idx : nat)
    (s : Session) :
  running idx s ->
  let '(s', c) := router_step e user_prompt s in
  match c with
  | Continue => running (S idx) s'
  | Stop Finished => ends_with_response (trace s')
  | Stop Escaped => delegated false (trace s') = true
  end
  /\ (forall sig, count_runs sig (trace s') <= 2)%nat
  /\ (length (chain_steps s') <= S idx)%nat.
Proof.
  intros (Ht & Hn & Hl & Hu).
  destruct (router_step_shape e user_prompt s) as (ran & resp & H).
  destruct (router_step e user_prompt s) as [s' c].
  destruct H as (Htr & Hcont & Hfin & Hesc & Hseen & Hlen).
  assert (Hcount : forall sig, (count_runs sig (trace s') <= 2)%nat
            /\ (ran <> None ->
                count_runs sig (trace s')
                = default 0%nat (seen_step_signatures s' !! sig))).
  { intros sig. rewrite Htr, count_runs_app, count_runs_events.
    destruct (Hn sig) as [Hn1 Hn2].
    destruct ran as [[g said]|]; cbn [fmap option_fmap option_map fst].
    - destruct (Hseen g said eq_refl) as (Hs1 & Hs2 & _). rewrite Hs1.
      case_bool_decide as Hg.
      + injection Hg as ->. rewrite lookup_insert_eq. cbn [default].
        destruct (Hn sig) as [Hn3 _]. rewrite <- Hn3 in Hs2 |- *. split; [lia|].
        intros _. reflexivity.
      + rewrite lookup_insert_ne by congruence. split; [lia|]. intros _. lia.
    - rewrite bool_decide_eq_false_2 by discriminate. split; [lia|]. congruence. }
  assert (Hdel : delegated false (trace s ++ events_of ran None) = true).
  { apply delegated_events; [exact Ht|].
    intros g said E. apply (Hseen g said E). }
  split; [|split; [intros sig; apply Hcount|lia]].
  destruct c as [|[|]].
  - destruct (Hcont eq_refl) as (g & said & st & -> & -> & Hcs & Hst).
    repeat split.
    + rewrite Htr. exact Hdel.
    + apply Hcount. discriminate.
    + apply Hcount.
    + rewrite Hcs, length_app. cbn. lia.
    + rewrite Hcs. apply Forall_app. split; [exact Hu|]. constructor; [exact Hst|constructor].
  - specialize (Hfin eq_refl). destruct resp as [t|]; [|congruence].
    exists (trace s ++ events_of ran None), t.
    split; [|exact Hdel].
    rewrite Htr. unfold events_of. rewrite app_nil_r, app_assoc. reflexivity.
  - rewrite (Hesc eq_refl) in Htr. rewrite Htr. exact Hdel.
Qed.

Lemma ends_with_response_count (t : list Event) :
  ends_with_response t -> count_terminal t = 1%nat.
Proof.
  intros (body & text & -> & H).
  rewrite count_terminal_app, (count_terminal_delegated body false H). reflexivity.
Qed.

(** The loop from a running session: it ends with the router's one direct
    response at the end of the trace, or escapes without any; no signature
    ran more than twice and at most [idx + n] steps are recorded. *)
Lemma router_loop_outcome (env : nat -> StepEnv) (user_prompt : string) (n : nat) :
  forall idx s,
    running idx s ->
    let '(s', x) := router_loop env user_prompt n idx s in
    match x with
    | Finished => ends_with_response (trace s')
    | Escaped => delegated false (trace s') = true
    end
    /\ (forall sig, count_runs sig (trace s') <= 2)%nat
    /\ (length (chain_steps s') <= idx + n)%nat.
Proof.
  induction n as [|n IH]; intros idx s Hr.
  - cbn [router_loop]. frame. destruct Hr as (Ht & Hn & Hl & Hu).
    split; [|split].
    + exists (trace s), max_step_msg. split; [reflexivity|exact Ht].
    + intros sig. rewrite count_runs_app. destruct (Hn sig). cbn. lia.
    + lia.
  - cbn [router_loop].
    pose proof (router_step_running (env idx) user_prompt idx s Hr) as H.
    destruct (router_step (env idx) user_prompt s) as [s1 [|x]].
    + destruct H as (Hr1 & _ & _).
      specialize (IH (S idx) s1 Hr1).
      destruct (router_loop env user_prompt n (S idx) s1) as [s' x].
      destruct IH as (I1 & I2 & I3). repeat split; try assumption. lia.
    + destruct H as (H1 & H2 & H3). destruct x; repeat split; try assumption; lia.
Qed.

Lemma open_session_running (hist : list HistoryEntry) (slot : Screenshot.Slot)
    (user_prompt : string) :
  running 0 (open_session hist slot user_prompt).
Proof.
  unfold open_session, running. frame.
  split; [reflexivity|]. split; [|split; [cbn; lia|constructor]].
  intros sig. rewrite lookup_empty. cbn. split; [reflexivity|lia].
Qed.

(** C1, as stated, fails: when the delegated agent is cancelled, the
    cancellation leaves [call_gemini] and the session has emitted no
    direct response. And the router's response need not be the only
    direct response of a session: the CLOVIS model calls [direct_response]
    as a tool inside a step of the clovis agent, and a delegated step is
    executed after it. *)
Lemma call_gemini_cancelled_session :
  (let '(s, x) :=
     call_gemini (fun _ => cancelled_env) [] empty_slot "clone this repo" in
   x = Escaped
   /\ count_direct (trace s) = 0%nat
   /\ trace s = [StepRun ("cua_cli", "clone repo")])
  /\ (let '(s, x) :=
        call_gemini speaking_env [] empty_slot "where is the save button" in
      x = Finished
      /\ count_direct (trace s) = 2%nat
      /\ trace s
         = [StepRun ("clovis", "where is the save button");
            DirectResponse "clovis" "The Save button is in the toolbar.";
            StepRun ("cua_cli", "open the editor");
            DirectResponse "rapid_response" "Done."]).
Proof. vm_compute. repeat split. Qed.

(** C1, amended. A session that returns ends with a direct response of
    the router, which is the router's only one and the last thing the
    session did; a session left by a cancellation or an exception of the
    router call has none. The only other direct responses of a session
    are those the CLOVIS model calls as a tool during a step of the clovis
    agent (source [clovis]); the loop goes on after them. In both cases at
    most [_MAX_ROUTER_CHAIN_STEPS] steps are recorded. *)
Theorem call_gemini_terminal_response (env : nat -> StepEnv)
    (hist : list HistoryEntry) (slot : Screenshot.Slot) (user_prompt : string) :
  let '(s, x) := call_gemini env hist slot user_prompt in
  match x with
  | Finished =>
      (exists body text,
          trace s = body ++ [DirectResponse "rapid_response" text]
          /\ delegated false body = true)
      /\ count_terminal (trace s) = 1%nat
  | Escaped =>
      delegated false (trace s) = true /\ count_terminal (trace s) = 0%nat
  end
  /\ (length (chain_steps s) <= _MAX_ROUTER_CHAIN_STEPS)%nat.
Proof.
  unfold call_gemini.
  pose proof (router_loop_outcome env user_prompt _MAX_ROUTER_CHAIN_STEPS 0 _
                (open_session_running hist slot user_prompt)) as H.
  destruct (router_loop _ _ _ _ _) as [s x].
  destruct H as (H1 & _ & H3). split; [|exact H3].
  destruct x.
  - split; [exact H1|apply ends_with_response_count; exact H1].
  - split; [exact H1|apply (count_terminal_delegated _ false); exact H1].
Qed.

(** C2. In every session each step signature is run at most twice. The
    counter of the signature is raised before anything runs; when it
    reaches [_REPEATED_STEP_LIMIT] the iteration ends the session with the
    fixed repeat-loop response and runs nothing, otherwise the run of that
    signature is the next thing that happens. *)
Theorem repeated_signature_limit :
  (forall env hist slot user_prompt sig,
      (count_runs sig (trace (fst (call_gemini env hist slot user_prompt))) <= 2)%nat)
  /\ (forall e user_prompt s d,
        route_request e = Returned (Dict d) ->
        agent d <> Some "direct" ->
        let sig := _routing_signature d in
        let count := (default 0 (seen_step_signatures s !! sig) + 1)%nat in
        let '(s', c) := router_step e user_prompt s in
        seen_step_signatures s' !! sig = Some count
        /\ ((_REPEATED_STEP_LIMIT <= count)%nat ->
            c = Stop Finished
            /\ trace s' = trace s ++ [DirectResponse "rapid_response" repeated_msg]
            /\ chain_steps s' = chain_steps s)
        /\ ((count < _REPEATED_STEP_LIMIT)%nat ->
            exists rest, trace s' = trace s ++ StepRun sig :: rest)).
Proof.
  split.
  - intros env hist slot user_prompt sig. unfold call_gemini.
    pose proof (router_loop_outcome env user_prompt _MAX_ROUTER_CHAIN_STEPS 0 _
                  (open_session_running hist slot user_prompt)) as H.
    destruct (router_loop _ _ _ _ _) as [s x]. cbn [fst]. apply H.
  - intros e user_prompt s d Hr Hd sig count. unfold router_step. rewrite Hr.
    destruct (decide (agent d = Some "direct")) as [|_]; [contradiction|].
    fold sig. fold count.
    destruct (Nat.leb_spec _REPEATED_STEP_LIMIT count) as [Hc|Hc].
    { frame. split; [apply lookup_insert_eq|]. split; [|lia].
      intros _. repeat split. }
    destruct (decide (agent d = Some "screen_context")) as [Hs|Hs].
    + destruct (generate_screen_context e) as [c|msg|].
      1,2: match goal with
           | |- context [record_step ?f ?st ?s0] =>
               pose proof (record_step_spec f st s0) as R;
               destruct (record_step f st s0) as [s' c']
           end;
           destruct R as (R1 & R2 & R3); revert R1 R2 R3; frame; intros R1 R2 R3;
           rewrite R2; (split; [apply lookup_insert_eq|]); (split; [lia|]);
           intros _; cbn [step_success] in R3; destruct R3 as [_ R3]; rewrite R3;
           rewrite <- ?app_assoc; eexists; reflexivity.
      frame. split; [apply lookup_insert_eq|]. split; [lia|].
      intros _. exists []. reflexivity.
    + match goal with
      | |- context [_run_routed_agent_step ?e0 ?d0 ?s0] =>
          destruct (run_routed_agent_step_spec e0 d0 s0) as [said A];
          destruct (_run_routed_agent_step e0 d0 s0) as [[st|] s1]
      end; destruct A as (A1 & _ & A2 & A3 & _); revert A1 A2 A3; frame;
        intros A1 A2 A3.
      * pose proof (record_step_spec (step_agent st) st s1) as R.
        destruct (record_step (step_agent st) st s1) as [s' c'].
        destruct R as (R1 & R2 & R3). rewrite R2, A3.
        split; [apply lookup_insert_eq|]. split; [lia|]. intros _.
        destruct (step_success st); destruct R3 as [_ R3]; rewrite R3, A1;
          rewrite <- ?app_assoc; eexists; reflexivity.
      * rewrite A3, A1. split; [apply lookup_insert_eq|]. split; [lia|].
        intros _. rewrite <- app_assoc. eexists. reflexivity.
Qed.

Lemma repeated_signature_limit_witness :
  let s :=
    {| history := []; shot := empty_slot; chain_steps := [];
       seen_step_signatures := {[ ("cua_cli", "clone repo") := 2%nat ]};
       latest_screen_context := None;
       trace := [StepRun ("cua_cli", "clone repo"); StepRun ("cua_cli", "clone repo")] |} in
  let '(s', c) := router_step clone_env "clone this repo" s in
  c = Stop Finished
  /\ trace s' = trace s ++ [DirectResponse "rapid_response" repeated_msg]
  /\ chain_steps s' = chain_steps s.
Proof.
  intros s.
  pose proof (proj2 repeated_signature_limit clone_env "clone this repo" s clone_route
                eq_refl) as H.
  assert (Hd : agent clone_route <> Some "direct") by (vm_compute; discriminate).
  specialize (H Hd). cbv zeta in H.
  destruct (router_step clone_env "clone this repo" s) as [s' c].
  destruct H as (_ & H & _). apply H. vm_compute. lia.
Defined.

(** ** Sanitization of the direct response *)






(** *** [_clean_text] is idempotent *)

Lemma split_from_solid (w : string) :
  Py.solid w = true ->
  forall cur rest, Py.split_from cur (w +:+ rest) = Py.split_from (cur +:+ w) rest.
Proof.
  induction w as [|c w IH]; intros Hs cur rest.
  - rewrite append_nil_l, append_nil_r. reflexivity.
  - cbn in Hs. apply andb_prop in Hs as [Hc Hw].
    rewrite append_cons. cbn [Py.split_from].
    destruct (Py.isspace c); [discriminate|].
    rewrite (IH Hw). rewrite append_assoc. reflexivity.
Qed.

Lemma split_from_end (cur : string) :
  Py.truthy cur = true -> Py.split_from cur EmptyString = [cur].
Proof. destruct cur; [discriminate|reflexivity]. Qed.

Lemma split_from_space (cur rest : string) :
  Py.truthy cur = true ->
  Py.split_from cur (String " " rest) = cur :: Py.split_from EmptyString rest.
Proof. destruct cur; [discriminate|reflexivity]. Qed.

Lemma join_one (sep w : string) : Py.join sep [w] = w.
Proof. reflexivity. Qed.

Lemma join_cons (sep w w' : string) (ws : list string) :
  Py.join sep (w :: w' :: ws) = w +:+ sep +:+ Py.join sep (w' :: ws).
Proof. reflexivity. Qed.

(** Splitting a list of words joined by single spaces gives the words. *)
Lemma split_join (ws : list string) :
  Forall (fun w => Py.word w = true) ws -> Py.split (Py.join " " ws) = ws.
Proof.
  unfold Py.split. induction 1 as [|w ws Hw Hws IH]; [reflexivity|].
  apply andb_prop in Hw as [Ht Hs].
  destruct ws as [|w' ws].
  - rewrite join_one, <- (append_nil_r w) at 1.
    rewrite (split_from_solid w Hs), append_nil_l. apply split_from_end. exact Ht.
  - rewrite join_cons, (split_from_solid w Hs), append_nil_l.
    rewrite append_cons, append_nil_l, (split_from_space _ _ Ht), IH. reflexivity.
Qed.

Lemma squeeze_join (ws : list string) :
  Forall (fun w => Py.word w = true) ws ->
  Py.squeeze (Py.join " " ws) = Py.join " " ws.
Proof. intros H. unfold Py.squeeze. rewrite (split_join ws H). reflexivity. Qed.

Lemma squeeze_idempotent (s : string) : Py.squeeze (Py.squeeze s) = Py.squeeze s.
Proof.
  unfold Py.squeeze at 2 3. apply squeeze_join.
  apply split_from_words. reflexivity.
Qed.

Lemma take_append (k : nat) (a b : string) :
  Py.take k (a +:+ b)
  = if (k <=? String.length a)%nat then Py.take k a
    else a +:+ Py.take (k - String.length a) b.
Proof.
  unfold Py.take. revert k. induction a as [|c a IH]; intros k.
  - rewrite append_nil_l. destruct k; cbn; [destruct b; reflexivity|reflexivity].
  - rewrite append_cons. destruct k as [|k]; [reflexivity|].
    cbn [String.substring String.length Nat.leb Nat.sub].
    rewrite IH. destruct (k <=? String.length a)%nat; reflexivity.
Qed.

Lemma solid_take (k : nat) (w : string) :
  Py.solid w = true -> Py.solid (Py.take k w) = true.
Proof.
  unfold Py.take. revert k. induction w as [|c w IH]; intros [|k] H; try reflexivity.
  cbn in *. apply andb_prop in H as [Hc Hw]. rewrite Hc. apply IH. exact Hw.
Qed.

(** A truncated squeezed text followed by the ellipsis is again a list
    of words joined by single spaces. *)
Lemma take_join_words (ws : list string) :
  Forall (fun w => Py.word w = true) ws ->
  forall k, exists ws',
    ws' <> [] /\ Forall (fun w => Py.word w = true) ws'
    /\ Py.take k (Py.join " " ws) +:+ "..." = Py.join " " ws'.
Proof.
  assert (Hdots : forall k w, Py.solid w = true ->
            Py.word (Py.take k w +:+ "...") = true).
  { intros k w Hs. unfold Py.word.
    rewrite truthy_append_r by reflexivity.
    rewrite solid_append, (solid_take k w Hs). reflexivity. }
  induction 1 as [|w ws Hw Hws IH]; intros k.
  - exists ["..."]. split; [discriminate|]. split; [repeat constructor|].
    rewrite join_one. unfold Py.join, Py.take. destruct k; reflexivity.
  - pose proof Hw as Hw'. apply andb_prop in Hw' as [Ht Hs].
    destruct ws as [|w' ws].
    + exists [Py.take k w +:+ "..."]. split; [discriminate|].
      split; [constructor; [apply Hdots; exact Hs|constructor]|]. reflexivity.
    + rewrite join_cons, take_append.
      destruct (Nat.leb_spec k (String.length w)) as [Hk|Hk].
      * exists [Py.take k w +:+ "..."]. split; [discriminate|].
        split; [constructor; [apply Hdots; exact Hs|constructor]|]. reflexivity.
      * destruct (k - String.length w)%nat as [|j] eqn:Ej; [lia|].
        rewrite append_cons, append_nil_l.
        change (Py.take (S j) (String " " (Py.join " " (w' :: ws))))
          with (String " " (Py.take j (Py.join " " (w' :: ws)))).
        destruct (IH j) as (ws' & Hne & Hws' & Heq).
        exists (w :: ws'). split; [discriminate|].
        split; [constructor; assumption|].
        destruct ws' as [|x ws']; [contradiction|].
        rewrite join_cons, <- Heq.
        rewrite !append_assoc, !append_cons, !append_nil_l. reflexivity.
Qed.




(** ** Placement of text panels *)

Import TextLayout.

Lemma not_worse_refl (s : Q) (d : Z) : not_worse s d s d.
Proof. right. split; [reflexivity|lia]. Qed.

Lemma not_worse_trans (s1 s2 s3 : Q) (d1 d2 d3 : Z) :
  not_worse s1 d1 s2 d2 -> not_worse s2 d2 s3 d3 -> not_worse s1 d1 s3 d3.
Proof.
  unfold not_worse. intros [H1|[H1 H1']] [H2|[H2 H2']].
  - left. lra.
  - left. lra.
  - left. lra.
  - right. split; [lra|lia].
Qed.

(** The test that makes a candidate the new best one, and its negation. *)
Lemma better_spec (score best_score : Q) (distance best_distance : Z) :
  if negb (Qle_bool best_score score)
     || (Qeq_bool score best_score && (distance <? best_distance))
  then not_worse score distance best_score best_distance
  else not_worse best_score best_distance score distance.
Proof.
  unfold not_worse.
  destruct (Qle_bool best_score score) eqn:L; cbn [negb orb].
  - apply Qle_bool_iff in L.
    destruct (Qeq_bool score best_score) eqn:E; cbn [andb].
    + apply Qeq_bool_iff in E.
      destruct (Z.ltb_spec distance best_distance).
      * right. split; [exact E|lia].
      * right. split; [symmetry; exact E|lia].
    + apply Qeq_bool_neq in E. left.
      apply Qle_lteq in L as [L|L]; [exact L|]. exfalso. apply E. symmetry. exact L.
  - left. apply Qnot_le_lt. intros H. apply Qle_bool_iff in H. congruence.
Qed.

Lemma rects_overlap_sym (a b : Rect) :
  _rects_overlap a b _TEXT_OVERLAP_BUFFER_PX = _rects_overlap b a _TEXT_OVERLAP_BUFFER_PX.
Proof.
  destruct a as [[[al at_] ar] ab], b as [[[bl bt] br] bb].
  unfold _rects_overlap, _TEXT_OVERLAP_BUFFER_PX.
  assert (E : forall x, (x - inject_Z 0 == x)%Q /\ (x + inject_Z 0 == x)%Q)
    by (intros x; split; unfold inject_Z; ring).
  assert (Hb : forall x y z, (y == z)%Q -> Qle_bool y x = Qle_bool z x).
  { intros x y z H. destruct (Qle_bool z x) eqn:L.
    - apply Qle_bool_iff. apply Qle_bool_iff in L. rewrite H. exact L.
    - destruct (Qle_bool y x) eqn:L'; [|reflexivity].
      apply Qle_bool_iff in L'. rewrite H in L'. apply Qle_bool_iff in L'. congruence. }
  assert (Hc : forall x y z, (y == z)%Q -> Qle_bool x y = Qle_bool x z).
  { intros x y z H. destruct (Qle_bool x z) eqn:L.
    - apply Qle_bool_iff. apply Qle_bool_iff in L. rewrite H. exact L.
    - destruct (Qle_bool x y) eqn:L'; [|reflexivity].
      apply Qle_bool_iff in L'. rewrite H in L'. apply Qle_bool_iff in L'. congruence. }
  rewrite !(Hb _ _ _ (proj1 (E _))), !(Hc _ _ _ (proj2 (E _))).
  destruct (Qle_bool br al), (Qle_bool ar bl), (Qle_bool bb at_), (Qle_bool ab bt);
    reflexivity.
Qed.

Section SearchFacts.

Variables (viewport : Z * Z) (cache : Cache).
Variables (ax ay pw ph : Z) (na nb : string) (tid : option string).

Local Abbreviation pl := (place viewport ax ay pw ph na nb).
Local Abbreviation overlaps o := (_has_text_overlap cache (snd (pl o)) tid).
Local Abbreviation score o := (_overlap_score cache (snd (pl o)) tid).
Local Abbreviation scan := (scan_offsets viewport cache ax ay pw ph na nb tid).
Local Abbreviation follows := (tracks viewport cache ax ay pw ph na nb tid).

Lemma tracks_step (seen : list (Z * Z)) (b : Placement * Q * Z) (o : Z * Z) :
  follows seen b ->
  follows (seen ++ [o])
    (if negb (Qle_bool (snd (fst b)) (score o))
        || (Qeq_bool (score o) (snd (fst b)) && (distance o <? snd b))
     then (pl o, score o, distance o) else b).
Proof.
  intros (ob & Hin & Hp & Hs & Hd & Hmin).
  pose proof (better_spec (score o) (snd (fst b)) (distance o) (snd b)) as Hb.
  destruct (negb _ || _).
  - exists o. cbn [fst snd]. repeat split.
    + apply in_or_app. right. left. reflexivity.
    + intros o' [Ho'|[<-|[]]]%in_app_or; [|apply not_worse_refl].
      eapply not_worse_trans; [exact Hb|]. rewrite Hs, Hd. apply Hmin. exact Ho'.
  - exists ob. repeat split; try assumption.
    + apply in_or_app. left. exact Hin.
    + intros o' [Ho'|[<-|[]]]%in_app_or; [apply Hmin; exact Ho'|].
      rewrite <- Hs, <- Hd. exact Hb.
Qed.

(** One ring: the first free offset is returned at once; without one,
    the loop variables follow all offsets seen. *)
Lemma scan_offsets_spec (offsets : list (Z * Z)) :
  forall seen b,
    follows seen b ->
    match scan offsets b with
    | inl found =>
        exists o, In o offsets /\ found = pl o /\ overlaps o = false
    | inr b' =>
        follows (seen ++ offsets) b'
        /\ forall o, In o offsets -> overlaps o = true
    end.
Proof.
  induction offsets as [|[dx dy] rest IH]; intros seen b Hb.
  - cbn. rewrite app_nil_r. split; [exact Hb|]. intros o [].
  - cbn [scan_offsets].
    destruct (overlaps (dx, dy)) eqn:Ho; cbn [negb].
    + pose proof (tracks_step seen b (dx, dy) Hb) as Hstep.
      destruct b as [[best best_score] best_distance]. cbn [fst snd] in Hstep.
      change (Z.abs dx + Z.abs dy) with (distance (dx, dy)).
      destruct (negb _ || _);
        specialize (IH _ _ Hstep);
        match goal with
        | |- match ?x with _ => _ end => destruct x as [found|b']
        end.
      1,3: destruct IH as (o & Hin & Hf & Hfree); exists o;
           repeat split; try assumption; right; exact Hin.
      all: destruct IH as [Ht Hall]; rewrite <- app_assoc in Ht;
        (split; [exact Ht|]); intros o [<-|Hin]; [exact Ho|apply Hall; exact Hin].
    + exists (dx, dy). repeat split; [left; reflexivity|exact Ho].
Qed.

(** All rings: the first free offset in ring order wins; without one the
    result is the best of everything seen. *)
Lemma scan_rings_spec (rs : list nat) :
  forall seen b,
    follows seen b ->
    let found := scan_rings viewport cache ax ay pw ph na nb tid rs b in
    (exists o, In o (flat_map ring_offsets rs) /\ found = pl o /\ overlaps o = false)
    \/ ((forall o, In o (flat_map ring_offsets rs) -> overlaps o = true)
        /\ exists b', follows (seen ++ flat_map ring_offsets rs) b'
                      /\ found = fst (fst b')).
Proof.
  induction rs as [|ring rest IH]; intros seen b Hb.
  - right. split; [intros o []|]. exists b. cbn. rewrite app_nil_r. split; [exact Hb|reflexivity].
  - cbn [scan_rings flat_map].
    pose proof (scan_offsets_spec (ring_offsets ring) seen b Hb) as H.
    destruct (scan (ring_offsets ring) b) as [found|b'].
    + left. destruct H as (o & Hin & Hf & Hfree). exists o.
      repeat split; try assumption. apply in_or_app. left. exact Hin.
    + destruct H as [Ht Hall].
      destruct (IH _ b' Ht) as [(o & Hin & Hf & Hfree)|(Hall' & b'' & Ht' & Hf)].
      * left. exists o. repeat split; try assumption. apply in_or_app. right. exact Hin.
      * right. split.
        -- intros o [Hin|Hin]%in_app_or; [apply Hall|apply Hall']; exact Hin.
        -- exists b''. rewrite <- app_assoc in Ht'. split; assumption.
Qed.

End SearchFacts.

(** *** The rectangle cache as a dictionary *)

Lemma dict_set_in (cache : Cache) (key : string) (value : Rect) :
  In (key, value) (dict_set cache key value).
Proof.
  induction cache as [|[k v] rest IH]; cbn; [left; reflexivity|].
  unfold Py.eqb. destruct (String.eqb_spec k key) as [->|Hne].
  - left. reflexivity.
  - right. exact IH.
Qed.

Lemma dict_set_other (cache : Cache) (key : string) (value : Rect) (k : string) (v : Rect) :
  In (k, v) (dict_set cache key value) -> k <> key -> In (k, v) cache.
Proof.
  induction cache as [|[k0 v0] rest IH]; cbn.
  - intros [[= <- <-]|[]] Hne. contradiction.
  - unfold Py.eqb. destruct (String.eqb_spec k0 key) as [->|Hne0].
    + intros [[= <- <-]|Hin] Hne; [contradiction|]. right. exact Hin.
    + intros [[= <- <-]|Hin] Hne; [left; reflexivity|]. right. apply IH; assumption.
Qed.

Lemma dict_set_keys (cache : Cache) (key : string) (value : Rect) (k : string) :
  In k (List.map fst (dict_set cache key value)) ->
  k = key \/ In k (List.map fst cache).
Proof.
  induction cache as [|[k0 v0] rest IH]; cbn.
  - intros [<-|[]]. left. reflexivity.
  - unfold Py.eqb. destruct (String.eqb_spec k0 key) as [->|Hne0]; cbn.
    + intros [<-|Hin]; [left; reflexivity|]. right. right. exact Hin.
    + intros [<-|Hin]; [right; left; reflexivity|].
      destruct (IH Hin) as [->|H]; [left; reflexivity|right; right; exact H].
Qed.

Lemma dict_set_nodup (cache : Cache) (key : string) (value : Rect) :
  List.NoDup (List.map fst cache) ->
  List.NoDup (List.map fst (dict_set cache key value)).
Proof.
  induction cache as [|[k0 v0] rest IH]; cbn; intros H.
  - constructor; [intros []|constructor].
  - inversion H as [|? ? Hnot Hrest]; subst.
    unfold Py.eqb. destruct (String.eqb_spec k0 key) as [->|Hne0]; cbn.
    + constructor; assumption.
    + constructor; [|apply IH; exact Hrest].
      intros Hin. destruct (dict_set_keys _ _ _ _ Hin) as [->|Hin']; contradiction.
Qed.

Lemma dict_set_same (cache : Cache) (key : string) (value v : Rect) :
  List.NoDup (List.map fst cache) ->
  In (key, v) (dict_set cache key value) -> v = value.
Proof.
  induction cache as [|[k0 v0] rest IH]; cbn; intros H.
  - intros [[= <-]|[]]. reflexivity.
  - inversion H as [|? ? Hnot Hrest]; subst.
    unfold Py.eqb. destruct (String.eqb_spec k0 key) as [->|Hne0].
    + intros [[= <-]|Hin]; [reflexivity|].
      exfalso. apply Hnot. apply (in_map fst) in Hin. exact Hin.
    + intros [[= -> _]|Hin]; [contradiction|]. apply IH; assumption.
Qed.

(** A rectangle that overlaps nothing in the cache, its own id apart. *)
Lemma free_of_cache (cache : Cache) (rect : Rect) (i : string) :
  Py.truthy i = true ->
  _has_text_overlap cache rect (Some i) = false ->
  free_of cache rect i.
Proof.
  intros Ht. unfold _has_text_overlap, free_of.
  induction cache as [|[k0 r0] rest IH]; cbn [existsb]; intros H k r; [intros []|].
  apply orb_false_elim in H as [H0 Hrest].
  intros [[= -> ->]|Hin] Hne; [|apply (IH Hrest k r); assumption].
  unfold ignored in H0. rewrite Ht in H0. cbn [andb] in H0.
  unfold Py.eqb in H0. destruct (String.eqb_spec k i); [contradiction|].
  exact H0.
Qed.

(** Recording a free rectangle keeps the cache pairwise free. *)
Lemma dict_set_pairwise_free (cache : Cache) (rect : Rect) (i : string) :
  List.NoDup (List.map fst cache) ->
  pairwise_free cache ->
  free_of cache rect i ->
  pairwise_free (dict_set cache i rect).
Proof.
  intros Hnd Hpf Hf a b ra rb Ha Hb Hne.
  destruct (String.eqb_spec a i) as [->|Hai], (String.eqb_spec b i) as [->|Hbi].
  - contradiction.
  - rewrite (dict_set_same _ _ _ _ Hnd Ha).
    apply (Hf b rb); [eapply dict_set_other; eassumption|exact Hbi].
  - rewrite (dict_set_same _ _ _ _ Hnd Hb), rects_overlap_sym.
    apply (Hf a ra); [eapply dict_set_other; eassumption|exact Hai].
  - apply (Hpf a b); [eapply dict_set_other; eassumption
                     |eapply dict_set_other; eassumption|exact Hne].
Qed.

(** *** The overlap score is the total overlap area *)

Lemma py_max_greater (a b : Q) : (py_max a b == Qminmax.Qmax a b)%Q.
Proof.
  unfold py_max.
  destruct (Qlt_le_dec a b) as [H|H];
    destruct (Qminmax.Q.max_spec a b) as [[H1 ->]|[H1 ->]]; try reflexivity; lra.
Qed.

Lemma py_min_lesser (a b : Q) : (py_min a b == Qminmax.Qmin a b)%Q.
Proof.
  unfold py_min.
  destruct (Qlt_le_dec b a) as [H|H];
    destruct (Qminmax.Q.min_spec a b) as [[H1 ->]|[H1 ->]]; try reflexivity; lra.
Qed.

Lemma intersection_area_shared (a b : Rect) :
  (_intersection_area a b == shared_area a b)%Q.
Proof.
  destruct a as [[[al at_] ar] ab], b as [[[bl bt] br] bb].
  unfold _intersection_area, shared_area.
  pose proof (py_min_lesser ar br) as E1. pose proof (py_max_greater al bl) as E2.
  pose proof (py_min_lesser ab bb) as E3. pose proof (py_max_greater at_ bt) as E4.
  set (w1 := (py_min ar br - py_max al bl)%Q).
  set (h1 := (py_min ab bb - py_max at_ bt)%Q).
  set (w2 := (Qminmax.Qmin ar br - Qminmax.Qmax al bl)%Q).
  set (h2 := (Qminmax.Qmin ab bb - Qminmax.Qmax at_ bt)%Q).
  assert (Hw : (w1 == w2)%Q) by (unfold w1, w2; rewrite E1, E2; reflexivity).
  assert (Hh : (h1 == h2)%Q) by (unfold h1, h2; rewrite E3, E4; reflexivity).
  clearbody w1 h1 w2 h2. unfold py_max.
  destruct (Qlt_le_dec 0 w1), (Qlt_le_dec 0 h1), (Qlt_le_dec 0 w2), (Qlt_le_dec 0 h2);
    try lra; try (rewrite Hw, Hh; reflexivity); ring.
Qed.

Lemma overlap_score_from_total (cache : Cache) (rect : Rect) (i : string) :
  Py.truthy i = true ->
  forall score,
    (_overlap_score_from score cache rect (Some i)
     == score + total_overlap_area cache rect i)%Q.
Proof.
  intros Ht. unfold total_overlap_area.
  induction cache as [|[k r] rest IH]; intros score; cbn [_overlap_score_from].
  - cbn. ring.
  - unfold ignored. rewrite Ht. cbn [andb List.filter fst]. unfold Py.eqb.
    destruct (String.eqb k i); cbn [negb].
    + apply IH.
    + rewrite IH. cbn [List.map fold_right snd].
      rewrite (intersection_area_shared rect r). ring.
Qed.

Lemma overlap_score_total (cache : Cache) (rect : Rect) (i : string) :
  Py.truthy i = true ->
  (_overlap_score cache rect (Some i) == total_overlap_area cache rect i)%Q.
Proof.
  intros Ht. unfold _overlap_score.
  rewrite (overlap_score_from_total cache rect i Ht). ring.
Qed.

Lemma not_worse_eq (s1 s2 t1 t2 : Q) (d1 d2 : Z) :
  (s1 == t1)%Q -> (s2 == t2)%Q ->
  not_worse s1 d1 s2 d2 -> not_worse t1 d1 t2 d2.
Proof.
  unfold not_worse. intros E1 E2 [H|[H H']]; [left; lra|right; split; [lra|exact H']].
Qed.

Lemma place_origin (viewport : Z * Z) (ax ay pw ph : Z) (na nb : string) :
  place viewport ax ay pw ph na nb (0, 0)
  = _anchor_to_rect ax ay pw ph na nb (fst viewport) (snd viewport).
Proof. unfold place. cbn [fst snd]. rewrite !Z.add_0_r. reflexivity. Qed.

(** What [_resolve_non_overlapping_anchor] returns: the placement at one
    of the candidate offsets; a free one whenever a candidate is free, and
    otherwise one that is not worse than any candidate. *)
Lemma resolve_spec (estimate : string -> Z -> Z * Z) (viewport : Z * Z)
    (cache : Cache) (ax ay : Z) (text : string) (font_size : Z)
    (align baseline : option string) (tid : option string) :
  let pw := fst (estimate text font_size) in
  let ph := snd (estimate text font_size) in
  let pl :=
    place viewport ax ay pw ph (_normalize_align align) (_normalize_baseline baseline) in
  let overlaps o := _has_text_overlap cache (snd (pl o)) tid in
  let score o := _overlap_score cache (snd (pl o)) tid in
  exists o,
    In o candidates
    /\ _resolve_non_overlapping_anchor estimate viewport cache ax ay text font_size
         align baseline tid = pl o
    /\ ((exists o', In o' candidates /\ overlaps o' = false) -> overlaps o = false)
    /\ ((forall o', In o' candidates -> overlaps o' = true) ->
        forall o', In o' candidates ->
          not_worse (score o) (distance o) (score o') (distance o')).
Proof.
  intros pw ph pl overlaps score.
  unfold _resolve_non_overlapping_anchor.
  destruct (estimate text font_size) as [w h] eqn:E.
  assert (pw = w) as -> by (unfold pw; reflexivity).
  assert (ph = h) as -> by (unfold ph; reflexivity).
  rewrite <- (place_origin viewport ax ay w h).
  fold pl. fold (overlaps (0, 0)). fold (score (0, 0)).
  destruct (overlaps (0, 0)) eqn:H0; cbn [negb].
  - assert (Hb : tracks viewport cache ax ay w h (_normalize_align align)
                   (_normalize_baseline baseline) tid [(0, 0)]
                   (pl (0, 0), score (0, 0), 0)).
    { exists (0, 0). cbn [fst snd]. repeat split; [left; reflexivity|].
      intros o' [<-|[]]. apply not_worse_refl. }
    destruct (scan_rings_spec viewport cache ax ay w h _ _ tid rings _ _ Hb)
      as [(o & Hin & Hf & Hfree)|(Hall & b' & (o & Hin & Hp & Hs & Hd & Hmin) & Hf)].
    + change (overlaps o = false) in Hfree.
      exists o. split; [right; exact Hin|]. split; [exact Hf|].
      split; [intros _; exact Hfree|].
      intros Hall. rewrite (Hall o) in Hfree; [discriminate|right; exact Hin].
    + exists o. split; [exact Hin|]. split; [rewrite Hf; exact Hp|].
      split.
      * intros (o' & [<-|Hin'] & Hfree'); [congruence|].
        specialize (Hall o' Hin'). change (overlaps o' = true) in Hall. congruence.
      * intros _ o' Ho'. unfold score, pl. apply Hmin. exact Ho'.
  - exists (0, 0). split; [left; reflexivity|]. split; [reflexivity|].
    split; [intros _; exact H0|].
    intros Hall. rewrite (Hall (0, 0)) in H0; [discriminate|left; reflexivity].
Qed.

Lemma resolved_id_truthy (fresh_id : string) (text_id : option string) :
  Py.truthy fresh_id = true ->
  Py.truthy (default fresh_id (Py.or_else text_id (Some fresh_id))) = true.
Proof.
  intros H. unfold Py.or_else. destruct (Py.otruthy text_id) eqn:E; [|exact H].
  destruct text_id as [t|]; [exact E|discriminate].
Qed.

(** C6. The text panel is placed at the requested anchor or at one of the
    120 ring offsets (10 rings of 12 offsets, multiples of 28 px), and its
    rectangle is recorded in the cache under its id. Whenever one of these
    candidates overlaps no cached rectangle of another id, the accepted one
    overlaps none, and a cache that was pairwise free of overlaps stays so.
    When every candidate overlaps, the accepted one has the least total
    overlap area (the sum of the areas it shares with the cached rectangles
    of other ids) and, among those of that area, the least Manhattan
    offset. *)
Theorem text_panel_placement (estimate : string -> Z -> Z * Z) (viewport : Z * Z)
    (cache : Cache) (fresh_id : string) (x y : Z) (text : string)
    (text_id : option string) (font_size : Z) (align baseline : option string) :
  Py.truthy fresh_id = true ->
  let font := if font_size =? 0 then 18 else font_size in
  let pl :=
    place viewport x y (fst (estimate text font)) (snd (estimate text font))
      (_normalize_align align) (_normalize_baseline baseline) in
  let '(anchor, created, cache') :=
    _create_text_non_overlapping estimate viewport cache fresh_id x y text
      text_id font_size align baseline in
  let overlaps o := _has_text_overlap cache (snd (pl o)) (Some created) in
  let area o := total_overlap_area cache (snd (pl o)) created in
  exists o,
    In o candidates
    /\ pl o = (fst anchor, snd anchor, snd (pl o))
    /\ In (created, snd (pl o)) cache'
    /\ ((exists o', In o' candidates /\ overlaps o' = false) ->
        overlaps o = false
        /\ free_of cache (snd (pl o)) created
        /\ (List.NoDup (List.map fst cache) -> pairwise_free cache ->
            pairwise_free cache'))
    /\ ((forall o', In o' candidates -> overlaps o' = true) ->
        forall o', In o' candidates ->
          not_worse (area o) (distance o) (area o') (distance o')).
Proof.
  intros Ht font pl.
  unfold _create_text_non_overlapping. fold font.
  set (created := default fresh_id (Py.or_else text_id (Some fresh_id))).
  pose proof (resolved_id_truthy fresh_id text_id Ht) as Hid. fold created in Hid.
  destruct (resolve_spec estimate viewport cache x y text font align baseline
              (Some created)) as (o & Hin & Hres & Hfree & Hmin).
  fold pl in Hres, Hfree, Hmin. rewrite Hres.
  destruct (pl o) as [[rx ry] rect] eqn:Ep.
  exists o. rewrite Ep. cbn [fst snd] in *.
  split; [exact Hin|]. split; [reflexivity|]. split; [apply dict_set_in|].
  split.
  - intros Hex. specialize (Hfree Hex). split; [exact Hfree|].
    pose proof (free_of_cache cache rect created Hid Hfree) as Hf.
    split; [exact Hf|]. intros Hnd Hpf.
    apply dict_set_pairwise_free; assumption.
  - intros Hall o' Ho'. specialize (Hmin Hall o' Ho').
    eapply not_worse_eq; [| |exact Hmin]; apply overlap_score_total; exact Hid.
Qed.

(** Two placements. Next to one cached rectangle the panel moves two
    steps down, to the first free candidate, and the cache stays pairwise
    free. In the crowded cache every candidate overlaps; the panel moves
    twelve steps to the right, out of the rectangle that covers the left
    half, and no candidate has a smaller total overlap area. *)
Lemma text_panel_placement_witness :
  (let cache := [("a", (100 # 1, 100 # 1, 200 # 1, 140 # 1))%Q] in
   let '(anchor, created, cache') :=
     _create_text_non_overlapping (fixed_panel 100 40) (800, 600) cache
       "text_0a1b2c3d" 100 100 "hello" (Some "b") 18 None None in
   anchor = (100, 156) /\ pairwise_free cache')
  /\ (let pl := place (800, 600) 100 100 100 40 "left" "top" in
      let '(anchor, created, cache') :=
        _create_text_non_overlapping (fixed_panel 100 40) (800, 600) crowded
          "text_0a1b2c3d" 100 100 "hello" (Some "c") 18 None None in
      anchor = (436, 100)
      /\ Qeq (total_overlap_area crowded (snd (pl (336, 0))) created) (4000 # 1)
      /\ exists o,
          In o candidates
          /\ pl o = (fst anchor, snd anchor, snd (pl o))
          /\ forall o', In o' candidates ->
               not_worse (total_overlap_area crowded (snd (pl o)) created)
                 (distance o)
                 (total_overlap_area crowded (snd (pl o')) created)
                 (distance o')).
Proof.
  split.
  - intros cache.
    assert (Hnd : List.NoDup (List.map fst cache)).
    { repeat constructor. intros []. }
    assert (Hpf : pairwise_free cache).
    { intros i j ri rj [[= <- <-]|[]] [[= <- <-]|[]] Hne. contradiction. }
    pose proof (text_panel_placement (fixed_panel 100 40) (800, 600) cache
                  "text_0a1b2c3d" 100 100 "hello" (Some "b") 18 None None
                  eq_refl) as H.
    cbv zeta in H.
    destruct (_create_text_non_overlapping _ _ _ _ _ _ _ _ _ _ _)
      as [[anchor created] cache'] eqn:E.
    vm_compute in E. injection E as <- <- <-.
    split; [reflexivity|].
    destruct H as (o & _ & _ & _ & Hfree & _).
    apply Hfree; [|exact Hnd|exact Hpf].
    exists (0, 56). split; [|vm_compute; reflexivity].
    vm_compute. repeat (first [left; reflexivity | right]).
  - intros pl.
    pose proof (text_panel_placement (fixed_panel 100 40) (800, 600) crowded
                  "text_0a1b2c3d" 100 100 "hello" (Some "c") 18 None None
                  eq_refl) as H.
    cbv zeta in H.
    destruct (_create_text_non_overlapping _ _ _ _ _ _ _ _ _ _ _)
      as [[anchor created] cache'] eqn:E.
    vm_compute in E. injection E as <- <- <-.
    split; [reflexivity|]. split; [vm_compute; reflexivity|].
    destruct H as (o & Hin & Hp & _ & _ & Hmin).
    exists o. split; [exact Hin|]. split; [exact Hp|].
    assert (Hall : forallb
                     (fun o' => _has_text_overlap crowded (snd (pl o')) (Some "c"))
                     candidates = true) by (vm_compute; reflexivity).
    apply Hmin. intros o' Ho'.
    exact (proj1 (forallb_forall _ _) Hall o' Ho').
Defined.

(** ** The CLI agent: waiting for ports *)

Import CliAgent.

Lemma later_refl (w : World) : later w w.
Proof. unfold later. repeat split; lia. Qed.

Lemma later_trans (a b c : World) : later a b -> later b c -> later a c.
Proof.
  unfold later. intros (H1 & H2 & H3 & H4 & H5 & H6 & H7) (K1 & K2 & K3 & K4 & K5 & K6 & K7).
  repeat split; try congruence; lia.
Qed.

Lemma later_advance (ms : Z) (w : World) : 0 <= ms -> later w (advance ms w).
Proof. intros H. unfold later, advance. cbn. repeat split; lia. Qed.

Lemma later_probe (port : Z) (w : World) : later w (snd (_is_local_port_open port w)).
Proof. unfold _is_local_port_open. cbn [snd]. apply later_advance. lia. Qed.

Lemma later_sleep (ms : Z) (w : World) :
  0 <= ms -> later w (sleep ms w) /\ clock w + ms <= clock (sleep ms w).
Proof.
  intros H. unfold sleep. split; [apply later_advance; lia|]. cbn. lia.
Qed.

(** One round of probes: the first port that answers, or none. *)
Lemma probe_ports_spec (ports : list Z) :
  forall w,
    let '(found, w') := probe_ports ports w in
    later w w'
    /\ match found with
       | Some p =>
           In p ports
           /\ exists t, clock w <= t <= clock w' /\ port_open w t p = true
       | None =>
           forall p, In p ports ->
             exists t, clock w <= t <= clock w' /\ port_open w t p = false
       end.
Proof.
  induction ports as [|port rest IH]; intros w; cbn [probe_ports].
  - split; [apply later_refl|]. intros p [].
  - pose proof (later_probe port w) as Hl. unfold _is_local_port_open in *.
    cbn [snd] in Hl.
    destruct (port_open w (clock w) port) eqn:Ho.
    + split; [exact Hl|]. split; [left; reflexivity|].
      exists (clock w). destruct Hl as [Hc _]. split; [lia|exact Ho].
    + specialize (IH (advance (Z.of_nat (connect_ms w (clock w) port)) w)).
      destruct (probe_ports rest _) as [found w'].
      destruct IH as [Hl' Hf]. pose proof (later_trans _ _ _ Hl Hl') as Hl''.
      split; [exact Hl''|].
      destruct Hl as (Hc & Hp & _), Hl' as (Hc' & _).
      destruct found as [p|].
      * destruct Hf as (Hin & t & Ht & Hopen). split; [right; exact Hin|].
        exists t. rewrite Hp in Hopen. split; [lia|exact Hopen].
      * intros p [<-|Hin].
        -- exists (clock w). split; [lia|exact Ho].
        -- destruct (Hf p Hin) as (t & Ht & Hopen). exists t.
           rewrite Hp in Hopen. split; [lia|exact Hopen].
Qed.


(** The polling loop. A port it returns is one of the given ports and
    answered a probe in a round begun before the deadline; when it returns
    none, the deadline has passed, provided the fuel covers the time left
    at 350 ms per round. *)
Lemma wait_loop_spec (deadline : Z) (ports : list Z) (fuel : nat) :
  forall w,
    let '(found, w') := wait_loop fuel deadline ports w in
    later w w'
    /\ match found with
       | Some p =>
           In p ports
           /\ exists round t,
               clock w <= round <= t /\ t <= clock w' /\ round < deadline
               /\ port_open w t p = true
       | None =>
           deadline - clock w <= 350 * (Z.of_nat fuel - 1) -> deadline <= clock w'
       end.
Proof.
  induction fuel as [|fuel IH]; intros w; cbn [wait_loop].
  - split; [apply later_refl|]. lia.
  - destruct (Z.ltb_spec (clock w) deadline) as [Hlt|Hge].
    + pose proof (probe_ports_spec ports w) as Hp.
      destruct (probe_ports ports w) as [[p|] w1].
      * destruct Hp as (Hl & Hin & t & Ht & Ho).
        split; [exact Hl|]. split; [exact Hin|].
        exists (clock w), t. repeat split; try lia. exact Ho.
      * destruct Hp as [Hl _].
        destruct (later_sleep 350 w1) as [Hs Hc]; [lia|].
        specialize (IH (sleep 350 w1)).
        destruct (wait_loop fuel deadline ports (sleep 350 w1)) as [found w'].
        destruct IH as [Hl' Hf].
        pose proof (later_trans _ _ _ Hl Hs) as Hl1.
        split; [exact (later_trans _ _ _ Hl1 Hl')|].
        destruct Hl1 as (Hc1 & Hp1 & _), Hl as (Hc0 & _), Hl' as (Hc' & _).
        destruct found as [p|].
        -- destruct Hf as (Hin & round & t & Hr & Ht & Hd & Hopen).
           split; [exact Hin|].
           exists round, t. rewrite Hp1 in Hopen. repeat split; try lia. exact Hopen.
        -- intros Hfuel. apply Hf. lia.
    + split; [apply later_refl|]. lia.
Qed.

(** [_wait_for_any_port]: it always returns; a port it returns is one of
    the given ports and answered a connection probe made during the wait,
    in a round begun before the time-out; when it returns none although
    ports were given, the whole time-out has elapsed. *)
Lemma wait_for_any_port_spec (ports : list Z) (timeout_ms : Z) (w : World) :
  0 <= timeout_ms ->
  let '(found, w') := _wait_for_any_port ports timeout_ms w in
  later w w'
  /\ match found with
     | Some p => In p ports /\ answered w (clock w) timeout_ms (clock w') p
     | None => ports <> [] -> clock w + timeout_ms <= clock w'
     end.
Proof.
  intros Ht. unfold _wait_for_any_port.
  destruct ports as [|p0 rest]; [split; [apply later_refl|congruence]|].
  pose proof (wait_loop_spec (clock w + timeout_ms) (p0 :: rest)
                (rounds_for timeout_ms) w) as H.
  destruct (wait_loop _ _ _ w) as [[p|] w'].
  - destruct H as (Hl & Hin & round & t & Hr & Ht' & Hd & Hopen).
    split; [exact Hl|]. split; [exact Hin|].
    exists round, t. repeat split; try lia. exact Hopen.
  - destruct H as [Hl Hf]. split; [exact Hl|]. intros _. apply Hf.
    unfold rounds_for. rewrite Nat2Z.inj_add, Z2Nat.id by (apply Z.div_pos; lia).
    pose proof (Z.mul_div_le timeout_ms 350 ltac:(lia)).
    pose proof (Z.mod_pos_bound timeout_ms 350 ltac:(lia)).
    pose proof (Z.div_mod timeout_ms 350 ltac:(lia)). lia.
Qed.

(** Ports that answer no probe between the start and the end of the wait:
    the wait comes back empty. *)
Lemma wait_for_any_port_unanswered (ports : list Z) (timeout_ms : Z) (w : World) :
  0 <= timeout_ms ->
  (forall t p, In p ports ->
     clock w <= t <= clock (snd (_wait_for_any_port ports timeout_ms w)) ->
     port_open w t p = false) ->
  fst (_wait_for_any_port ports timeout_ms w) = None.
Proof.
  intros Ht H.
  pose proof (wait_for_any_port_spec ports timeout_ms w Ht) as Hs.
  destruct (_wait_for_any_port ports timeout_ms w) as [[p|] w']; [|reflexivity].
  cbn [snd] in H. destruct Hs as (_ & Hin & round & t & Hr & Hstop & _ & Ho).
  rewrite (H t p Hin ltac:(lia)) in Ho. discriminate.
Qed.

(** A round of probes made when [p] is reachable finds a port. *)
Lemma probe_ports_open (ports : list Z) (w : World) (p : Z) :
  In p ports ->
  (forall t, clock w <= t -> port_open w t p = true) ->
  exists q, fst (probe_ports ports w) = Some q.
Proof.
  intros Hin Hopen.
  pose proof (probe_ports_spec ports w) as Hs.
  destruct (probe_ports ports w) as [[q|] w1].
  - exists q. reflexivity.
  - destruct Hs as [_ Hall]. destruct (Hall p Hin) as (t & Ht' & Hclosed).
    rewrite Hopen in Hclosed by lia. discriminate.
Qed.



(** ** Background promotion *)




(** ** The localhost-claim check of [execute] *)

Lemma later_after (w w' : World) : later w w' -> after w w'.
Proof. intros (H1 & H2 & _ & _ & _ & _ & H7). repeat split; assumption. Qed.

Lemma after_refl (w : World) : after w w.
Proof. unfold after. repeat split; lia. Qed.

Lemma after_trans (a b c : World) : after a b -> after b c -> after a c.
Proof.
  unfold after. intros (H1 & H2 & H3) (K1 & K2 & K3).
  repeat split; try congruence; lia.
Qed.

(** [_start_background_process] either registers one new record and
    reports success, or raises the error of the operating system and
    registers nothing. *)
Lemma start_background_process_frame (os : Launcher)
    (command working_dir task : string) (st : State) :
  let '(out, st') := _start_background_process os command working_dir task st in
  after (world st) (world st')
  /\ match out with
     | Ok r =>
         r_success r = true
         /\ exists meta,
             _managed_background_processes st'
             = <[uuid_hex os := meta]> (_managed_background_processes st)
             /\ CliAgent.command meta = command
     | Raise msg =>
         msg = os_error os
         /\ _managed_background_processes st' = _managed_background_processes st
     end.
Proof.
  unfold _start_background_process.
  destruct (open_log os); cbn [negb]; [|split; [apply after_refl|split; reflexivity]].
  set (w1 := create_file _ (world st)).
  assert (H1 : after (world st) w1) by (unfold after; cbn; repeat split; lia).
  destruct (spawn_pid os) as [new_pid|]; [|split; [exact H1|split; reflexivity]].
  destruct (_extract_port_candidates _) as [|p0 rest].
  - split; [exact H1|]. split; [reflexivity|]. eexists. split; reflexivity.
  - pose proof (wait_for_any_port_spec (p0 :: rest) 20000 w1 ltac:(lia)) as Hw.
    destruct (_wait_for_any_port (p0 :: rest) 20000 w1) as [opened w2].
    destruct Hw as [Hl _]. cbn [world _managed_background_processes].
    split; [exact (after_trans _ _ _ H1 (later_after _ _ Hl))|].
    split; [reflexivity|]. eexists. split; reflexivity.
Qed.

Section ExecuteFacts.

Variable infer : option (list ToolCall) -> option (string * string).
Variable os : Launcher.

(** The promotion pass. *)
Lemma promote_spec (task : string) (response : CLIResponse) (st : State) :
  let '(out, st') :=
    _maybe_promote_server_launch_from_tool_calls infer os task response st in
  after (world st) (world st')
  /\ match out with
     | Ok None =>
         _managed_background_processes st' = _managed_background_processes st
     | Raise msg =>
         raised os msg
         /\ _managed_background_processes st' = _managed_background_processes st
     | Ok (Some r) =>
         r_success r = true
         /\ ((_managed_background_processes st' = _managed_background_processes st
              /\ reachable infer task response (world st) (clock (world st))
                   (clock (world st')) r)
             \/ started infer os response (_managed_background_processes st)
                  (_managed_background_processes st'))
     end.
Proof.
  unfold _maybe_promote_server_launch_from_tool_calls.
  destruct (infer (tool_calls response)) as [[launch_command launch_cwd]|] eqn:Ei;
    [|split; [apply after_refl|reflexivity]].
  set (found := _extract_port_candidates _).
  assert (Hw : let '(opened, w) :=
                 match found with
                 | [] => (None, world st)
                 | _ => _wait_for_any_port found 1200 (world st)
                 end in
               after (world st) w
               /\ (forall p, opened = Some p ->
                     In p found
                     /\ answered (world st) (clock (world st)) 1200 (clock w) p)).
  { destruct found as [|p0 rest]; [split; [apply after_refl|discriminate]|].
    pose proof (wait_for_any_port_spec (p0 :: rest) 1200 (world st) ltac:(lia)) as H.
    destruct (_wait_for_any_port (p0 :: rest) 1200 (world st)) as [opened w].
    destruct H as [Hl H]. split; [apply later_after; exact Hl|].
    intros p ->. exact H. }
  destruct (match found with [] => _ | _ => _ end) as [opened w].
  destruct Hw as [Ha Ho]. unfold set_world.
  destruct opened as [port|].
  - destruct (_is_timeout_error_text (error response)) eqn:Et;
      cbn [world _managed_background_processes].
    + split; [exact Ha|]. split; [reflexivity|]. left.
      split; [reflexivity|]. split; [exact Et|].
      destruct (Ho port eq_refl) as [Hin Hans].
      exists (launch_command, launch_cwd), port. repeat split; assumption.
    + split; [exact Ha|reflexivity].
  - destruct (api_key_set w); cbn [negb];
      [|cbn [world _managed_background_processes]; split; [exact Ha|];
        split; [left; reflexivity|reflexivity]].
    match goal with
    | |- context [_start_background_process ?o ?c ?d ?t ?s0] =>
        pose proof (start_background_process_frame o c d t s0) as Hs;
        destruct (_start_background_process o c d t s0) as [[started0|msg] st1]
    end; cbn [world _managed_background_processes] in Hs; destruct Hs as [Ha' Hs].
    + split; [exact (after_trans _ _ _ Ha Ha')|]. split; [reflexivity|]. right.
      destruct Hs as (_ & meta & Hm & Hc).
      exists (launch_command, launch_cwd), meta. repeat split; assumption.
    + split; [exact (after_trans _ _ _ Ha Ha')|].
      destruct Hs as [-> Hs]. split; [right; reflexivity|exact Hs].
Qed.

(** The same for [promotion_pass], which declines a run without tool
    calls. *)
Lemma promotion_pass_spec (task : string) (response : CLIResponse) (st : State) :
  let '(out, st') := promotion_pass infer os task response st in
  after (world st) (world st')
  /\ match out with
     | Ok None =>
         _managed_background_processes st' = _managed_background_processes st
     | Raise msg =>
         raised os msg
         /\ _managed_background_processes st' = _managed_background_processes st
     | Ok (Some r) =>
         r_success r = true
         /\ ((_managed_background_processes st' = _managed_background_processes st
              /\ reachable infer task response (world st) (clock (world st))
                   (clock (world st')) r)
             \/ started infer os response (_managed_background_processes st)
                  (_managed_background_processes st'))
     end.
Proof.
  unfold promotion_pass. destruct (has_tool_calls response).
  - apply promote_spec.
  - split; [apply after_refl|reflexivity].
Qed.

Lemma promotion_pass_declines (task : string) (response : CLIResponse) (st : State) :
  has_tool_calls response = false \/ infer (tool_calls response) = None ->
  promotion_pass infer os task response st = (Ok None, st).
Proof.
  unfold promotion_pass. intros [H|H]; [rewrite H; reflexivity|].
  destruct (has_tool_calls response); [|reflexivity].
  unfold _maybe_promote_server_launch_from_tool_calls. rewrite H. reflexivity.
Qed.

End ExecuteFacts.

Lemma claims_nonempty (output_text : string) :
  claims_local_server output_text = true -> Py.truthy output_text = true.
Proof. destruct output_text; [vm_compute; discriminate|reflexivity]. Qed.

(** The check fails when the output claims a server on ports of which
    none answers while the check waits. *)
Lemma validate_unanswered (output_text : string) (w : World) :
  claims_local_server output_text = true ->
  _extract_port_candidates output_text <> [] ->
  (forall t p, In p (_extract_port_candidates output_text) ->
     clock w <= t <= clock (snd (_validate_local_server_claim output_text w)) ->
     port_open w t p = false) ->
  fst (_validate_local_server_claim output_text w)
  = Some (claim_error (_extract_port_candidates output_text))
  /\ after w (snd (_validate_local_server_claim output_text w))
  /\ clock w + 15000 <= clock (snd (_validate_local_server_claim output_text w)).
Proof.
  intros Hc Hne. unfold _validate_local_server_claim.
  rewrite (claims_nonempty _ Hc), Hc. cbn [negb].
  pose proof (wait_for_any_port_unanswered (_extract_port_candidates output_text)
                15000 w ltac:(lia)) as Hn.
  pose proof (wait_for_any_port_spec (_extract_port_candidates output_text) 15000 w
                ltac:(lia)) as Hs.
  destruct (_extract_port_candidates output_text) as [|p0 rest] eqn:E; [contradiction|].
  destruct (_wait_for_any_port (p0 :: rest) 15000 w) as [[p|] w'] eqn:Ew;
    cbn [fst snd] in *; intros Hclosed.
  - specialize (Hn Hclosed). discriminate.
  - destruct Hs as [Hl Hs]. split; [reflexivity|].
    split; [apply later_after; exact Hl|]. apply Hs. discriminate.
Qed.

Section ExecuteClaim.

Variable infer : option (list ToolCall) -> option (string * string).
Variable os : Launcher.

(** C3, amended. The run's output claims a local server and mentions
    ports, none of which answers a connection attempt while the check
    waits for them (15 seconds of polling, begun when the first promotion
    pass has declined). Then [execute] fails with the error naming those
    ports and starts nothing, and it always does so when the run has no
    tool calls or no server-like launch is found in them. The other
    results come from a promotion pass over the tool calls: success after
    starting the launch found there as a background process; success, with
    nothing started, when the run had timed out and a port named in the
    task, the output or the launch command answered a probe of the
    1.2-second polling wait of that pass; or the failure that carries the
    message of the exception raised while promoting. *)
Theorem execute_localhost_claim (task : string) (response : CLIResponse) (st : State) :
  claims_local_server (output response) = true ->
  _extract_port_candidates (output response) <> [] ->
  (forall t p, In p (_extract_port_candidates (output response)) ->
     check_begins infer os task response st <= t
     <= check_ends infer os task response st ->
     port_open (world st) t p = false) ->
  let claimed := _extract_port_candidates (output response) in
  let table := _managed_background_processes st in
  let '(res, st') := execute_after_run infer os task response st in
  let table' := _managed_background_processes st' in
  ((r_success res = false
    /\ r_error res = Some (claim_error claimed)
    /\ r_result res = Some (output response)
    /\ r_tool_calls res = tool_calls response
    /\ table' = table
    /\ check_begins infer os task response st + 15000
       <= check_ends infer os task response st)
   \/ (r_success res = true /\ started infer os response table table')
   \/ (r_success res = true
       /\ table' = table
       /\ exists start,
           clock (world st) <= start
           /\ reachable infer task response (world st) start
                (clock (world st')) res)
   \/ (r_success res = false
       /\ r_result res = None
       /\ r_tool_calls res = None
       /\ table' = table
       /\ exists msg, r_error res = Some msg /\ raised os msg))
  /\ (has_tool_calls response = false \/ infer (tool_calls response) = None ->
      r_success res = false
      /\ r_error res = Some (claim_error claimed)
      /\ table' = table).
Proof.
  intros Hc Hne Hclosed claimed table.
  unfold check_begins, check_ends in *.
  unfold execute_after_run.
  pose proof (promotion_pass_spec infer os task response st) as P1.
  pose proof (promotion_pass_declines infer os task response st) as D1.
  destruct (promotion_pass infer os task response st) as [[[promoted|]|msg] st1].
  - destruct P1 as (_ & Hs & [(Ht & Hr)|Hl]).
    + split; [right; right; left|intros H; specialize (D1 H); discriminate].
      split; [exact Hs|]. split; [exact Ht|].
      exists (clock (world st)). split; [lia|exact Hr].
    + split; [right; left; split; assumption|].
      intros H. specialize (D1 H). discriminate.
  - destruct P1 as [(Hc1 & Hp1 & Hk1) Ht1]. cbn [snd] in Hclosed |- *.
    assert (Hclosed1 : forall t p, In p (_extract_port_candidates (output response)) ->
              clock (world st1) <= t
              <= clock (snd (_validate_local_server_claim (output response) (world st1))) ->
              port_open (world st1) t p = false).
    { intros t p Hin Ht. rewrite Hp1. apply Hclosed; assumption. }
    pose proof (validate_unanswered (output response) (world st1) Hc Hne Hclosed1) as V.
    destruct (_validate_local_server_claim (output response) (world st1)) as [e w2].
    cbn [fst snd] in V. destruct V as (-> & (Hc2 & Hp2 & Hk2) & Hlong).
    set (st2 := set_world w2 st1).
    pose proof (promotion_pass_spec infer os task response st2) as P2.
    pose proof (promotion_pass_declines infer os task response st2) as D2.
    assert (Ht2 : _managed_background_processes st2 = table) by exact Ht1.
    assert (Hw2 : world st2 = w2) by reflexivity.
    destruct (promotion_pass infer os task response st2) as [[[promoted|]|msg] st3].
    + destruct P2 as (_ & Hs & [(Ht & Hto & l & p & Hi & Hin & Hans & Hres)|Hstart]).
      * split; [right; right; left|intros H; specialize (D2 H); discriminate].
        split; [exact Hs|]. split; [congruence|].
        exists (clock w2). split; [lia|]. split; [exact Hto|].
        exists l, p. split; [exact Hi|]. split; [exact Hin|]. split; [|exact Hres].
        rewrite Hw2 in Hans. destruct Hans as (round & t & Hr & Hstop & Hd & Hop).
        exists round, t. rewrite Hp2, Hp1 in Hop. repeat split; try lia. exact Hop.
      * split; [right; left|intros H; specialize (D2 H); discriminate].
        split; [exact Hs|]. rewrite Ht2 in Hstart. exact Hstart.
    + destruct P2 as [_ Ht3].
      assert (Ht' : _managed_background_processes st3 = table) by congruence.
      cbn [r_success r_error r_result r_tool_calls snd].
      split; [left|intros _]; repeat split; assumption.
    + destruct P2 as [_ [Hm Ht]]. unfold failed.
      cbn [r_success r_error r_result r_tool_calls].
      split; [right; right; right|intros H; specialize (D2 H); discriminate].
      split; [reflexivity|]. split; [reflexivity|]. split; [reflexivity|].
      split; [congruence|]. exists msg. split; [reflexivity|exact Hm].
  - destruct P1 as [_ [Hm Ht]]. unfold failed.
    cbn [r_success r_error r_result r_tool_calls].
    split; [right; right; right|intros H; specialize (D1 H); discriminate].
    split; [reflexivity|]. split; [reflexivity|]. split; [reflexivity|].
    split; [exact Ht|]. exists msg. split; [reflexivity|exact Hm].
Qed.

End ExecuteClaim.

(** C3, as stated, fails in three ways. The run timed out, its output
    claims a server on port 4000, which is never reachable, and its tool
    calls contain a server-like launch; but port 3000, named in the task,
    already answers: the result is a success although nothing was promoted
    to a background process. With the API key missing, the attempt to
    promote the launch raises, and the result fails with that exception's
    message, which names no port. And a claimed port that becomes reachable
    only after the 15 seconds can still be found by the last round of
    probes, which began before them: with probes of half a second, port
    5000 opens at 15.1 s, is probed at 15.35 s, and the run's result is
    passed on as a success. *)
Lemma execute_reachable_after_timeout :
  (let '(res, st') :=
     execute_after_run sample_launch sample_os "start the app on port 3000"
       timed_out_response only_3000 in
   claims_local_server (output timed_out_response) = true
   /\ _extract_port_candidates (output timed_out_response) = [4000]
   /\ (forall t, port_open (world only_3000) t 4000 = false)
   /\ r_success res = true
   /\ r_error res = None
   /\ _managed_background_processes st' = ∅)
  /\ (let '(res, st') :=
        execute_after_run sample_launch sample_os "start the server"
          launched_response (machine (fun _ _ => false) 5 false) in
      claims_local_server (output launched_response) = true
      /\ _extract_port_candidates (output launched_response) = [4000]
      /\ r_success res = false
      /\ r_error res = Some api_key_missing
      /\ _managed_background_processes st' = ∅)
  /\ (let st := machine (fun t p => (p =? 5000) && (15100 <=? t)) 500 true in
      let '(res, st') :=
        execute_after_run sample_launch sample_os "start the servers"
          two_port_response st in
      claims_local_server (output two_port_response) = true
      /\ _extract_port_candidates (output two_port_response) = [4000; 5000]
      /\ (forall t p, t < 15100 -> port_open (world st) t p = false)
      /\ r_success res = true
      /\ r_error res = None
      /\ clock (world st') = 15850).
Proof.
  split; [|split].
  - vm_compute. split; [reflexivity|]. split; [reflexivity|].
    split; [intros t; reflexivity|]. repeat split.
  - vm_compute. repeat split.
  - cbv zeta.
    match goal with
    | |- context [execute_after_run ?i ?o ?t ?r ?s0] =>
        destruct (execute_after_run i o t r s0) as [res st'] eqn:E
    end.
    vm_compute in E. injection E as <- <-.
    split; [vm_compute; reflexivity|]. split; [vm_compute; reflexivity|]. split.
    + intros t p Ht.
      change (((p =? 5000) && (15100 <=? t)) = false).
      apply andb_false_intro2. apply Z.leb_gt. exact Ht.
    + repeat split.
Qed.

(** The first pass declines because the claimed port 4000 answers and the
    run had not timed out; the server then dies, so the check fails; the
    second pass starts the launch in the background, and the promoted
    server answers on the claimed port. *)
Lemma execute_localhost_claim_witness :
  let st := machine (fun t p => (p =? 4000) && ((t <? 5) || (20000 <=? t))) 5 true in
  let '(res, st') :=
    execute_after_run sample_launch sample_os "start the app on port 4000"
      launched_response st in
  r_success res = true
  /\ started sample_launch sample_os launched_response ∅
       (_managed_background_processes st')
  /\ (active_port <$> (_managed_background_processes st' !! "0a1b2c3d"))
     = Some (Some 4000).
Proof.
  intros st.
  assert (H1 : claims_local_server (output launched_response) = true)
    by (vm_compute; reflexivity).
  assert (H2 : _extract_port_candidates (output launched_response) <> [])
    by (vm_compute; discriminate).
  assert (Hb : check_begins sample_launch sample_os "start the app on port 4000"
                 launched_response st = 5) by (vm_compute; reflexivity).
  assert (He : check_ends sample_launch sample_os "start the app on port 4000"
                 launched_response st = 15270) by (vm_compute; reflexivity).
  assert (H3 : forall t p,
             In p (_extract_port_candidates (output launched_response)) ->
             check_begins sample_launch sample_os "start the app on port 4000"
               launched_response st <= t
             <= check_ends sample_launch sample_os "start the app on port 4000"
                  launched_response st ->
             port_open (world st) t p = false).
  { intros t p _ Ht. rewrite Hb, He in Ht.
    change (((p =? 4000) && ((t <? 5) || (20000 <=? t))) = false).
    apply andb_false_intro2. apply orb_false_intro; [apply Z.ltb_ge|apply Z.leb_gt]; lia. }
  pose proof (execute_localhost_claim sample_launch sample_os
                "start the app on port 4000" launched_response st H1 H2 H3) as H.
  cbv zeta in H.
  destruct (execute_after_run _ _ _ _ _) as [res st'] eqn:E.
  destruct H as [[Hf|[Hs|[Hr|Hx]]] _].
  - exfalso. destruct Hf as [Hf _]. vm_compute in E. injection E as <- _.
    discriminate.
  - destruct Hs as [Hs Hst]. split; [exact Hs|]. split; [exact Hst|].
    vm_compute in E. injection E as _ <-. reflexivity.
  - exfalso. destruct Hr as (_ & Ht & _). vm_compute in E. injection E as _ <-.
    vm_compute in Ht. discriminate.
  - exfalso. destruct Hx as [Hx _]. vm_compute in E. injection E as <- _.
    discriminate.
Defined.

(** ** The scenarios of the test-suite, replayed on the embedding *)

(** Three delegated steps, then the router's direct response. *)
Example scenario_three_step_chain :
  let '(s, x) := call_gemini chain_env [] empty_slot "clone this repo and open locally" in
  x = Finished
  /\ List.map step_agent (chain_steps s) = ["cua_vision"; "cua_cli"; "browser"]
  /\ last (trace s) = Some (DirectResponse "rapid_response" "All done")
  /\ count_direct (trace s) = 1%nat.
Proof. vm_compute. repeat split. Qed.

(** The same step three times: two runs, then the repeat-loop response. *)
Example scenario_repeat_loop :
  let '(s, x) := call_gemini (fun _ => clone_env) [] empty_slot "clone this repo" in
  x = Finished
  /\ trace s
     = [StepRun ("cua_cli", "clone repo"); StepRun ("cua_cli", "clone repo");
        DirectResponse "rapid_response" repeated_msg]
  /\ length (chain_steps s) = 2%nat.
Proof. vm_compute. repeat split. Qed.

(** The router returns something that is not a dictionary. *)
Example scenario_invalid_shape :
  let '(s, x) :=
    call_gemini (fun _ => succeeding NotDict) [] empty_slot "open localhost 3000" in
  x = Finished
  /\ trace s = [DirectResponse "rapid_response" "Router returned an invalid response shape."]
  /\ List.map text (history s)
     = ["open localhost 3000"; "Router returned an invalid response shape."].
Proof. vm_compute. repeat split. Qed.

(** Six successful steps without a direct response exhaust the budget. *)
Example scenario_budget_exhausted :
  let '(s, x) := call_gemini restless_env [] empty_slot "keep going" in
  x = Finished
  /\ length (chain_steps s) = 6%nat
  /\ last (trace s) = Some (DirectResponse "rapid_response" max_step_msg)
  /\ count_direct (trace s) = 1%nat.
Proof. vm_compute. repeat split. Qed.

(** Screen context first, then the CLI agent, then the direct response. *)
Example scenario_screen_context_first :
  let env k :=
    match k with
    | 0%nat => succeeding (Dict (route_to "screen_context" "extract repo url"))
    | 1%nat => succeeding (Dict (route_to "cua_cli" "git clone <url> && run"))
    | _ => succeeding (Dict (direct_route "done"))
    end in
  let '(s, x) := call_gemini env [] empty_slot "clone this repository" in
  x = Finished
  /\ List.map step_agent (chain_steps s) = ["screen_context"; "cua_cli"]
  /\ List.map step_message (chain_steps s)
     = ["GitHub repo visible (repo=https://github.com/example/repo, next=cua_cli)";
        "command done"]
  /\ last (trace s) = Some (DirectResponse "rapid_response" "done").
Proof. vm_compute. repeat split. Qed.

(** The CLOVIS model answers the user with [direct_response] inside its
    step; the loop goes on with a CLI step and ends with the router's own
    response. *)
Example scenario_clovis_speaks :
  let '(s, x) := call_gemini speaking_env [] empty_slot "where is the save button" in
  x = Finished
  /\ trace s
     = [StepRun ("clovis", "where is the save button");
        DirectResponse "clovis" "The Save button is in the toolbar.";
        StepRun ("cua_cli", "open the editor");
        DirectResponse "rapid_response" "Done."]
  /\ List.map step_message (chain_steps s)
     = ["The Save button is in the toolbar."; "Editor opened."]
  /\ count_direct (trace s) = 2%nat
  /\ count_terminal (trace s) = 1%nat.
Proof. vm_compute. repeat split. Qed.

(** A tool call of the CLOVIS model that raises fails the step, after the
    direct response that came before it was made. *)
Example scenario_clovis_invalid_tool :
  let env (_ : nat) :=
    {| route_request := Returned (Dict clovis_route);
       clovis_generate_content :=
         Returned {| function_calls :=
                       [CallDirectResponse "Look here.";
                        CallRaises "[CLOVIS] Invalid tool: draw_circle"];
                     answer_text := None |};
       browser_execute := Cancelled; cli_execute := Cancelled;
       vision_execute := Cancelled; generate_screen_context := Cancelled |} in
  let '(s, x) := call_gemini env [] empty_slot "where is the save button" in
  x = Finished
  /\ trace s
     = [StepRun ("clovis", "where is the save button");
        DirectResponse "clovis" "Look here.";
        DirectResponse "rapid_response"
          ("Stopping chained execution because clovis failed: "
           +:+ "[CLOVIS] Invalid tool: draw_circle")]
  /\ List.map step_success (chain_steps s) = [false].
Proof. vm_compute. repeat split. Qed.

(** The products of [denormalize] are rounded as Python rounds them:
    [175 / 1000 * 1440] is a float just below 252. *)
Example denormalize_rounds_down :
  denormalize (0, 0) (1440, 900) (Int 175) (Int 350) = Some (Int 251, Int 315)
  /\ denormalize (0, 0) (1440, 900) (Int 500) (Int 1200) = Some (Int 720, Int 1200)
  /\ denormalize (1440, 900) (0, 0) (Int 1000) (Real (div (lit (-1)) (lit 2)))
     = Some (Int 1440, Real (div (lit (-1)) (lit 2)))
  /\ denormalize (0, 0) (0, 0) (Int 1) (Int 1) = None.
Proof. vm_compute. repeat split. Qed.

(** Ports named in a text, as [_extract_port_candidates] finds them. *)
Example ports_in_text :
  _extract_port_candidates "Server starting at http://127.0.0.1:3000" = [3000]
  /\ _extract_port_candidates
       "LocalHost : 8080 and port 99999x --PORT=5173 port 70000 port 443, --port 9"
     = [443; 5173; 8080]
  /\ _extract_port_candidates "localhost:127.0.0.1:80 xport 8000 _port 8001" = [127]
  /\ _extract_port_candidates "localhost:1234567" = [12345].
Proof. vm_compute. repeat split. Qed.

(** A timed-out run whose tool calls contain a launch: port 3000, named
    in the task, answers only two seconds later, so the launch is started in
    the background and the port is verified by the 20-second wait. *)
Example scenario_timeout_promoted :
  let st :=
    {| world :=
         {| clock := 0; port_open := fun t p => (p =? 3000) && (2000 <=? t);
            connect_ms := fun _ _ => 5%nat; sleep_late_ms := fun _ => 0%nat;
            files := ∅; tmpdir := "/tmp"; api_key_set := true |};
       _managed_background_processes := ∅ |} in
  let response :=
    {| success := false;
       output := "Server starting at http://127.0.0.1:3000";
       error := Some "CLI task timed out after 120 seconds";
       tool_calls := Some [sample_call] |} in
  let '(res, st') :=
    execute_after_run sample_launch sample_os
      "go into ~/Desktop/demo-app and run npm start on port 3000" response st in
  r_success res = true
  /\ r_result res
     = Some ("Server starting at http://127.0.0.1:3000 | "
             +:+ "Started background process 0a1b2c3d | (pid 4242) | command: npm start | "
             +:+ "log: /tmp/clovis_cli_bg_0a1b2c3d.log | verified on http://127.0.0.1:3000")
  /\ (active_port <$> (_managed_background_processes st' !! "0a1b2c3d")) = Some (Some 3000).
Proof. vm_compute. repeat split. Qed.

(** * Further properties *)

(** ** More facts about the string helpers *)

Lemma lower_append (a b : string) : Py.lower (a +:+ b) = Py.lower a +:+ Py.lower b.
Proof.
  induction a as [|c a IH]; [reflexivity|].
  rewrite append_cons. cbn [Py.lower]. rewrite IH, append_cons. reflexivity.
Qed.

Lemma contains_prefix (needle hay : string) :
  String.prefix needle hay = true -> Py.contains needle hay = true.
Proof. intros H. destruct hay; cbn [Py.contains]; rewrite H; reflexivity. Qed.

Lemma contains_tail (needle : string) (c : ascii) (hay : string) :
  Py.contains needle hay = true -> Py.contains needle (String c hay) = true.
Proof. intros H. cbn [Py.contains]. rewrite H. apply orb_true_r. Qed.

Lemma contains_append_r (needle a b : string) :
  Py.contains needle b = true -> Py.contains needle (a +:+ b) = true.
Proof.
  intros H. induction a as [|c a IH]; [exact H|].
  rewrite append_cons. apply contains_tail. exact IH.
Qed.

Lemma prefix_append (needle a b : string) :
  String.prefix needle a = true -> String.prefix needle (a +:+ b) = true.
Proof.
  revert a. induction needle as [|n needle IH]; intros a H.
  - destruct (a +:+ b); reflexivity.
  - destruct a as [|c a]; [discriminate|].
    rewrite append_cons. cbn [String.prefix] in *.
    destruct (ascii_dec n c); [|discriminate]. apply IH. exact H.
Qed.

Lemma contains_append_l (needle a b : string) :
  Py.contains needle a = true -> Py.contains needle (a +:+ b) = true.
Proof.
  induction a as [|c a IH]; intros H.
  - cbn [Py.contains] in H. rewrite orb_false_r in H.
    rewrite append_nil_l. apply contains_prefix.
    destruct needle; [destruct b; reflexivity|discriminate].
  - rewrite append_cons. cbn [Py.contains] in *.
    apply orb_true_iff in H as [H|H].
    + rewrite <- append_cons, (prefix_append _ _ b H). reflexivity.
    + rewrite (IH H). apply orb_true_r.
Qed.

(** ** Wrapping a line of text *)

Import Wrap.

Lemma glued_app (a b : list string) : glued (a ++ b) = glued a +:+ glued b.
Proof.
  unfold glued. induction a as [|x a IH]; [reflexivity|].
  destruct a as [|y a].
  - cbn [app String.concat]. destruct b as [|z b].
    + cbn. rewrite append_nil_r. reflexivity.
    + rewrite append_nil_l. reflexivity.
  - change (String.concat EmptyString ((x :: y :: a) ++ b))
      with (x +:+ EmptyString +:+ String.concat EmptyString ((y :: a) ++ b)).
    rewrite IH. cbn [String.concat]. rewrite !append_nil_l, append_assoc. reflexivity.
Qed.

Lemma glued_one (x : string) : glued [x] = x.
Proof. reflexivity. Qed.

Lemma no_spaces_append (a b : string) :
  no_spaces (a +:+ b) = no_spaces a +:+ no_spaces b.
Proof.
  induction a as [|c a IH]; [reflexivity|].
  rewrite append_cons. cbn [no_spaces]. rewrite IH.
  destruct (Ascii.eqb c " "); reflexivity.
Qed.

Lemma take_drop (n : nat) (s : string) : Py.take n s +:+ drop n s = s.
Proof.
  unfold Py.take. revert s. induction n as [|n IH]; intros [|c s]; cbn; try reflexivity.
  rewrite append_cons, IH. reflexivity.
Qed.

Lemma length_drop (n : nat) (s : string) :
  String.length (drop n s) = (String.length s - n)%nat.
Proof. revert s. induction n as [|n IH]; intros [|c s]; cbn; try lia. apply IH. Qed.

Lemma split_on_from_text (cur s : string) :
  no_spaces (glued (split_on_from " " cur s)) = no_spaces cur +:+ no_spaces s.
Proof.
  revert cur. induction s as [|c s IH]; intros cur.
  - cbn. rewrite append_nil_r. reflexivity.
  - cbn [split_on_from no_spaces]. destruct (Ascii.eqb c " ") eqn:E.
    + change (cur :: split_on_from " " EmptyString s)
        with ([cur] ++ split_on_from " " EmptyString s).
      rewrite glued_app, no_spaces_append, IH. reflexivity.
    + rewrite IH, no_spaces_append. cbn [no_spaces]. rewrite E.
      rewrite append_assoc. reflexivity.
Qed.

(** What [_append_long_word] leaves: the chunks are the word, cut every
    [max_chars] characters. *)
Lemma long_word_loop_text (max_chars : nat) :
  (1 <= max_chars)%nat ->
  forall fuel at_start rest lines cur,
    (String.length rest <= fuel)%nat ->
    let '(lines', cur') := long_word_loop fuel max_chars at_start rest lines cur in
    glued lines' +:+ cur'
    = glued lines
      +:+ (if at_start then match rest with EmptyString => cur | _ => rest end
           else cur +:+ rest).
Proof.
  intros Hn. induction fuel as [|fuel IH]; intros at_start rest lines cur Hlen.
  - destruct rest; [|cbn in Hlen; lia]. cbn.
    destruct at_start; rewrite ?append_nil_r; reflexivity.
  - cbn [long_word_loop]. destruct rest as [|c rest].
    + destruct at_start; rewrite ?append_nil_r; reflexivity.
    + set (w := String c rest) in *.
      assert (Hd : (String.length (drop max_chars w) <= fuel)%nat).
      { rewrite length_drop. cbn in Hlen. unfold w. cbn. lia. }
      destruct at_start.
      * specialize (IH false (drop max_chars w) lines (Py.take max_chars w) Hd).
        destruct (long_word_loop fuel max_chars false _ lines _) as [l' c'].
        rewrite IH, take_drop. reflexivity.
      * specialize (IH false (drop max_chars w) (lines ++ [cur]) (Py.take max_chars w) Hd).
        destruct (long_word_loop fuel max_chars false _ (lines ++ [cur]) _) as [l' c'].
        rewrite IH, take_drop, glued_app, glued_one, append_assoc. reflexivity.
Qed.

Lemma long_word_loop_width (max_chars : nat) :
  forall fuel at_start rest lines cur,
    Forall (fun l => (String.length l <= max_chars)%nat) lines ->
    (String.length cur <= max_chars)%nat ->
    let '(lines', cur') := long_word_loop fuel max_chars at_start rest lines cur in
    Forall (fun l => (String.length l <= max_chars)%nat) lines'
    /\ (String.length cur' <= max_chars)%nat.
Proof.
  induction fuel as [|fuel IH]; intros at_start rest lines cur Hl Hc.
  - cbn. split; assumption.
  - cbn [long_word_loop]. destruct rest as [|c rest]; [split; assumption|].
    pose proof (length_take max_chars (String c rest)) as Ht.
    destruct at_start; apply IH; try assumption.
    apply Forall_app. split; [assumption|]. constructor; [assumption|constructor].
Qed.

Lemma truthy_false (s : string) : Py.truthy s = false -> s = EmptyString.
Proof. destruct s; [reflexivity|discriminate]. Qed.

Lemma wrap_word_text (max_chars : nat) (lines : list string) (current word : string) :
  (1 <= max_chars)%nat ->
  let '(lines', current') := wrap_word max_chars (lines, current) word in
  no_spaces (glued lines' +:+ current')
  = no_spaces (glued lines +:+ current) +:+ no_spaces word.
Proof.
  intros Hn. unfold wrap_word.
  destruct (Py.truthy current) eqn:Hcur; cbn [negb].
  - destruct (_ <=? max_chars)%nat.
    + rewrite !no_spaces_append. cbn [no_spaces Ascii.eqb Bool.eqb].
      rewrite append_nil_l, <- !append_assoc. reflexivity.
    + destruct (String.length word <=? max_chars)%nat eqn:Hw.
      * rewrite glued_app, glued_one, !no_spaces_append. reflexivity.
      * unfold _append_long_word.
        pose proof (long_word_loop_text max_chars Hn (String.length word) true word
                      (lines ++ [current]) EmptyString (Nat.le_refl _)) as H.
        destruct (long_word_loop _ _ _ _ _ _) as [l' c'].
        rewrite H, glued_app, glued_one, !no_spaces_append.
        destruct word; [|reflexivity]. rewrite append_nil_r. reflexivity.
  - apply truthy_false in Hcur. subst current.
    destruct (String.length word <=? max_chars)%nat eqn:Hw.
    + rewrite !no_spaces_append. cbn [no_spaces]. rewrite append_nil_r. reflexivity.
    + unfold _append_long_word.
      pose proof (long_word_loop_text max_chars Hn (String.length word) true word
                    lines EmptyString (Nat.le_refl _)) as H.
      destruct (long_word_loop _ _ _ _ _ _) as [l' c'].
      rewrite H, !no_spaces_append. cbn [no_spaces]. rewrite append_nil_r.
      destruct word; reflexivity.
Qed.

Lemma wrap_word_width (max_chars : nat) (lines : list string) (current word : string) :
  Forall (fun l => (String.length l <= max_chars)%nat) lines ->
  (String.length current <= max_chars)%nat ->
  let '(lines', current') := wrap_word max_chars (lines, current) word in
  Forall (fun l => (String.length l <= max_chars)%nat) lines'
  /\ (String.length current' <= max_chars)%nat.
Proof.
  intros Hl Hc. unfold wrap_word.
  assert (Hl' : Forall (fun l => (String.length l <= max_chars)%nat) (lines ++ [current])).
  { apply Forall_app. split; [assumption|]. constructor; [assumption|constructor]. }
  destruct (Py.truthy current); cbn [negb].
  - destruct (Nat.leb_spec (String.length (current +:+ " " +:+ word)) max_chars);
      [split; assumption|].
    destruct (Nat.leb_spec (String.length word) max_chars); [split; assumption|].
    apply long_word_loop_width; [assumption|cbn; lia].
  - destruct (Nat.leb_spec (String.length word) max_chars); [split; assumption|].
    apply long_word_loop_width; assumption.
Qed.

Lemma wrap_fold_text (max_chars : nat) (words : list string) :
  (1 <= max_chars)%nat ->
  forall lines current,
    let '(lines', current') := fold_left (wrap_word max_chars) words (lines, current) in
    no_spaces (glued lines' +:+ current')
    = no_spaces (glued lines +:+ current) +:+ no_spaces (glued words).
Proof.
  intros Hn. induction words as [|w words IH]; intros lines current.
  - cbn. rewrite append_nil_r. reflexivity.
  - cbn [fold_left].
    pose proof (wrap_word_text max_chars lines current w Hn) as Hw.
    destruct (wrap_word max_chars (lines, current) w) as [l1 c1].
    specialize (IH l1 c1).
    destruct (fold_left _ words (l1, c1)) as [l2 c2].
    rewrite IH, Hw. change (w :: words) with ([w] ++ words).
    rewrite glued_app, glued_one, !no_spaces_append, !append_assoc. reflexivity.
Qed.

Lemma wrap_fold_width (max_chars : nat) (words : list string) :
  forall lines current,
    Forall (fun l => (String.length l <= max_chars)%nat) lines ->
    (String.length current <= max_chars)%nat ->
    let '(lines', current') := fold_left (wrap_word max_chars) words (lines, current) in
    Forall (fun l => (String.length l <= max_chars)%nat) lines'
    /\ (String.length current' <= max_chars)%nat.
Proof.
  induction words as [|w words IH]; intros lines current Hl Hc.
  - cbn. split; assumption.
  - cbn [fold_left].
    pose proof (wrap_word_width max_chars lines current w Hl Hc) as Hw.
    destruct (wrap_word max_chars (lines, current) w) as [l1 c1].
    apply IH; apply Hw.
Qed.

Lemma glued_chars (s : string) : glued (chars s) = s.
Proof.
  induction s as [|c s IH]; [reflexivity|].
  cbn [chars]. change (String c EmptyString :: chars s) with ([String c EmptyString] ++ chars s).
  rewrite glued_app, IH. reflexivity.
Qed.

(** X1. No line returned by [_wrap_line_to_width] is longer than
    [max_chars], for every [max_chars] of at least one. *)
Theorem wrap_line_width (raw_line : string) (max_chars : Z) :
  1 <= max_chars ->
  Forall (fun line => Z.of_nat (String.length line) <= max_chars)
    (_wrap_line_to_width raw_line max_chars).
Proof.
  intros H1. unfold _wrap_line_to_width.
  destruct (Z.leb_spec max_chars 1) as [Hle|Hgt].
  - assert (max_chars = 1) by lia. subst max_chars.
    destruct (Py.truthy raw_line).
    + clear. induction raw_line as [|c s IH]; cbn [chars]; constructor;
        [cbn; lia|exact IH].
    + constructor; [cbn; lia|constructor].
  - pose proof (wrap_fold_width (Z.to_nat max_chars) (split_on " " raw_line)
                  [] EmptyString ltac:(constructor)) as H.
    destruct (fold_left _ _ _) as [lines current].
    destruct H as [Hl Hc]; [cbn; lia|].
    apply Forall_app. split.
    + eapply Forall_impl; [exact Hl|]. cbn. intros l Hlen. lia.
    + constructor; [|constructor].
      destruct (Py.truthy current); [lia|cbn; lia].
Qed.

Lemma wrap_line_width_witness :
  Forall (fun line => Z.of_nat (String.length line) <= 7)
    (_wrap_line_to_width "open the configuration  panel" 7).
Proof. apply (wrap_line_width "open the configuration  panel" 7). lia. Defined.

(** X2. [_wrap_line_to_width] never returns an empty list and loses no
    character: the lines, read one after the other, are the input line up
    to its spaces. *)
Theorem wrap_line_keeps_text (raw_line : string) (max_chars : Z) :
  _wrap_line_to_width raw_line max_chars <> []
  /\ no_spaces (glued (_wrap_line_to_width raw_line max_chars)) = no_spaces raw_line.
Proof.
  unfold _wrap_line_to_width.
  destruct (Z.leb_spec max_chars 1) as [Hle|Hgt].
  - destruct raw_line as [|c s]; cbn [Py.truthy]; [split; [discriminate|reflexivity]|].
    split; [discriminate|]. rewrite glued_chars. reflexivity.
  - pose proof (wrap_fold_text (Z.to_nat max_chars) (split_on " " raw_line)
                  ltac:(lia) [] EmptyString) as H.
    destruct (fold_left _ _ _) as [lines current].
    split; [destruct lines; discriminate|].
    rewrite glued_app, glued_one.
    replace (if Py.truthy current then current else EmptyString) with current
      by (destruct current; reflexivity).
    rewrite H. unfold split_on. rewrite split_on_from_text. reflexivity.
Qed.

(** ** Geometry of the text panels *)

Import TextCache.

Lemma py_max_spec (a b : Q) :
  (a <= py_max a b)%Q /\ (b <= py_max a b)%Q
  /\ ((py_max a b == a)%Q \/ (py_max a b == b)%Q).
Proof.
  unfold py_max. destruct (Qlt_le_dec a b);
    (split; [lra|split; [lra|]]); [right|left]; reflexivity.
Qed.

Lemma py_min_spec (a b : Q) :
  (py_min a b <= a)%Q /\ (py_min a b <= b)%Q
  /\ ((py_min a b == a)%Q \/ (py_min a b == b)%Q).
Proof.
  unfold py_min. destruct (Qlt_le_dec b a);
    (split; [lra|split; [lra|]]); [right|left]; reflexivity.
Qed.

(** [_clamp] stays between its bounds when they are in order. *)
Lemma clamp_range (value low high : Q) :
  (low <= high)%Q ->
  (low <= TextLayout._clamp value low high <= high)%Q.
Proof.
  intros H. unfold TextLayout._clamp.
  destruct (py_min_spec high value) as (H1 & H2 & H3).
  destruct (py_max_spec low (py_min high value)) as (H4 & H5 & [H6|H6]); lra.
Qed.

Lemma inject_Z_le (a b : Z) : a <= b -> (inject_Z a <= inject_Z b)%Q.
Proof. intros H. rewrite <- Zle_Qle. exact H. Qed.

(** X3. The rectangle computed by [_anchor_to_rect] has the panel's size
    and never starts left of or above the viewport; when the panel fits
    into the viewport the whole rectangle lies inside it, and at least 8
    pixels from each edge when the panel fits together with these
    margins. *)
Theorem anchor_to_rect_in_viewport (anchor_x anchor_y panel_width panel_height : Z)
    (align baseline : string) (viewport_width viewport_height : Z) :
  panel_width <= viewport_width ->
  panel_height <= viewport_height ->
  let '(_, _, (x0, y0, x1, y1)) :=
    _anchor_to_rect anchor_x anchor_y panel_width panel_height align baseline
      viewport_width viewport_height in
  (x1 == x0 + inject_Z panel_width)%Q
  /\ (y1 == y0 + inject_Z panel_height)%Q
  /\ (0 <= x0)%Q /\ (x1 <= inject_Z viewport_width)%Q
  /\ (0 <= y0)%Q /\ (y1 <= inject_Z viewport_height)%Q
  /\ (panel_width + 16 <= viewport_width ->
      (8 <= x0)%Q /\ (x1 <= inject_Z viewport_width - 8)%Q)
  /\ (panel_height + 16 <= viewport_height ->
      (8 <= y0)%Q /\ (y1 <= inject_Z viewport_height - 8)%Q).
Proof.
  intros Hw Hh. unfold _anchor_to_rect, _TEXT_VIEWPORT_MARGIN_PX.
  set (lft := if Py.eqb align "center" then _ else _).
  set (tp := if Py.eqb baseline "middle" then _ else _).
  set (hm := if viewport_width <? panel_width + 2 * 8 then 0 else 8).
  set (vm := if viewport_height <? panel_height + 2 * 8 then 0 else 8).
  assert (Hhm : 0 <= hm /\ hm <= viewport_width - panel_width - hm
                /\ (panel_width + 16 <= viewport_width -> hm = 8)).
  { unfold hm. destruct (Z.ltb_spec viewport_width (panel_width + 2 * 8)); lia. }
  assert (Hvm : 0 <= vm /\ vm <= viewport_height - panel_height - vm
                /\ (panel_height + 16 <= viewport_height -> vm = 8)).
  { unfold vm. destruct (Z.ltb_spec viewport_height (panel_height + 2 * 8)); lia. }
  clearbody hm vm lft tp.
  destruct Hhm as (Hh0 & Hh1 & Hh8), Hvm as (Hv0 & Hv1 & Hv8).
  rewrite (Z.max_l (viewport_width - panel_width - hm) hm) by lia.
  rewrite (Z.max_l (viewport_height - panel_height - vm) vm) by lia.
  pose proof (clamp_range lft (inject_Z hm) (inject_Z (viewport_width - panel_width - hm))
                (inject_Z_le _ _ Hh1)) as Cl.
  pose proof (clamp_range tp (inject_Z vm) (inject_Z (viewport_height - panel_height - vm))
                (inject_Z_le _ _ Hv1)) as Ct.
  set (cl := TextLayout._clamp lft _ _) in *.
  set (ct := TextLayout._clamp tp _ _) in *.
  clearbody cl ct.
  unfold Z.sub in Cl, Ct. rewrite !inject_Z_plus, !inject_Z_opp in Cl, Ct.
  pose proof (inject_Z_le _ _ Hh0) as Qh0. pose proof (inject_Z_le _ _ Hv0) as Qv0.
  change (inject_Z 0) with 0%Q in Qh0, Qv0.
  split; [reflexivity|]. split; [reflexivity|].
  split; [lra|]. split; [lra|]. split; [lra|]. split; [lra|].
  split.
  - intros H. rewrite (Hh8 H) in Cl. change (inject_Z 8) with 8%Q in Cl. lra.
  - intros H. rewrite (Hv8 H) in Ct. change (inject_Z 8) with 8%Q in Ct. lra.
Qed.

Lemma anchor_to_rect_in_viewport_witness :
  let '(_, _, (x0, y0, x1, y1)) :=
    _anchor_to_rect 990 5 200 80 "center" "bottom" 1000 700 in
  (x1 == x0 + inject_Z 200)%Q
  /\ (y1 == y0 + inject_Z 80)%Q
  /\ (0 <= x0)%Q /\ (x1 <= inject_Z 1000)%Q
  /\ (0 <= y0)%Q /\ (y1 <= inject_Z 700)%Q
  /\ (200 + 16 <= 1000 -> (8 <= x0)%Q /\ (x1 <= inject_Z 1000 - 8)%Q)
  /\ (80 + 16 <= 700 -> (8 <= y0)%Q /\ (y1 <= inject_Z 700 - 8)%Q).
Proof. apply (anchor_to_rect_in_viewport 990 5 200 80 "center" "bottom" 1000 700); lia. Defined.

(** *** Overlap and overlap score *)

Lemma lt_bool_iff (x y : Q) : negb (Qle_bool y x) = true <-> (x < y)%Q.
Proof.
  destruct (Qle_bool y x) eqn:E; cbn.
  - apply Qle_bool_iff in E. split; [discriminate|lra].
  - split; [intros _|reflexivity]. apply Qnot_le_lt. intros H.
    apply Qle_bool_iff in H. congruence.
Qed.

Lemma rects_overlap_iff (al at_ ar ab bl bt br bb : Q) :
  _rects_overlap (al, at_, ar, ab) (bl, bt, br, bb) _TEXT_OVERLAP_BUFFER_PX = true
  <-> (al < br /\ bl < ar /\ at_ < bb /\ bt < ab)%Q.
Proof.
  unfold _rects_overlap, _TEXT_OVERLAP_BUFFER_PX.
  rewrite !andb_true_iff, !lt_bool_iff.
  change (inject_Z 0) with 0%Q.
  split; intros H; repeat split; lra.
Qed.

Lemma intersection_area_nonneg (a b : Rect) : (0 <= _intersection_area a b)%Q.
Proof.
  destruct a as [[[al at_] ar] ab], b as [[[bl bt] br] bb].
  unfold _intersection_area.
  apply Qmult_le_0_compat; apply py_max_spec.
Qed.

(** Two rectangles that do not overlap have no common area; two proper
    rectangles that overlap have some. *)
Lemma intersection_area_zero (a b : Rect) :
  _rects_overlap a b _TEXT_OVERLAP_BUFFER_PX = false ->
  (_intersection_area a b == 0)%Q.
Proof.
  destruct a as [[[al at_] ar] ab], b as [[[bl bt] br] bb].
  intros H.
  assert (N : ~ (al < br /\ bl < ar /\ at_ < bb /\ bt < ab)%Q).
  { intros K. apply rects_overlap_iff in K. congruence. }
  unfold _intersection_area.
  set (w := (py_min ar br - py_max al bl)%Q).
  set (h := (py_min ab bb - py_max at_ bt)%Q).
  assert (Hw : (w <= 0)%Q \/ (h <= 0)%Q).
  { unfold w, h.
    destruct (py_min_spec ar br) as (m1 & m2 & _), (py_max_spec al bl) as (x1 & x2 & _).
    destruct (py_min_spec ab bb) as (n1 & n2 & _), (py_max_spec at_ bt) as (y1 & y2 & _).
    destruct (Qlt_le_dec al br); [|left; lra].
    destruct (Qlt_le_dec bl ar); [|left; lra].
    destruct (Qlt_le_dec at_ bb); [|right; lra].
    destruct (Qlt_le_dec bt ab); [|right; lra].
    exfalso. apply N. repeat split; assumption. }
  destruct Hw as [Hw|Hw].
  - assert (E : (py_max 0 w == 0)%Q).
    { unfold py_max. destruct (Qlt_le_dec 0 w); lra. }
    rewrite E. ring.
  - assert (E : (py_max 0 h == 0)%Q).
    { unfold py_max. destruct (Qlt_le_dec 0 h); lra. }
    rewrite E. ring.
Qed.

Lemma intersection_area_positive (a b : Rect) :
  proper a -> proper b ->
  _rects_overlap a b _TEXT_OVERLAP_BUFFER_PX = true ->
  (0 < _intersection_area a b)%Q.
Proof.
  destruct a as [[[al at_] ar] ab], b as [[[bl bt] br] bb].
  intros [Ha1 Ha2] [Hb1 Hb2] H. apply rects_overlap_iff in H as (H1 & H2 & H3 & H4).
  unfold _intersection_area.
  set (w := (py_min ar br - py_max al bl)%Q).
  set (h := (py_min ab bb - py_max at_ bt)%Q).
  assert (Hw : (0 < w)%Q).
  { unfold w. destruct (py_min_spec ar br) as (_ & _ & [E|E]),
      (py_max_spec al bl) as (_ & _ & [F|F]); lra. }
  assert (Hh : (0 < h)%Q).
  { unfold h. destruct (py_min_spec ab bb) as (_ & _ & [E|E]),
      (py_max_spec at_ bt) as (_ & _ & [F|F]); lra. }
  assert (Ew : (py_max 0 w == w)%Q) by (unfold py_max; destruct (Qlt_le_dec 0 w); lra).
  assert (Eh : (py_max 0 h == h)%Q) by (unfold py_max; destruct (Qlt_le_dec 0 h); lra).
  rewrite Ew, Eh. apply Qmult_lt_0_compat; assumption.
Qed.

Lemma overlap_score_from_shift (cache : Cache) (rect : Rect) (ig : option string) :
  forall s,
    (_overlap_score_from s cache rect ig
     == s + _overlap_score_from 0 cache rect ig)%Q
    /\ (0 <= _overlap_score_from 0 cache rect ig)%Q.
Proof.
  induction cache as [|[k r] rest IH]; intros s; cbn [_overlap_score_from].
  - split; lra.
  - destruct (ignored ig k); [apply IH|].
    pose proof (intersection_area_nonneg rect r) as Hn.
    destruct (IH (s + _intersection_area rect r)%Q) as [E1 _].
    destruct (IH (0 + _intersection_area rect r)%Q) as [E2 P].
    split; lra.
Qed.

(** X4. A rectangle that overlaps no cached panel has overlap score zero,
    and for proper rectangles the converse holds: the score used to rank
    the candidates vanishes exactly on the free ones. *)
Theorem overlap_score_zero (cache : Cache) (rect : Rect) (ignore_text_id : option string) :
  proper rect ->
  Forall (fun entry => proper (snd entry)) cache ->
  (_has_text_overlap cache rect ignore_text_id = false
   <-> (_overlap_score cache rect ignore_text_id == 0)%Q).
Proof.
  intros Hr Hc. unfold _overlap_score, _has_text_overlap.
  induction Hc as [|[k r] rest Hp Hrest IH]; cbn [existsb _overlap_score_from].
  - split; [reflexivity|reflexivity].
  - cbn [snd] in Hp. destruct (ignored ignore_text_id k); cbn [negb andb orb]; [exact IH|].
    destruct (overlap_score_from_shift rest rect ignore_text_id
                (0 + _intersection_area rect r)%Q) as [E P].
    pose proof (intersection_area_nonneg rect r) as Hn.
    destruct (_rects_overlap rect r _TEXT_OVERLAP_BUFFER_PX) eqn:O; cbn [orb].
    + pose proof (intersection_area_positive rect r Hr Hp O) as Hpos.
      split; [discriminate|]. intros Z. lra.
    + pose proof (intersection_area_zero rect r O) as Hz.
      rewrite IH. split; intros Z; lra.
Qed.

Lemma overlap_score_zero_witness :
  _has_text_overlap [("a", (0, 0, 100, 40)%Q); ("b", (0, 60, 100, 100)%Q)]
    (100, 40, 180, 60)%Q None = false
  <-> (_overlap_score [("a", (0, 0, 100, 40)%Q); ("b", (0, 60, 100, 100)%Q)]
         (100, 40, 180, 60)%Q None == 0)%Q.
Proof.
  apply (overlap_score_zero
           [("a", (0, 0, 100, 40)%Q); ("b", (0, 60, 100, 100)%Q)]
           (100, 40, 180, 60)%Q None).
  - split; reflexivity.
  - repeat constructor.
Defined.

(** *** Redrawing and forgetting a panel *)

Lemma has_text_overlap_dict_set (cache : Cache) (i : string) (r rect : Rect) :
  Py.truthy i = true ->
  _has_text_overlap (dict_set cache i r) rect (Some i)
  = _has_text_overlap cache rect (Some i).
Proof.
  intros Ht. unfold _has_text_overlap.
  assert (Hi : ignored (Some i) i = true).
  { unfold ignored, Py.eqb. rewrite Ht, String.eqb_refl. reflexivity. }
  induction cache as [|[k v] rest IH]; cbn [dict_set existsb].
  - rewrite Hi. reflexivity.
  - unfold Py.eqb at 1. destruct (String.eqb_spec k i) as [->|Hne]; cbn [existsb].
    + rewrite Hi. reflexivity.
    + rewrite IH. reflexivity.
Qed.

Lemma overlap_score_from_dict_set (cache : Cache) (i : string) (r rect : Rect) :
  Py.truthy i = true ->
  forall s,
    _overlap_score_from s (dict_set cache i r) rect (Some i)
    = _overlap_score_from s cache rect (Some i).
Proof.
  intros Ht.
  assert (Hi : ignored (Some i) i = true).
  { unfold ignored, Py.eqb. rewrite Ht, String.eqb_refl. reflexivity. }
  induction cache as [|[k v] rest IH]; intros s; cbn [dict_set _overlap_score_from].
  - rewrite Hi. reflexivity.
  - unfold Py.eqb at 1. destruct (String.eqb_spec k i) as [->|Hne];
      cbn [_overlap_score_from].
    + rewrite Hi. reflexivity.
    + destruct (ignored (Some i) k); apply IH.
Qed.

Lemma scan_offsets_dict_set (viewport : Z * Z) (cache : Cache) (i : string) (r : Rect)
    (ax ay pw ph : Z) (na nb : string) :
  Py.truthy i = true ->
  forall offsets b,
    scan_offsets viewport (dict_set cache i r) ax ay pw ph na nb (Some i) offsets b
    = scan_offsets viewport cache ax ay pw ph na nb (Some i) offsets b.
Proof.
  intros Ht. induction offsets as [|[dx dy] rest IH]; intros b; [reflexivity|].
  cbn [scan_offsets]. rewrite has_text_overlap_dict_set by exact Ht.
  unfold _overlap_score. rewrite overlap_score_from_dict_set by exact Ht.
  destruct (negb _); [reflexivity|].
  destruct b as [[best best_score] best_distance].
  destruct (_ || _); apply IH.
Qed.

Lemma scan_rings_dict_set (viewport : Z * Z) (cache : Cache) (i : string) (r : Rect)
    (ax ay pw ph : Z) (na nb : string) :
  Py.truthy i = true ->
  forall rs b,
    scan_rings viewport (dict_set cache i r) ax ay pw ph na nb (Some i) rs b
    = scan_rings viewport cache ax ay pw ph na nb (Some i) rs b.
Proof.
  intros Ht. induction rs as [|ring rest IH]; intros b; [reflexivity|].
  cbn [scan_rings]. rewrite scan_offsets_dict_set by exact Ht.
  destruct (scan_offsets _ _ _ _ _ _ _ _ _ _ _); [reflexivity|apply IH].
Qed.

Lemma dict_set_twice (cache : Cache) (i : string) (r r' : Rect) :
  dict_set (dict_set cache i r) i r' = dict_set cache i r'.
Proof.
  induction cache as [|[k v] rest IH]; cbn [dict_set].
  - unfold Py.eqb. rewrite String.eqb_refl. reflexivity.
  - destruct (Py.eqb k i) eqn:E; cbn [dict_set]; rewrite E; [reflexivity|].
    rewrite IH. reflexivity.
Qed.

(** X5. Drawing a text again under the same explicit id, with the same
    arguments, changes nothing: the panel is ranked against the other
    panels only, so it gets the anchor it had and the cache stays as it
    was after the first drawing. *)
Theorem create_text_redraw_stable (estimate : string -> Z -> Z * Z)
    (viewport : Z * Z) (cache : Cache) (fresh_id fresh_id' : string)
    (x y : Z) (text : string) (text_id : string) (font_size : Z)
    (align baseline : option string) :
  Py.truthy text_id = true ->
  let '(anchor, created_id, cache') :=
    _create_text_non_overlapping estimate viewport cache fresh_id x y text
      (Some text_id) font_size align baseline in
  _create_text_non_overlapping estimate viewport cache' fresh_id' x y text
    (Some text_id) font_size align baseline
  = (anchor, created_id, cache').
Proof.
  intros Ht. unfold _create_text_non_overlapping.
  unfold Py.or_else, Py.otruthy. rewrite Ht. cbn [default from_option].
  unfold Datatypes.id.
  set (fs := if font_size =? 0 then 18 else font_size).
  assert (R : forall r,
             _resolve_non_overlapping_anchor estimate viewport (dict_set cache text_id r)
               x y text fs align baseline (Some text_id)
             = _resolve_non_overlapping_anchor estimate viewport cache
                 x y text fs align baseline (Some text_id)).
  { intros r. unfold _resolve_non_overlapping_anchor.
    destruct (estimate text fs) as [pw ph].
    rewrite has_text_overlap_dict_set by exact Ht.
    destruct (negb _); [reflexivity|].
    rewrite scan_rings_dict_set by exact Ht.
    unfold _overlap_score. rewrite overlap_score_from_dict_set by exact Ht.
    reflexivity. }
  destruct (_resolve_non_overlapping_anchor estimate viewport cache x y text fs
              align baseline (Some text_id)) as [[rx ry] rect] eqn:E.
  rewrite R, dict_set_twice. reflexivity.
Qed.

Lemma create_text_redraw_stable_witness :
  let '(anchor, created_id, cache') :=
    _create_text_non_overlapping (fixed_panel 120 40) (1000, 700)
      [("first", (8, 8, 128, 48)%Q)] "text_0a1b2c3d" 10 10 "hello"
      (Some "second") 18 None None in
  _create_text_non_overlapping (fixed_panel 120 40) (1000, 700) cache'
    "text_4e5f6a7b" 10 10 "hello" (Some "second") 18 None None
  = (anchor, created_id, cache').
Proof.
  apply (create_text_redraw_stable (fixed_panel 120 40) (1000, 700)
           [("first", (8, 8, 128, 48)%Q)] "text_0a1b2c3d" "text_4e5f6a7b"
           10 10 "hello" "second" 18 None None).
  reflexivity.
Defined.

Lemma dict_pop_set_fresh (cache : Cache) (i : string) (r : Rect) :
  ~ In i (List.map fst cache) ->
  dict_pop (dict_set cache i r) i = cache.
Proof.
  induction cache as [|[k v] rest IH]; cbn [dict_set dict_pop List.map fst In]; intros H.
  - unfold Py.eqb. rewrite String.eqb_refl. reflexivity.
  - destruct (Py.eqb k i) eqn:E.
    + exfalso. apply H. left. apply String.eqb_eq. exact E.
    + cbn [dict_pop]. rewrite E.
      rewrite IH; [reflexivity|]. intros Hin. apply H. right. exact Hin.
Qed.

(** X6. Destroying a text that was created under an id not in use
    restores the rectangle cache exactly: the next texts are placed as if
    it had never been drawn. *)
Theorem destroy_text_undoes_create (estimate : string -> Z -> Z * Z)
    (viewport : Z * Z) (cache : Cache) (fresh_id : string)
    (x y : Z) (text : string) (text_id : option string) (font_size : Z)
    (align baseline : option string) :
  ~ In (resolved_text_id text_id fresh_id) (List.map fst cache) ->
  let '(_, created_id, cache') :=
    _create_text_non_overlapping estimate viewport cache fresh_id x y text
      text_id font_size align baseline in
  created_id = resolved_text_id text_id fresh_id
  /\ _destroy_text_with_layout_reset created_id cache' = cache.
Proof.
  intros Hfresh. unfold _create_text_non_overlapping.
  fold (resolved_text_id text_id fresh_id).
  destruct (_resolve_non_overlapping_anchor _ _ _ _ _ _ _ _ _ _) as [[rx ry] rect].
  split; [reflexivity|].
  unfold _destroy_text_with_layout_reset. apply dict_pop_set_fresh. exact Hfresh.
Qed.

Lemma destroy_text_undoes_create_witness :
  let '(_, created_id, cache') :=
    _create_text_non_overlapping (fixed_panel 120 40) (1000, 700)
      [("first", (8, 8, 128, 48)%Q)] "text_0a1b2c3d" 10 10 "hello"
      None 18 None None in
  created_id = resolved_text_id None "text_0a1b2c3d"
  /\ _destroy_text_with_layout_reset created_id cache'
     = [("first", (8, 8, 128, 48)%Q)].
Proof.
  apply (destroy_text_undoes_create (fixed_panel 120 40) (1000, 700)
           [("first", (8, 8, 128, 48)%Q)] "text_0a1b2c3d" 10 10 "hello"
           None 18 None None).
  cbn. intros [H|[]]. discriminate.
Defined.

(** ** Bounding boxes of the vision tools *)

Import BBox.

Lemma bbox_clamp_range (value low high : Q) :
  (low <= high)%Q -> (low <= BBox._clamp value low high <= high)%Q.
Proof. apply clamp_range. Qed.

Lemma bbox_clamp_mono (a b low high : Q) :
  (a <= b)%Q -> (BBox._clamp a low high <= BBox._clamp b low high)%Q.
Proof.
  intros H. unfold BBox._clamp, py_max, py_min.
  repeat destruct (Qlt_le_dec _ _); lra.
Qed.

Lemma sorted2_spec (a b : Q) :
  let '(x, y) := sorted2 a b in
  (x <= y)%Q /\ ((x = a /\ y = b) \/ (x = b /\ y = a)).
Proof.
  unfold sorted2. destruct (Qlt_le_dec b a); split; try lra; [right|left]; split; reflexivity.
Qed.

Lemma Zmax_low (w : Z) : (0 <= inject_Z (Z.max (w - 1) 0))%Q /\ (1 <= inject_Z (Z.max w 1))%Q.
Proof.
  split.
  - change 0%Q with (inject_Z 0). rewrite <- Zle_Qle. lia.
  - change 1%Q with (inject_Z 1). rewrite <- Zle_Qle. lia.
Qed.

(** The clamped box is ordered and lies in the frame. *)
Lemma clamped_box_spec (width height : Z) (ymin xmin ymax xmax : Q) :
  let '(l, t, r, b) := clamped_box width height ymin xmin ymax xmax in
  (0 <= l <= inject_Z (Z.max (width - 1) 0))%Q
  /\ (1 <= r <= inject_Z (Z.max width 1))%Q
  /\ (0 <= t <= inject_Z (Z.max (height - 1) 0))%Q
  /\ (1 <= b <= inject_Z (Z.max height 1))%Q
  /\ (l <= r)%Q /\ (t <= b)%Q.
Proof.
  unfold clamped_box.
  pose proof (sorted2_spec (_to_pixels xmin width) (_to_pixels xmax width)) as Sx.
  pose proof (sorted2_spec (_to_pixels ymin height) (_to_pixels ymax height)) as Sy.
  destruct (sorted2 (_to_pixels xmin width) _) as [l r].
  destruct (sorted2 (_to_pixels ymin height) _) as [t b].
  cbn [fst snd].
  destruct Sx as [Sx _], Sy as [Sy _].
  destruct (Zmax_low width) as [W0 W1], (Zmax_low height) as [H0 H1].
  pose proof (bbox_clamp_range l 0 _ W0). pose proof (bbox_clamp_range r 1 _ W1).
  pose proof (bbox_clamp_range t 0 _ H0). pose proof (bbox_clamp_range b 1 _ H1).
  assert (M : forall (a c : Q) (e : Z), (a <= c)%Q ->
            (BBox._clamp a 0 (inject_Z (Z.max (e - 1) 0))
             <= BBox._clamp c 1 (inject_Z (Z.max e 1)))%Q).
  { intros a c e Hac.
    assert (E : (inject_Z (Z.max (e - 1) 0) <= inject_Z (Z.max e 1))%Q)
      by (rewrite <- Zle_Qle; lia).
    unfold BBox._clamp, py_max, py_min.
    repeat destruct (Qlt_le_dec _ _); lra. }
  repeat split; try tauto; apply M; assumption.
Qed.

(** X7. The screen point computed by [_bbox_center_to_screen_coords] lies
    inside the captured frame: at least half a pixel from its left and top
    edge and from the right and bottom edge of a frame of at least one
    pixel, whatever the bounding box is; the call fails only when no
    capture context is available. *)
Theorem bbox_center_in_frame (context captured : option CaptureContext)
    (ymin xmin ymax xmax : Q) :
  match _bbox_center_to_screen_coords context captured ymin xmin ymax xmax with
  | None => context = None /\ captured = None
  | Some (x, y) =>
      exists c,
        current_context context captured = Some c
        /\ let w := Z.max (or_size (logical_width c) (BBox.width c)) 1 in
           let h := Z.max (or_size (logical_height c) (BBox.height c)) 1 in
           (offset_x c + (1 # 2) <= x <= offset_x c + inject_Z w - (1 # 2))%Q
           /\ (offset_y c + (1 # 2) <= y <= offset_y c + inject_Z h - (1 # 2))%Q
  end.
Proof.
  unfold _bbox_center_to_screen_coords.
  destruct (current_context context captured) as [c|] eqn:E.
  - set (w := or_size (logical_width c) (BBox.width c)).
    set (h := or_size (logical_height c) (BBox.height c)).
    pose proof (clamped_box_spec w h ymin xmin ymax xmax) as B.
    destruct (clamped_box w h ymin xmin ymax xmax) as [[[l t] r] b].
    destruct B as (Hl & Hr & Ht & Hb & _).
    exists c. split; [reflexivity|]. cbv zeta.
    assert (Ew : (inject_Z (Z.max (w - 1) 0) == inject_Z (Z.max w 1) - 1)%Q).
    { destruct (Z.le_gt_cases w 0).
      - rewrite Z.max_r, Z.max_r by lia. reflexivity.
      - rewrite Z.max_l, Z.max_l by lia. unfold Z.sub.
        rewrite inject_Z_plus, inject_Z_opp. reflexivity. }
    assert (Eh : (inject_Z (Z.max (h - 1) 0) == inject_Z (Z.max h 1) - 1)%Q).
    { destruct (Z.le_gt_cases h 0).
      - rewrite Z.max_r, Z.max_r by lia. reflexivity.
      - rewrite Z.max_l, Z.max_l by lia. unfold Z.sub.
        rewrite inject_Z_plus, inject_Z_opp. reflexivity. }
    rewrite Ew in Hl. rewrite Eh in Ht. fold w h.
    clear Ew Eh.
    set (W := inject_Z (Z.max w 1)) in *. set (H := inject_Z (Z.max h 1)) in *.
    clearbody W H.
    assert (Ex : (l + (r - l) / 2 == (1 # 2) * l + (1 # 2) * r)%Q) by field.
    assert (Ey : (t + (b - t) / 2 == (1 # 2) * t + (1 # 2) * b)%Q) by field.
    set (mx := (l + (r - l) / 2)%Q) in *. set (my := (t + (b - t) / 2)%Q) in *.
    clearbody mx my. split; split; lra.
  - unfold current_context in E. destruct context; [discriminate|].
    split; [reflexivity|exact E].
Qed.

Lemma py_max_zero (x : Q) : (0 <= py_max x 0)%Q /\ (x <= py_max x 0)%Q
  /\ ((0 <= x)%Q -> (py_max x 0 == x)%Q).
Proof. unfold py_max. destruct (Qlt_le_dec x 0); repeat split; lra. Qed.

Lemma py_max_zero_mono (x y : Q) : (x <= y)%Q -> (py_max x 0 <= py_max y 0)%Q.
Proof. intros H. unfold py_max. repeat destruct (Qlt_le_dec _ _); lra. Qed.

(** X9. [_should_force_zoom] is downward closed: when a target forces the
    precision zoom, so does every target that is at most as wide and at
    most as high; in particular every target with an empty or negative
    extent does. *)
Theorem should_force_zoom_smaller (width_px height_px width_px' height_px' : Q) :
  (width_px' <= width_px)%Q ->
  (height_px' <= height_px)%Q ->
  _should_force_zoom width_px height_px = true ->
  _should_force_zoom width_px' height_px' = true.
Proof.
  intros Hw Hh. unfold _should_force_zoom.
  pose proof (py_max_zero_mono _ _ Hw) as Mw. pose proof (py_max_zero_mono _ _ Hh) as Mh.
  destruct (py_max_zero width_px') as (W0 & _ & _), (py_max_zero height_px') as (H0 & _ & _).
  set (w := py_max width_px 0) in *. set (h := py_max height_px 0) in *.
  set (w' := py_max width_px' 0) in *. set (h' := py_max height_px' 0) in *.
  clearbody w h w' h'.
  rewrite !orb_true_iff, !andb_true_iff, !Qle_bool_iff.
  intros [[A B]|A].
  - left. split; lra.
  - right. apply Qle_trans with (w * h)%Q; [|exact A].
    apply Qle_trans with (w' * h)%Q.
    + rewrite (Qmult_comm w' h'), (Qmult_comm w' h). apply Qmult_le_compat_r; assumption.
    + apply Qmult_le_compat_r; lra.
Qed.

Lemma should_force_zoom_smaller_witness :
  _should_force_zoom 120 100 = true /\ _should_force_zoom 30 (-5) = true.
Proof.
  assert (H : _should_force_zoom 120 100 = true) by reflexivity.
  split; [exact H|].
  apply (should_force_zoom_smaller 120 100 30 (-5)); [lra|lra|exact H].
Defined.

(** ** The vision engine: batches, click loops and status texts *)

Import LoopGuard.

(** X11. Normalising a batch of function calls a second time changes
    nothing: what [_normalize_function_call_batch] returns is already a
    batch it lets through unchanged. *)
Theorem normalize_batch_idempotent (function_calls : list FunctionCall) :
  _normalize_function_call_batch (_normalize_function_call_batch function_calls)
  = _normalize_function_call_batch function_calls.
Proof.
  destruct function_calls as [|first [|second rest]]; [reflexivity|reflexivity|].
  cbn [_normalize_function_call_batch].
  destruct (is_complete first) eqn:C1; [reflexivity|].
  destruct (is_positioning first) eqn:P1; cbn [andb].
  - destruct (is_click second) eqn:K2.
    + destruct rest as [|third rest].
      * cbn [firstn _normalize_function_call_batch]. rewrite C1, P1, K2. reflexivity.
      * destruct (is_complete third) eqn:C3.
        -- cbn [firstn _normalize_function_call_batch]. rewrite C1, P1, K2, C3. reflexivity.
        -- cbn [firstn _normalize_function_call_batch]. rewrite C1, P1, K2. reflexivity.
    + destruct (is_click first && is_complete second) eqn:KC; [|reflexivity].
      cbn [firstn _normalize_function_call_batch]. rewrite C1, P1, K2, KC. reflexivity.
  - destruct (is_click first && is_complete second) eqn:KC; [|reflexivity].
    cbn [firstn _normalize_function_call_batch]. rewrite C1, P1, KC. reflexivity.
Qed.

(** *** The click-loop detector *)

Section DetectorFacts.

Context {Sig : Type} `{EqDecision Sig}.

Lemma observe_cycles (task : string) (position click : Action Sig) :
  positions position = true ->
  clicks click = true ->
  forall k j d,
    (_last_click_cycle_signature d = Some (a_signature position, a_signature click)
     /\ _repeated_click_cycle_count d = j)
    \/ (_last_click_cycle_signature d <> Some (a_signature position, a_signature click)
        /\ j = 0%nat) ->
    fst (observe task (cycles position click k) d)
    = flat_map
        (fun i => [false;
                   (CLICK_CYCLE_LOOP_STOP_THRESHOLD <=? i)%nat
                   && negb (_task_expects_repeated_clicks task)])
        (seq (S j) k).
Proof.
  intros Hp Hc. unfold clicks in Hc. apply andb_prop in Hc as [Hc1 Hc2].
  apply negb_true_iff in Hc1. unfold positions in Hp, Hc1.
  induction k as [|k IH]; intros j d Hd; [reflexivity|].
  cbn [cycles observe seq flat_map app].
  unfold _register_action_and_detect_click_loop at 1. rewrite Hp.
  unfold _register_action_and_detect_click_loop at 1.
  cbn [_pending_position_signature _last_click_cycle_signature
       _repeated_click_cycle_count].
  rewrite Hc1, Hc2.
  set (cyc := (a_signature position, a_signature click)) in *.
  destruct (decide (Some cyc = _last_click_cycle_signature d)) as [E|N].
  - destruct Hd as [[_ Hj]|[Hn _]]; [|exfalso; apply Hn; symmetry; exact E].
    cbn [_repeated_click_cycle_count]. rewrite Hj.
    specialize (IH (S j)
      {| _pending_position_signature := Some (a_signature position);
         _last_click_cycle_signature := _last_click_cycle_signature d;
         _repeated_click_cycle_count := S j |}).
    destruct (observe task (cycles position click k) _) as [stops d2].
    cbn [fst] in *. rewrite IH; [reflexivity|].
    left. split; [symmetry; exact E|reflexivity].
  - destruct Hd as [[Hl _]|[_ Hj]]; [exfalso; apply N; symmetry; exact Hl|].
    cbn [_repeated_click_cycle_count]. subst j.
    specialize (IH 1%nat
      {| _pending_position_signature := Some (a_signature position);
         _last_click_cycle_signature := Some cyc;
         _repeated_click_cycle_count := 1 |}).
    destruct (observe task (cycles position click k) _) as [stops d2].
    cbn [fst] in *. rewrite IH; [reflexivity|].
    left. split; reflexivity.
Qed.

(** X12. Starting from a new engine, a positioning followed by a click,
    repeated with the same two signatures, makes the detector answer
    [True] exactly at the fourth and every later click, and only when the
    task does not ask for repeated clicks; it never answers [True] to the
    positioning. *)
Theorem click_loop_detected (task : string) (position click : Action Sig) (k : nat) :
  positions position = true ->
  clicks click = true ->
  fst (observe task (cycles position click k) fresh_detector)
  = flat_map
      (fun i => [false;
                 (CLICK_CYCLE_LOOP_STOP_THRESHOLD <=? i)%nat
                 && negb (_task_expects_repeated_clicks task)])
      (seq 1 k).
Proof.
  intros Hp Hc. apply (observe_cycles task position click Hp Hc k 0%nat).
  right. split; [discriminate|reflexivity].
Qed.

Lemma register_bound (task : string) (a : Action Sig) (d : Detector Sig) (n : nat) :
  (_repeated_click_cycle_count d <= n)%nat ->
  let step :=
    _register_action_and_detect_click_loop task (a_name a) (a_signature a)
      (a_click_type a) d in
  let n1 := if positions a then n else if clicks a then S n else 0%nat in
  (_repeated_click_cycle_count (snd step) <= n1)%nat
  /\ (fst step = true ->
      (CLICK_CYCLE_LOOP_STOP_THRESHOLD <= n1)%nat
      /\ _task_expects_repeated_clicks task = false
      /\ clicks a = true).
Proof.
  intros Hn. cbv zeta.
  unfold _register_action_and_detect_click_loop, clicks, positions, fresh_detector.
  destruct (VisionBatch.mem (a_name a) VisionBatch.POSITIONING_TOOLS);
    cbn [negb andb fst snd _repeated_click_cycle_count].
  - split; [exact Hn|discriminate].
  - destruct (Py.otruthy (a_click_type a));
      cbn [fst snd _repeated_click_cycle_count]; [|split; [lia|discriminate]].
    destruct (_pending_position_signature d) as [pending|];
      cbn [fst snd]; [|split; [lia|discriminate]].
    destruct (decide (Some (pending, a_signature a) = _last_click_cycle_signature d));
      cbn [fst snd _repeated_click_cycle_count].
    + split; [lia|]. intros H1. apply andb_prop in H1 as [H1 H2].
      apply Nat.leb_le in H1. apply negb_true_iff in H2.
      split; [lia|]. split; [exact H2|reflexivity].
    + split; [lia|]. intros H1. apply andb_prop in H1 as [H1 H2].
      apply Nat.leb_le in H1. apply negb_true_iff in H2.
      split; [lia|]. split; [exact H2|reflexivity].
Qed.

Lemma observe_bound (task : string) (actions : list (Action Sig)) :
  forall d n,
    (_repeated_click_cycle_count d <= n)%nat ->
    (_repeated_click_cycle_count (snd (observe task actions d))
     <= clicks_since_reset actions n)%nat.
Proof.
  induction actions as [|a rest IH]; intros d n Hn; [exact Hn|].
  cbn [observe clicks_since_reset].
  destruct (register_bound task a d n Hn) as [Hc _].
  destruct (_register_action_and_detect_click_loop task (a_name a) (a_signature a)
              (a_click_type a) d) as [stop d1].
  cbn [snd] in Hc.
  assert (K := IH d1 _ Hc).
  destruct (observe task rest d1) as [stops d2]. cbn [snd] in *.
  destruct (positions a), (clicks a); exact K.
Qed.

Lemma clicks_since_reset_last (actions : list (Action Sig)) (a : Action Sig) :
  forall n,
    clicks_since_reset (actions ++ [a]) n
    = if positions a then clicks_since_reset actions n
      else if clicks a then S (clicks_since_reset actions n)
      else 0%nat.
Proof.
  induction actions as [|b rest IH]; intros n; cbn [app clicks_since_reset].
  - reflexivity.
  - destruct (positions b); [apply IH|]. destruct (clicks b); apply IH.
Qed.

(** X13. Whatever actions a new engine has seen, the detector answers
    [True] to the next action only if that action is a click, the task
    does not ask for repeated clicks and at least four clicks were made
    since the last action that was neither a click nor a positioning. *)
Theorem click_loop_needs_four (task : string) (actions : list (Action Sig))
    (a : Action Sig) :
  fst (_register_action_and_detect_click_loop task (a_name a) (a_signature a)
         (a_click_type a) (snd (observe task actions fresh_detector))) = true ->
  clicks a = true
  /\ _task_expects_repeated_clicks task = false
  /\ (CLICK_CYCLE_LOOP_STOP_THRESHOLD <= clicks_since_reset (actions ++ [a]) 0)%nat.
Proof.
  intros H.
  pose proof (observe_bound task actions fresh_detector 0%nat (Nat.le_refl _)) as B.
  destruct (register_bound task a _ _ B) as [_ K].
  destruct (K H) as (K1 & K2 & K3).
  split; [exact K3|]. split; [exact K2|].
  rewrite clicks_since_reset_last.
  destruct (positions a); [exact K1|]. rewrite K3 in *. exact K1.
Qed.

End DetectorFacts.

Lemma click_loop_detected_witness :
  fst (observe light_mode_task (cycles go_to_light_mode click_light_mode 5)
         fresh_detector)
  = flat_map
      (fun i => [false;
                 (CLICK_CYCLE_LOOP_STOP_THRESHOLD <=? i)%nat
                 && negb (_task_expects_repeated_clicks light_mode_task)])
      (seq 1 5).
Proof.
  apply (click_loop_detected light_mode_task go_to_light_mode click_light_mode 5);
    reflexivity.
Defined.

Lemma click_loop_needs_four_witness :
  clicks click_light_mode = true
  /\ _task_expects_repeated_clicks light_mode_task = false
  /\ (CLICK_CYCLE_LOOP_STOP_THRESHOLD
      <= clicks_since_reset
           ((cycles go_to_light_mode click_light_mode 3 ++ [go_to_light_mode])
            ++ [click_light_mode]) 0)%nat.
Proof.
  apply (click_loop_needs_four light_mode_task
           (cycles go_to_light_mode click_light_mode 3 ++ [go_to_light_mode])
           click_light_mode).
  vm_compute. reflexivity.
Defined.

(** *** Status texts *)

Lemma overlay_after_app (a b : list UiCall) :
  forall bubble cursor,
    overlay_after (a ++ b) bubble cursor
    = match overlay_after a bubble cursor with
      | Some (bubble', cursor') => overlay_after b bubble' cursor'
      | None => None
      end.
Proof.
  induction a as [|c a IH]; intros bubble cursor; [reflexivity|].
  cbn [app overlay_after].
  destruct c, bubble, cursor; try reflexivity; try apply IH;
    destruct (decide _); try reflexivity; apply IH.
Qed.

(** X14. Whatever sequence of [_set_status] and [_hide_statuses] calls the
    engine makes, the messages it sends fit the overlay: a status is shown
    only when none is visible, updated or hidden only when one is, and
    never updated with the text already shown; afterwards the status bubble
    and the cursor label both show [_last_status_text], which is set
    exactly when [_status_visible] is. *)
Theorem status_messages_fit (ops : list StatusOp) :
  let s := fold_left apply_op ops initial_status in
  overlay_after (sent s) None None = Some (_last_status_text s, _last_status_text s)
  /\ (_status_visible s = true <-> is_Some (_last_status_text s)).
Proof.
  cbv zeta.
  assert (G : forall s,
             (overlay_after (sent s) None None
              = Some (_last_status_text s, _last_status_text s)
              /\ (_status_visible s = true <-> is_Some (_last_status_text s))) ->
             overlay_after (sent (fold_left apply_op ops s)) None None
             = Some (_last_status_text (fold_left apply_op ops s),
                     _last_status_text (fold_left apply_op ops s))
             /\ (_status_visible (fold_left apply_op ops s) = true
                 <-> is_Some (_last_status_text (fold_left apply_op ops s)))).
  { induction ops as [|op ops IH]; intros s Hs; [exact Hs|].
    cbn [fold_left]. apply IH. destruct Hs as [Ho Hv].
    destruct op as [text|delay_ms]; cbn [apply_op].
    - unfold _set_status.
      destruct (decide (Some text = _last_status_text s)) as [E|N]; [split; assumption|].
      destruct (_status_visible s) eqn:V; cbn [negb sent _last_status_text _status_visible].
      + destruct (proj1 Hv eq_refl) as [old Hold].
        rewrite overlay_after_app, Ho, Hold. cbn [overlay_after].
        assert (old <> text) by congruence.
        destruct (decide (old = text)); [contradiction|].
        split; [reflexivity|]. split; [intros _; eexists; reflexivity|reflexivity].
      + assert (Hn : _last_status_text s = None).
        { destruct (_last_status_text s) eqn:L; [|reflexivity].
          assert (K : is_Some (Some s0)) by (eexists; reflexivity).
          apply Hv in K. discriminate. }
        rewrite overlay_after_app, Ho, Hn. cbn [overlay_after].
        split; [reflexivity|]. split; [intros _; eexists; reflexivity|reflexivity].
    - unfold _hide_statuses.
      destruct (_status_visible s) eqn:V; cbn [negb sent _last_status_text _status_visible];
        [|split; [exact Ho|rewrite V; exact Hv]].
      destruct (proj1 Hv eq_refl) as [old Hold].
      rewrite overlay_after_app, Ho, Hold. cbn [overlay_after].
      split; [reflexivity|]. split; [discriminate|]. intros [x Hx]. discriminate. }
  apply G. cbn. split; [reflexivity|]. split; [discriminate|]. intros [x Hx]. discriminate.
Qed.

(** ** Ports and managed background processes of the CLI agent *)

Import Background.

(** *** Extracted ports *)

Lemma insert_port_in (p x : Z) (l : list Z) :
  In x (insert_port p l) <-> x = p \/ In x l.
Proof.
  induction l as [|q rest IH]; cbn [insert_port].
  - cbn. intuition.
  - destruct (Z.ltb_spec p q); [cbn; intuition|].
    destruct (Z.eqb_spec p q) as [->|]; [cbn; intuition|].
    cbn [In]. rewrite IH. intuition.
Qed.

Lemma increasing_cons (a : Z) (l : list Z) :
  increasing (a :: l) = true <-> (forall x, In x l -> a < x) /\ increasing l = true.
Proof.
  revert a. induction l as [|b rest IH]; intros a.
  - cbn. intuition.
  - change (increasing (a :: b :: rest)) with ((a <? b) && increasing (b :: rest)).
    rewrite andb_true_iff, Z.ltb_lt. split.
    + intros [Hab Hr]. split; [|exact Hr].
      intros x [<-|Hx]; [exact Hab|].
      apply IH in Hr as [Hr _]. specialize (Hr x Hx). lia.
    + intros [Hall Hr]. split; [apply Hall; left; reflexivity|exact Hr].
Qed.

Lemma insert_port_increasing (p : Z) (l : list Z) :
  increasing l = true -> increasing (insert_port p l) = true.
Proof.
  induction l as [|q rest IH]; intros H; cbn [insert_port]; [reflexivity|].
  destruct (Z.ltb_spec p q).
  - apply increasing_cons. split; [|exact H].
    intros x [<-|Hx]; [exact H0|].
    apply increasing_cons in H as [H _]. specialize (H x Hx). lia.
  - destruct (Z.eqb_spec p q); [exact H|].
    apply increasing_cons in H as [Hall Hr].
    apply increasing_cons. split; [|apply IH; exact Hr].
    intros x Hx. apply insert_port_in in Hx as [->|Hx]; [lia|apply Hall; exact Hx].
Qed.

Lemma sorted_set_spec (l : list Z) :
  increasing (sorted_set l) = true /\ forall x, In x (sorted_set l) <-> In x l.
Proof.
  unfold sorted_set. induction l as [|p rest [IH1 IH2]]; cbn [fold_right].
  - split; [reflexivity|]. intros x. reflexivity.
  - split; [apply insert_port_increasing; exact IH1|].
    intros x. rewrite insert_port_in, IH2. cbn. intuition.
Qed.

(** X15. The list returned by [_extract_port_candidates] is strictly
    increasing, hence without repetition, and holds only port numbers
    between 1 and 65535. *)
Theorem extracted_ports_sorted (text : string) :
  increasing (_extract_port_candidates text) = true
  /\ Forall (fun p => 1 <= p <= 65535) (_extract_port_candidates text).
Proof.
  unfold _extract_port_candidates.
  set (found := finditer _ _ _ _ ++ _).
  destruct (sorted_set_spec
              (List.filter (fun p => (1 <=? p) && (p <=? 65535)) (List.map int found)))
    as [H1 H2].
  split; [exact H1|].
  apply List.Forall_forall. intros p Hp. apply H2 in Hp.
  apply List.filter_In in Hp as [_ Hp]. apply andb_prop in Hp as [A B].
  apply Z.leb_le in A. apply Z.leb_le in B. lia.
Qed.

(** *** Keywords *)

Lemma ci_prefix_lower (pat s r : string) :
  ci_prefix pat s = Some r -> String.prefix pat (Py.lower s) = true.
Proof.
  revert s. induction pat as [|p pat IH]; intros s H.
  - destruct (Py.lower s); reflexivity.
  - destruct s as [|c s]; [discriminate|].
    cbn [ci_prefix] in H. cbn [Py.lower String.prefix].
    destruct (Ascii.eqb_spec (Py.lower_char c) p) as [E|]; [|discriminate].
    destruct (ascii_dec p (Py.lower_char c)); [|congruence].
    apply (IH s). exact H.
Qed.

(** A match of [finditer] starts at some suffix of the text. *)
Lemma finditer_match (m : option ascii -> string -> option (string * string)) :
  forall s skip prev,
    finditer m skip prev s <> [] ->
    exists pre prev' s', s = pre +:+ s' /\ m prev' s' <> None.
Proof.
  induction s as [|c s IH]; intros skip prev H.
  - destruct skip as [|k]; cbn [finditer] in H; [|contradiction].
    destruct (m prev EmptyString) as [[g r]|] eqn:E; [|contradiction].
    exists EmptyString, prev, EmptyString. split; [reflexivity|congruence].
  - destruct skip as [|k]; cbn [finditer] in H.
    + destruct (m prev (String c s)) as [[g r]|] eqn:E.
      * exists EmptyString, prev, (String c s). split; [reflexivity|congruence].
      * destruct (IH _ _ H) as (pre & prev' & s' & -> & Hm).
        exists (String c pre), prev', s'. split; [reflexivity|exact Hm].
    + destruct (IH _ _ H) as (pre & prev' & s' & -> & Hm).
      exists (String c pre), prev', s'. split; [reflexivity|exact Hm].
Qed.

Lemma keyword_found (kw pre s r : string) :
  ci_prefix kw s = Some r -> Py.contains kw (Py.lower (pre +:+ s)) = true.
Proof.
  intros H. rewrite lower_append. apply contains_append_r, contains_prefix.
  exact (ci_prefix_lower _ _ _ H).
Qed.

(** X16. In a text of code points below 256, [_extract_port_candidates]
    finds a port only when the text, up to case, mentions [localhost],
    [127.0.0.1] or [port]: a number alone is never taken for a port.
    (Beyond these code points [re.IGNORECASE] also matches U+017F for
    [s], which [str.lower] leaves as it is.) *)
Theorem extracted_ports_need_keyword (text : string) :
  _extract_port_candidates text <> [] ->
  Py.contains "localhost" (Py.lower text)
  || Py.contains "127.0.0.1" (Py.lower text)
  || Py.contains "port" (Py.lower text) = true.
Proof.
  unfold _extract_port_candidates. intros H.
  set (f1 := finditer (fun _ => match_host_port) 0 None text) in *.
  set (f2 := finditer match_port_word 0 None text) in *.
  set (f3 := finditer (fun _ => match_port_flag) 0 None text) in *.
  assert (N : f1 <> [] \/ f2 <> [] \/ f3 <> []).
  { destruct f1; [|left; discriminate]. destruct f2; [|right; left; discriminate].
    destruct f3; [|right; right; discriminate]. exfalso. apply H. reflexivity. }
  destruct N as [N|[N|N]]; apply finditer_match in N as (pre & prev & s & -> & Hm).
  - unfold match_host_port in Hm.
    destruct (ci_prefix "localhost" s) as [r|] eqn:E1.
    + rewrite (keyword_found _ pre _ _ E1). reflexivity.
    + destruct (ci_prefix "127.0.0.1" s) as [r|] eqn:E2; [|contradiction].
      rewrite (keyword_found _ pre _ _ E2). apply orb_true_iff. left. apply orb_true_r.
  - unfold match_port_word in Hm.
    destruct (match prev with Some c => isword c | None => false end); [contradiction|].
    destruct (ci_prefix "port" s) as [r|] eqn:E1; [|contradiction].
    rewrite (keyword_found _ pre _ _ E1). apply orb_true_r.
  - unfold match_port_flag in Hm.
    destruct (ci_prefix "--port" s) as [r|] eqn:E1; [|contradiction].
    destruct s as [|c1 s]; [discriminate|].
    cbn [ci_prefix] in E1.
    destruct (Ascii.eqb (Py.lower_char c1) "-"); [|discriminate].
    destruct s as [|c2 s]; [discriminate|].
    cbn [ci_prefix] in E1.
    destruct (Ascii.eqb (Py.lower_char c2) "-"); [|discriminate].
    change (pre +:+ String c1 (String c2 s))
      with (pre +:+ (String c1 (String c2 EmptyString) +:+ s)).
    rewrite <- append_assoc.
    rewrite (keyword_found "port" _ _ _ E1). apply orb_true_r.
Qed.

Lemma extracted_ports_need_keyword_witness :
  Py.contains "localhost" (Py.lower "Serving on LocalHost : 8080")
  || Py.contains "127.0.0.1" (Py.lower "Serving on LocalHost : 8080")
  || Py.contains "port" (Py.lower "Serving on LocalHost : 8080") = true.
Proof.
  apply (extracted_ports_need_keyword "Serving on LocalHost : 8080").
  vm_compute. discriminate.
Defined.

(** *** The timeout message *)

Lemma split_words_then (ws : list string) (rest : string) :
  Forall (fun w => Py.word w = true) ws ->
  Py.split_from EmptyString (Py.join " " ws +:+ " " +:+ rest)
  = ws ++ Py.split_from EmptyString rest.
Proof.
  induction 1 as [|w ws Hw Hws IH]; [reflexivity|].
  apply andb_prop in Hw as [Ht Hs].
  destruct ws as [|w' ws].
  - rewrite join_one, (split_from_solid w Hs), append_nil_l.
    rewrite append_cons, append_nil_l. apply split_from_space. exact Ht.
  - rewrite join_cons, !append_assoc, (split_from_solid w Hs), append_nil_l.
    rewrite append_cons, append_nil_l, (split_from_space _ _ Ht).
    rewrite IH. reflexivity.
Qed.

Lemma join_app_prefix (sep : string) (ws more : list string) :
  ws <> [] -> exists t, Py.join sep (ws ++ more) = Py.join sep ws +:+ t.
Proof.
  induction ws as [|w ws IH]; intros H; [contradiction|].
  destruct ws as [|w' ws].
  - destruct more as [|m more].
    + exists EmptyString. rewrite append_nil_r. reflexivity.
    + exists (sep +:+ Py.join sep (m :: more)). reflexivity.
  - destruct IH as [t Ht]; [discriminate|].
    exists t. cbn [app] in *. rewrite !join_cons, Ht, !append_assoc. reflexivity.
Qed.

(** X17. A run that timed out is always recognised as such: the error text
    [_run_cli] builds by joining whatever error there was with its timeout
    message satisfies [_is_timeout_error_text], whatever the earlier error
    and the timeout are. *)
Theorem timeout_message_recognised (earlier : option string) (timeout : Z) :
  _is_timeout_error_text
    (Some (_clean_join_text [earlier; Some (timeout_msg timeout)])) = true.
Proof.
  unfold _is_timeout_error_text, _clean_join_text. cbn [default from_option List.map].
  unfold Datatypes.id.
  set (ws := ["CLI"; "task"; "timed"; "out"; "after"]).
  assert (Hws : Forall (fun w => Py.word w = true) ws) by (repeat constructor).
  assert (Hmsg : exists t,
             Py.squeeze (timeout_msg timeout) = "CLI task timed out after" +:+ t).
  { unfold Py.squeeze, Py.split, timeout_msg.
    change ("CLI task timed out after " +:+ str_int timeout +:+ " seconds")
      with (Py.join " " ws +:+ " " +:+ (str_int timeout +:+ " seconds")).
    rewrite (split_words_then ws _ Hws).
    destruct (join_app_prefix " " ws
                (Py.split_from EmptyString (str_int timeout +:+ " seconds")))
      as [t Ht]; [discriminate|].
    exists t. exact Ht. }
  destruct Hmsg as [t Ht]. rewrite Ht.
  set (msg := "CLI task timed out after" +:+ t).
  assert (Hc : Py.contains "timed out" (Py.lower msg) = true).
  { unfold msg. rewrite lower_append. apply contains_append_l. reflexivity. }
  assert (Hm : Py.truthy msg = true) by reflexivity.
  apply orb_true_iff. left.
  cbn [List.filter]. rewrite Hm.
  destruct (Py.truthy (Py.squeeze _)).
  - rewrite join_cons, !lower_append. do 2 apply contains_append_r. exact Hc.
  - rewrite join_one. exact Hc.
Qed.

(** *** Stopping processes *)

(** X18. A process started by [_start_background_process] under an id not
    in use can be stopped by that id: [stop_background_process] answers
    [True], sends [SIGTERM] to its process group (to the process itself
    when the group is unknown) and leaves the table of managed processes
    as it was before the start. *)
Theorem start_then_stop (os : Launcher) (command working_dir task : string)
    (st : State) (new_pid : Z) :
  open_log os = true ->
  spawn_pid os = Some new_pid ->
  0 < new_pid ->
  _managed_background_processes st !! uuid_hex os = None ->
  let '(_, st') := _start_background_process os command working_dir task st in
  let group := default new_pid (getpgid os) in
  stop_background_process (uuid_hex os) (_managed_background_processes st')
  = (true, _managed_background_processes st,
     if 0 <? group then [Killpg group] else [Kill new_pid]).
Proof.
  intros Hopen Hspawn Hpid Hfresh. unfold _start_background_process.
  rewrite Hopen, Hspawn. cbn [negb].
  destruct (match _extract_port_candidates _ with [] => _ | _ => _ end) as [opened w].
  cbn [_managed_background_processes]. cbv zeta.
  unfold stop_background_process. rewrite lookup_insert_eq.
  rewrite (delete_insert_id _ _ _ Hfresh).
  unfold terminate. cbn [pgid pid].
  destruct (getpgid os) as [g|]; cbn [default from_option]; unfold Datatypes.id.
  - destruct (0 <? g); [reflexivity|].
    destruct (Z.ltb_spec 0 new_pid); [reflexivity|lia].
  - destruct (Z.ltb_spec 0 new_pid); [reflexivity|lia].
Qed.

Lemma start_then_stop_witness :
  let '(_, st') :=
    _start_background_process sample_os "npm start" "/home/u/demo" "start the app"
      nothing_served in
  let group := default 4242 (getpgid sample_os) in
  stop_background_process (uuid_hex sample_os) (_managed_background_processes st')
  = (true, _managed_background_processes nothing_served,
     if 0 <? group then [Killpg group] else [Kill 4242]).
Proof.
  apply (start_then_stop sample_os "npm start" "/home/u/demo" "start the app"
           nothing_served 4242); [reflexivity|reflexivity|lia|reflexivity].
Defined.

Lemma stop_each_spec (ids : list string) :
  forall stopped table signals,
    NoDup ids ->
    (forall i, i ∈ ids -> is_Some (table !! i)) ->
    let '(n, table', signals') := stop_each ids stopped table signals in
    n = (stopped + length ids)%nat
    /\ (forall k, k ∈ ids -> table' !! k = None)
    /\ (forall k, k ∉ ids -> table' !! k = table !! k)
    /\ (forall s, In s signals -> In s signals')
    /\ (forall i meta, i ∈ ids -> table !! i = Some meta ->
        forall s, In s (terminate meta) -> In s signals').
Proof.
  induction ids as [|i ids IH]; intros stopped table signals Hnd Hin.
  - cbn. split; [lia|]. split; [intros k Hk; inversion Hk|].
    split; [reflexivity|]. split; [auto|]. intros i meta Hi. inversion Hi.
  - apply NoDup_cons in Hnd as [Hni Hnd].
    cbn [stop_each]. unfold stop_background_process.
    destruct (Hin i ltac:(left)) as [meta Hmeta]. rewrite Hmeta.
    specialize (IH (S stopped) (delete i table) (signals ++ terminate meta) Hnd).
    destruct (stop_each ids (S stopped) (delete i table) (signals ++ terminate meta))
      as [[n table'] signals'].
    destruct IH as (I1 & I2 & I3 & I4 & I5).
    { intros j Hj. rewrite lookup_delete_ne by (intros ->; contradiction).
      apply Hin. right. exact Hj. }
    split; [cbn [length]; lia|]. split; [|split; [|split]].
    + intros k Hk. apply elem_of_cons in Hk as [->|Hk]; [|apply I2; exact Hk].
      rewrite I3 by exact Hni. apply lookup_delete_eq.
    + intros k Hk. apply not_elem_of_cons in Hk as [Hki Hk].
      rewrite I3 by exact Hk. apply lookup_delete_ne. congruence.
    + intros s Hs. apply I4. apply in_or_app. left. exact Hs.
    + intros j mj Hj Hmj s Hs. apply elem_of_cons in Hj as [->|Hj].
      * assert (mj = meta) by congruence. subst mj.
        apply I4. apply in_or_app. right. exact Hs.
      * apply (I5 j mj Hj); [|exact Hs].
        rewrite lookup_delete_ne by (intros ->; contradiction). exact Hmj.
Qed.

(** X19. [stop_all_background_processes] stops every managed process: it
    reports as many stopped processes as the table held, leaves the table
    empty, and has sent [SIGTERM] to the group (or the process) of each
    entry. *)
Theorem stop_all_leaves_nothing (table : gmap string Metadata) :
  let '(stopped, table', signals) := stop_all_background_processes table in
  stopped = size table
  /\ table' = ∅
  /\ forall i meta, table !! i = Some meta ->
       forall s, In s (terminate meta) -> In s signals.
Proof.
  unfold stop_all_background_processes.
  assert (Hkeys : forall i, i ∈ (map_to_list table).*1 <-> is_Some (table !! i)).
  { intros i. rewrite list_elem_of_fmap. split.
    - intros [[k x] [-> Hx]]. apply elem_of_map_to_list in Hx. eexists. exact Hx.
    - intros [x Hx]. exists (i, x). split; [reflexivity|].
      apply elem_of_map_to_list. exact Hx. }
  pose proof (stop_each_spec (map_to_list table).*1 0 table []
                (NoDup_fst_map_to_list table) (fun i Hi => proj1 (Hkeys i) Hi)) as H.
  destruct (stop_each _ 0 table []) as [[n table'] signals].
  destruct H as (H1 & H2 & H3 & _ & H5).
  split; [rewrite H1, length_fmap, length_map_to_list; reflexivity|].
  split.
  - apply map_empty. intros k.
    destruct (decide (k ∈ (map_to_list table).*1)) as [Hk|Hk]; [apply H2; exact Hk|].
    rewrite H3 by exact Hk.
    destruct (table !! k) eqn:E; [|reflexivity].
    exfalso. apply Hk. apply Hkeys. eexists. exact E.
  - intros i meta Hi. apply (H5 i meta); [|exact Hi].
    apply Hkeys. eexists. exact Hi.
Qed.

(** ** The router's texts and history *)

Import RouterState.

Lemma clean_text_squeezed (value : option string) (fallback : string) (max_len : nat) :
  Py.squeeze fallback = fallback ->
  Py.squeeze (_clean_text value fallback max_len) = _clean_text value fallback max_len.
Proof.
  intros Hsq. unfold _clean_text. destruct value as [v|]; [|exact Hsq].
  destruct (slice_take (Z.of_nat max_len - 3) (Py.squeeze v)) as (n & -> & _).
  destruct (Py.truthy (Py.squeeze v)); [|exact Hsq].
  destruct (max_len <? _)%nat; [|apply squeeze_idempotent].
  unfold Py.squeeze at 2 3.
  destruct (take_join_words (Py.split v)
              (split_from_words v EmptyString eq_refl) n)
    as (ws' & _ & Hws' & ->).
  apply squeeze_join. exact Hws'.
Qed.

Lemma clean_text_squeezed_or (value : option string) (fallback : string)
    (max_len : nat) :
  Py.squeeze fallback = fallback \/ _clean_text value fallback max_len <> fallback ->
  Py.squeeze (_clean_text value fallback max_len) = _clean_text value fallback max_len.
Proof.
  intros H.
  assert (Hf : _clean_text value fallback max_len = fallback ->
               Py.squeeze (_clean_text value fallback max_len)
               = _clean_text value fallback max_len).
  { intros E. destruct H as [H|H]; [rewrite E; exact H|contradiction]. }
  revert Hf. unfold _clean_text. destruct value as [v|]; [|intros Hf; apply Hf; reflexivity].
  destruct (slice_take (Z.of_nat max_len - 3) (Py.squeeze v)) as (n & -> & _).
  destruct (Py.truthy (Py.squeeze v)); [|intros Hf; apply Hf; reflexivity].
  intros _.
  destruct (max_len <? _)%nat; [|apply squeeze_idempotent].
  unfold Py.squeeze at 2 3.
  destruct (take_join_words (Py.split v)
              (split_from_words v EmptyString eq_refl) n)
    as (ws' & _ & Hws' & ->).
  apply squeeze_join. exact Hws'.
Qed.

(** What [_clean_text] returns when it does not fall back. *)
Lemma clean_text_facts (value : option string) (fallback other : string)
    (max_len : nat) :
  (3 <= max_len)%nat ->
  _clean_text value fallback max_len <> fallback ->
  let cleaned := _clean_text value fallback max_len in
  Py.nonblank cleaned = true
  /\ Py.squeeze cleaned = cleaned
  /\ (String.length cleaned <= max_len)%nat
  /\ _clean_text (Some cleaned) other max_len = cleaned.
Proof.
  intros H3 Hne. cbv zeta.
  assert (Hn : Py.nonblank (_clean_text value fallback max_len) = true).
  { destruct (clean_text_cases value fallback max_len); [contradiction|assumption]. }
  assert (Hsq : Py.squeeze (_clean_text value fallback max_len)
                = _clean_text value fallback max_len).
  { apply clean_text_squeezed_or; right; exact Hne. }
  assert (Hb : (String.length (_clean_text value fallback max_len) <= max_len)%nat).
  { unfold _clean_text in *. destruct value as [v|]; [|contradiction].
    destruct (slice_take (Z.of_nat max_len - 3) (Py.squeeze v)) as (n & -> & Hk).
    destruct (Py.truthy (Py.squeeze v)); [|contradiction].
    destruct (Nat.ltb_spec max_len (String.length (Py.squeeze v))); [|assumption].
    rewrite length_append. pose proof (length_take n (Py.squeeze v)).
    cbn. lia. }
  split; [exact Hn|]. split; [exact Hsq|]. split; [exact Hb|].
  unfold _clean_text at 1. rewrite Hsq, (nonblank_truthy _ Hn).
  destruct (Nat.ltb_spec max_len (String.length (_clean_text value fallback max_len)));
    [lia|reflexivity].
Qed.

(** X20. Unless it is the fallback, the text returned by [_clean_text] has
    a visible character, is free of leading, trailing and repeated
    whitespace, and is at most [max_len] characters long (for [max_len] of
    at least 3); cleaning it again with the same bound returns it
    unchanged. *)
Theorem clean_text_normal_form (value : option string) (fallback other : string)
    (max_len : nat) :
  (3 <= max_len)%nat ->
  _clean_text value fallback max_len <> fallback ->
  let cleaned := _clean_text value fallback max_len in
  Py.nonblank cleaned = true
  /\ Py.squeeze cleaned = cleaned
  /\ (String.length cleaned <= max_len)%nat
  /\ _clean_text (Some cleaned) other max_len = cleaned.
Proof.
  exact (clean_text_facts value fallback other max_len).
Qed.

Lemma clean_text_normal_form_witness :
  let cleaned := _clean_text (Some "  open   the  settings  ") "Task completed." 12 in
  Py.nonblank cleaned = true
  /\ Py.squeeze cleaned = cleaned
  /\ (String.length cleaned <= 12)%nat
  /\ _clean_text (Some cleaned) "Rapid response provided." 12 = cleaned.
Proof.
  apply (clean_text_normal_form (Some "  open   the  settings  ") "Task completed." "Rapid response provided." 12); [lia|].
  vm_compute. discriminate.
Defined.

(** *** Completion messages *)

Lemma clean_text_1400 (value : option string) (fallback : string) :
  (String.length fallback <= 1400)%nat ->
  (String.length (_clean_text value fallback 1400) <= 1400)%nat.
Proof. intros H. apply clean_text_bounded; [lia|exact H]. Qed.

(** X21. The message recorded for a finished agent step is never blank
    and never longer than 1400 characters, whatever the agent returned:
    so for the CLI, the browser and the vision agent alike. *)
Theorem completion_messages_visible (cli vision : AgentResult (option string))
    (browser : AgentResult BrowserHistory) :
  (Py.nonblank (_cli_completion_message cli) = true
   /\ (String.length (_cli_completion_message cli) <= 1400)%nat)
  /\ (Py.nonblank (_browser_completion_message browser) = true
      /\ (String.length (_browser_completion_message browser) <= 1400)%nat)
  /\ (Py.nonblank (_vision_completion_message vision) = true
      /\ (String.length (_vision_completion_message vision) <= 1400)%nat).
Proof.
  split; [|split].
  - unfold _cli_completion_message.
    destruct (Router.success cli); cbn [negb].
    + destruct (Py.truthy (_clean_text (Router.result cli) "" 1400)) eqn:T.
      * split; [apply clean_text_truthy_nonblank; exact T|].
        apply clean_text_1400. cbn. lia.
      * split; [reflexivity|cbn; lia].
    + split; [apply clean_text_nonblank; reflexivity|].
      apply clean_text_1400. cbn. lia.
  - unfold _browser_completion_message.
    destruct (Router.success browser); cbn [negb].
    + destruct (_extract_browser_message (Router.result browser)) as [m|] eqn:E;
        [|split; [reflexivity|cbn; lia]].
      destruct (Py.truthy m) eqn:T; [|split; [reflexivity|cbn; lia]].
      unfold _extract_browser_message in E.
      destruct (Router.result browser) as [|h|? ? ? ?].
      * discriminate.
      * destruct (Py.truthy (_clean_text (Some h) "" 1400)) eqn:T'; [|discriminate].
        injection E as <-.
        split; [apply clean_text_truthy_nonblank; exact T'|].
        apply clean_text_1400. cbn. lia.
      * destruct (List.filter _ _); [discriminate|]. injection E as <-.
        split; [apply clean_text_truthy_nonblank; exact T|].
        apply clean_text_1400. cbn. lia.
    + split; [apply clean_text_nonblank; reflexivity|].
      apply clean_text_1400. cbn. lia.
  - unfold _vision_completion_message.
    destruct (Router.success vision); cbn [negb];
      (split; [apply clean_text_nonblank; reflexivity|apply clean_text_1400; cbn; lia]).
Qed.

(** *** The conversation history *)

Lemma deque_append_ok (q : list HistoryEntry) (x : HistoryEntry) :
  Forall (fun e => Py.nonblank (text e) = true
                   /\ (String.length (text e) <= 600)%nat) q ->
  Py.nonblank (text x) = true ->
  (String.length (text x) <= 600)%nat ->
  history_ok (deque_append 32 q x).
Proof.
  intros Hq Hn Hl. unfold history_ok, deque_append. split.
  - rewrite length_skipn. lia.
  - apply Forall_drop. apply Forall_app. split; [exact Hq|].
    constructor; [split; assumption|constructor].
Qed.

Lemma append_rapid_history_ok (r t src : string) (s : Session) :
  history_ok (history s) -> history_ok (history (_append_rapid_history r t src s)).
Proof.
  intros H. unfold _append_rapid_history.
  destruct (Py.truthy (_clean_text (Some t) "" 600)) eqn:T; [|exact H].
  cbn [history]. apply deque_append_ok; cbn [text].
  - apply H.
  - apply clean_text_truthy_nonblank. exact T.
  - apply clean_text_bounded; [lia|cbn; lia].
Qed.

Lemma run_clovis_calls_history (calls : list ClovisCall) :
  forall summary s, history (snd (run_clovis_calls calls summary s)) = history s.
Proof.
  induction calls as [|[text| |msg] rest IH]; intros summary s; cbn [run_clovis_calls];
    [reflexivity| |apply IH|reflexivity].
  rewrite IH. reflexivity.
Qed.

Lemma generate_clovis_response_history (e : StepEnv) (s : Session) :
  history (snd (generate_clovis_response e s)) = history s.
Proof.
  unfold generate_clovis_response.
  destruct (clovis_generate_content e) as [answer|msg|]; try reflexivity.
  destruct (function_calls answer) as [|c calls]; [reflexivity|].
  pose proof (run_clovis_calls_history (c :: calls) None s) as H.
  destruct (run_clovis_calls (c :: calls) None s) as [[summary|msg|] s']; exact H.
Qed.

Lemma run_routed_agent_step_history (e : StepEnv) (d : RoutingDict) (s : Session) :
  history (snd (_run_routed_agent_step e d s)) = history s.
Proof.
  unfold _run_routed_agent_step. repeat case_decide.
  - pose proof (generate_clovis_response_history e (take_screenshot s)) as Hh.
    destruct (generate_clovis_response e (take_screenshot s)) as [[summary|msg|] s'];
      exact Hh.
  - destruct (browser_execute e); reflexivity.
  - destruct (cli_execute e); reflexivity.
  - destruct (vision_execute e); reflexivity.
  - reflexivity.
Qed.

Ltac history_step :=
  match goal with
  | |- history_ok (history (_append_rapid_history _ _ _ _)) =>
      apply append_rapid_history_ok
  | |- history_ok (history (router_response _ _)) =>
      change (history (router_response ?t ?s)) with (history s)
  | |- history_ok (history (log_event _ _)) =>
      change (history (log_event ?t ?s)) with (history s)
  | |- history_ok (history (take_screenshot _)) =>
      change (history (take_screenshot ?s)) with (history s)
  | |- history_ok (history (append_step _ _)) =>
      change (history (append_step ?t ?s)) with (history s)
  | |- history_ok (history (set_seen _ _)) =>
      change (history (set_seen ?t ?s)) with (history s)
  | |- history_ok (history (set_screen_context _ _)) =>
      change (history (set_screen_context ?t ?s)) with (history s)
  end.

Lemma record_step_history (failed_name : string) (st : ChainStep) (s : Session) :
  history_ok (history s) -> history_ok (history (fst (record_step failed_name st s))).
Proof.
  intros H. unfold record_step.
  destruct (step_success st); cbn [negb fst]; repeat history_step; exact H.
Qed.

Lemma router_step_history (e : StepEnv) (user_prompt : string) (s : Session) :
  history_ok (history s) -> history_ok (history (fst (router_step e user_prompt s))).
Proof.
  intros H. unfold router_step.
  destruct (route_request e) as [rr|msg|]; [|exact H|exact H].
  set (d := match rr with Dict d => d | NotDict => invalid_shape end).
  case_decide; [cbn [fst]; repeat history_step; exact H|].
  destruct (_ <=? _)%nat; [cbn [fst]; repeat history_step; exact H|].
  case_decide.
  - destruct (generate_screen_context e) as [c|msg|].
    + apply record_step_history. repeat history_step. exact H.
    + apply record_step_history. repeat history_step. exact H.
    + cbn [fst]. repeat history_step. exact H.
  - match goal with
    | |- context [_run_routed_agent_step ?e0 ?d0 ?s0] =>
        pose proof (run_routed_agent_step_history e0 d0 s0) as A;
        destruct (_run_routed_agent_step e0 d0 s0) as [[st|] s1]
    end; cbn [snd] in A.
    + apply record_step_history. rewrite A. repeat history_step. exact H.
    + cbn [fst]. rewrite A. repeat history_step. exact H.
Qed.

Lemma router_loop_history (env : nat -> StepEnv) (user_prompt : string) (n : nat) :
  forall idx s,
    history_ok (history s) ->
    history_ok (history (fst (router_loop env user_prompt n idx s))).
Proof.
  induction n as [|n IH]; intros idx s H; cbn [router_loop].
  - cbn [fst]. repeat history_step. exact H.
  - pose proof (router_step_history (env idx) user_prompt s H) as K.
    destruct (router_step (env idx) user_prompt s) as [s' [|x]]; cbn [fst] in *.
    + apply IH. exact K.
    + exact K.
Qed.

(** X22. A router session keeps the conversation history within its
    bounds: if it holds at most 32 entries of 1 to 600 characters before
    [call_gemini], so it does afterwards, however many steps, failures and
    responses the session had and however it ended. *)
Theorem call_gemini_history_bounded (env : nat -> StepEnv)
    (hist : list HistoryEntry) (slot : Screenshot.Slot) (user_prompt : string) :
  history_ok hist ->
  history_ok (history (fst (call_gemini env hist slot user_prompt))).
Proof.
  intros H. unfold call_gemini. apply router_loop_history.
  unfold open_session. apply append_rapid_history_ok. exact H.
Qed.

Lemma call_gemini_history_bounded_witness :
  history_ok (history (fst (call_gemini chain_env [] empty_slot "clone this repo"))).
Proof.
  apply (call_gemini_history_bounded chain_env [] empty_slot "clone this repo").
  split; [cbn; lia|constructor].
Defined.

(** *** The screen context payload *)

Lemma clean_text_again (value : option string) (max_len : nat) :
  (3 <= max_len)%nat ->
  _clean_text (Some (_clean_text value EmptyString max_len)) EmptyString max_len
  = _clean_text value EmptyString max_len.
Proof.
  intros H3.
  destruct (string_dec (_clean_text value EmptyString max_len) EmptyString) as [E|N].
  - rewrite E. reflexivity.
  - apply (clean_text_facts value EmptyString EmptyString max_len H3 N).
Qed.

Lemma allowed_agent_stable (a : string) :
  VisionBatch.mem a ["cua_cli"; "cua_vision"; "browser"; "clovis"; "direct"] = true ->
  Py.lower (Py.strip a) = a.
Proof.
  unfold VisionBatch.mem, Py.eqb. cbn [existsb].
  destruct (String.eqb_spec a "cua_cli") as [->|_]; [reflexivity|].
  destruct (String.eqb_spec a "cua_vision") as [->|_]; [reflexivity|].
  destruct (String.eqb_spec a "browser") as [->|_]; [reflexivity|].
  destruct (String.eqb_spec a "clovis") as [->|_]; [reflexivity|].
  destruct (String.eqb_spec a "direct") as [->|_]; [reflexivity|].
  discriminate.
Qed.

(** X23. [_normalize_screen_context_payload] returns a payload in normal
    form: its recommended agent is one of the five routable agents or
    empty, and normalising the result again for the same request returns it
    unchanged. *)
Theorem normalize_screen_context_idempotent (payload : ScreenContext)
    (user_request : string) :
  let normalized := _normalize_screen_context_payload payload user_request in
  (exists a,
      sc_recommended_agent normalized = Some a
      /\ In a [""; "cua_cli"; "cua_vision"; "browser"; "clovis"; "direct"])
  /\ _normalize_screen_context_payload normalized user_request = normalized.
Proof.
  cbv zeta. unfold _normalize_screen_context_payload.
  cbn [sc_summary sc_repo_url sc_local_url sc_recommended_agent
       sc_recommended_task sc_hints].
  set (raw := Py.lower (Py.strip (default EmptyString
                (Py.or_else (sc_recommended_agent payload) (Some EmptyString))))).
  set (allowed := ["cua_cli"; "cua_vision"; "browser"; "clovis"; "direct"]).
  set (agent := if negb (VisionBatch.mem raw allowed) then EmptyString else raw).
  set (task := if negb (Py.truthy (_clean_text (sc_recommended_task payload) "" 420))
               then _clean_text (Some user_request) "" 420
               else _clean_text (sc_recommended_task payload) "" 420).
  assert (Hagent : agent = EmptyString \/ VisionBatch.mem agent allowed = true).
  { unfold agent. destruct (VisionBatch.mem raw allowed) eqn:M; [right; exact M|left; reflexivity]. }
  split.
  - exists agent. split; [reflexivity|].
    destruct Hagent as [->|M]; [left; reflexivity|].
    right. revert M. unfold VisionBatch.mem, allowed, Py.eqb. cbn [existsb In].
    destruct (String.eqb_spec agent "cua_cli"); [auto|].
    destruct (String.eqb_spec agent "cua_vision"); [auto|].
    destruct (String.eqb_spec agent "browser"); [auto|].
    destruct (String.eqb_spec agent "clovis"); [auto 6|].
    destruct (String.eqb_spec agent "direct"); [auto 6|]. discriminate.
  - assert (Ea : (if negb (VisionBatch.mem
                     (Py.lower (Py.strip (default EmptyString
                        (Py.or_else (Some agent) (Some EmptyString))))) allowed)
                  then EmptyString
                  else Py.lower (Py.strip (default EmptyString
                        (Py.or_else (Some agent) (Some EmptyString))))) = agent).
    { destruct Hagent as [->|M]; [reflexivity|].
      assert (T : Py.truthy agent = true).
      { destruct agent; [discriminate M|reflexivity]. }
      unfold Py.or_else, Py.otruthy. rewrite T. cbn [default from_option].
      unfold Datatypes.id. rewrite (allowed_agent_stable agent M), M. reflexivity. }
    assert (Et : (if negb (Py.truthy (_clean_text (Some task) "" 420))
                  then _clean_text (Some user_request) "" 420
                  else _clean_text (Some task) "" 420) = task).
    { unfold task.
      destruct (Py.truthy (_clean_text (sc_recommended_task payload) "" 420)) eqn:T;
        cbn [negb].
      - rewrite clean_text_again by lia. rewrite T. reflexivity.
      - rewrite clean_text_again by lia.
        destruct (Py.truthy (_clean_text (Some user_request) "" 420)); reflexivity. }
    rewrite Ea, Et, !clean_text_again by lia. reflexivity.
Qed.

(** *** Step signatures *)

Lemma lower_char_idempotent (c : ascii) :
  Py.lower_char (Py.lower_char c) = Py.lower_char c.
Proof. destruct c as [[] [] [] [] [] [] [] []]; reflexivity. Qed.

Lemma isspace_lower_char (c : ascii) : Py.isspace (Py.lower_char c) = Py.isspace c.
Proof. destruct c as [[] [] [] [] [] [] [] []]; reflexivity. Qed.

Lemma lower_idempotent (s : string) : Py.lower (Py.lower s) = Py.lower s.
Proof.
  induction s as [|c s IH]; [reflexivity|].
  cbn [Py.lower]. rewrite lower_char_idempotent, IH. reflexivity.
Qed.

Lemma truthy_lower (s : string) : Py.truthy (Py.lower s) = Py.truthy s.
Proof. destruct s; reflexivity. Qed.

Lemma length_lower (s : string) : String.length (Py.lower s) = String.length s.
Proof. induction s as [|c s IH]; [reflexivity|]. cbn. rewrite IH. reflexivity. Qed.

Lemma take_lower (n : nat) (s : string) : Py.take n (Py.lower s) = Py.lower (Py.take n s).
Proof.
  unfold Py.take. revert s. induction n as [|n IH]; intros [|c s]; cbn; try reflexivity.
  rewrite IH. reflexivity.
Qed.

Lemma split_from_lower (s : string) :
  forall cur,
    Py.split_from (Py.lower cur) (Py.lower s) = List.map Py.lower (Py.split_from cur s).
Proof.
  induction s as [|c s IH]; intros cur.
  - destruct cur; reflexivity.
  - cbn [Py.lower Py.split_from]. rewrite isspace_lower_char.
    destruct (Py.isspace c).
    + destruct cur as [|x cur]; cbn [Py.lower List.map];
        [apply (IH EmptyString)|].
      rewrite <- (IH EmptyString). reflexivity.
    + rewrite <- IH, lower_append. reflexivity.
Qed.

Lemma join_lower (sep : string) (ws : list string) :
  Py.lower (Py.join sep ws) = Py.join (Py.lower sep) (List.map Py.lower ws).
Proof.
  induction ws as [|w ws IH]; [reflexivity|].
  destruct ws as [|w' ws]; [reflexivity|].
  cbn [List.map] in *. rewrite !join_cons, !lower_append, IH. reflexivity.
Qed.

Lemma squeeze_lower (s : string) : Py.squeeze (Py.lower s) = Py.lower (Py.squeeze s).
Proof.
  unfold Py.squeeze, Py.split.
  rewrite join_lower, <- split_from_lower. reflexivity.
Qed.

Lemma clean_text_lower (v : string) (max_len : nat) :
  _clean_text (Some (Py.lower v)) EmptyString max_len
  = Py.lower (_clean_text (Some v) EmptyString max_len).
Proof.
  unfold _clean_text. rewrite squeeze_lower, truthy_lower, length_lower.
  destruct (Py.truthy (Py.squeeze v)); [|reflexivity].
  destruct (max_len <? _)%nat; [|reflexivity].
  unfold Py.slice_to. rewrite length_lower, take_lower, lower_append. reflexivity.
Qed.

Lemma lstrip_lower (s : string) : Py.lstrip (Py.lower s) = Py.lower (Py.lstrip s).
Proof.
  induction s as [|c s IH]; [reflexivity|].
  cbn [Py.lower Py.lstrip]. rewrite isspace_lower_char.
  destruct (Py.isspace c); [exact IH|reflexivity].
Qed.

Lemma rev_string_lower (s : string) :
  forall acc,
    Py.rev_string (Py.lower acc) (Py.lower s) = Py.lower (Py.rev_string acc s).
Proof.
  induction s as [|c s IH]; intros acc; [reflexivity|].
  cbn [Py.lower Py.rev_string]. apply (IH (String c acc)).
Qed.

Lemma strip_lower (s : string) : Py.strip (Py.lower s) = Py.lower (Py.strip s).
Proof.
  unfold Py.strip, Py.rstrip.
  rewrite lstrip_lower.
  rewrite (rev_string_lower _ EmptyString), lstrip_lower.
  apply (rev_string_lower _ EmptyString).
Qed.

Lemma or_else_lower (a b : option string) :
  Py.or_else (Py.lower <$> a) (Py.lower <$> b) = Py.lower <$> Py.or_else a b.
Proof.
  unfold Py.or_else, Py.otruthy. destruct a as [x|]; cbn; [|reflexivity].
  rewrite truthy_lower. destruct (Py.truthy x); reflexivity.
Qed.

(** X24. On texts of code points below 256, the step signature used by
    the repeat guard ignores letter case: a routing result and the one with
    its agent, task and query in lower case have the same
    [_routing_signature]. (Beyond these code points lower-casing can
    lengthen a text, U+0130, and move the 220-character cut.) *)
Theorem routing_signature_ignores_case (d d' : RoutingDict) :
  Router.agent d' = Py.lower <$> Router.agent d ->
  Router.task d' = Py.lower <$> Router.task d ->
  Router.query d' = Py.lower <$> Router.query d ->
  _routing_signature d' = _routing_signature d.
Proof.
  intros Ha Ht Hq. unfold _routing_signature, _routing_task_text.
  rewrite Ha, Ht, Hq.
  rewrite (or_else_lower (Router.agent d) (Some EmptyString) : Py.or_else _ (Some EmptyString) = _).
  rewrite (or_else_lower (Router.task d) (Router.query d)).
  rewrite (or_else_lower (Py.or_else (Router.task d) (Router.query d)) (Some EmptyString)
           : Py.or_else _ (Some EmptyString) = _).
  f_equal.
  - destruct (Py.or_else (Router.agent d) (Some EmptyString)) as [x|]; cbn [fmap option_fmap option_map default from_option].
    + unfold Datatypes.id. rewrite strip_lower, lower_idempotent. reflexivity.
    + reflexivity.
  - destruct (Py.or_else (Py.or_else (Router.task d) (Router.query d)) (Some EmptyString)) as [x|];
      cbn [fmap option_fmap option_map]; [|reflexivity].
    rewrite clean_text_lower, strip_lower, lower_idempotent. reflexivity.
Qed.

Lemma routing_signature_ignores_case_witness :
  _routing_signature (route_to "cua_cli" "clone  repo")
  = _routing_signature (route_to "CUA_CLI" "Clone  Repo").
Proof.
  apply (routing_signature_ignores_case
           (route_to "CUA_CLI" "Clone  Repo") (route_to "cua_cli" "clone  repo"));
    reflexivity.
Defined.

(** ** The elements on screen *)

Import Scene.

Lemma perform_described (sys : System) (c : Call) :
  described sys -> described (perform sys c).
Proof.
  intros H. destruct c as [y0 x0 y1 x1 bid fresh|x y t tid fresh|bid|tid|];
    cbn [perform _draw_bounding_box _create_text _destroy_box _destroy_text
         _clear_screen snd].
  - set (i := id_or bid fresh). intros j. specialize (H j).
    unfold described, get_box_rect, register_box, handle in *.
    cbn [registry _BOX_CACHE server boxes texts] in *.
    destruct (decide (j = i)) as [->|N].
    + rewrite !lookup_insert_eq.
      replace (x0 + (x1 - x0) - x0) with (x1 - x0) by lia.
      replace (y0 + (y1 - y0) - y0) with (y1 - y0) by lia.
      split; reflexivity.
    + rewrite !lookup_insert_ne by congruence. exact H.
  - set (i := id_or tid fresh). intros j. specialize (H j).
    unfold described, get_box_rect, register_text, handle in *.
    cbn [registry _BOX_CACHE server boxes texts] in *.
    destruct (decide (j = i)) as [->|N].
    + rewrite !lookup_insert_eq. exists t. reflexivity.
    + rewrite !lookup_insert_ne by congruence. exact H.
  - intros j. specialize (H j).
    unfold _destroy_box, _destroy_text. unfold described, get_box_rect, remove_entry, handle in *.
    cbn [registry _BOX_CACHE server boxes texts snd] in *.
    destruct (decide (j = bid)) as [->|N].
    + rewrite lookup_delete_eq. exact I.
    + rewrite !lookup_delete_ne by congruence. exact H.
  - intros j. specialize (H j).
    unfold _destroy_box, _destroy_text. unfold described, get_box_rect, remove_entry, handle in *.
    cbn [registry _BOX_CACHE server boxes texts snd] in *.
    destruct (decide (j = tid)) as [->|N].
    + rewrite lookup_delete_eq. exact I.
    + rewrite !lookup_delete_ne by congruence. exact H.
  - intros j. unfold _clear_screen, clear. cbn [registry]. rewrite lookup_empty. exact I.
Qed.

(** X25. Whatever boxes and texts are drawn, destroyed and cleared through
    the visualization API, every entry of the client's [registry] describes
    an element the server currently keeps under that id, of the same kind
    and with the same geometry, and every registered box has its rectangle
    in [_BOX_CACHE] - also when a box and a text share an id. *)
Theorem registry_describes_scene (calls : list Call) :
  described (fold_left perform calls start).
Proof.
  assert (G : forall sys, described sys -> described (fold_left perform calls sys)).
  { induction calls as [|c calls IH]; intros sys H; [exact H|].
    cbn [fold_left]. apply IH. apply perform_described. exact H. }
  apply G. intros j. cbn. rewrite lookup_empty. exact I.
Qed.

(** X26. [remove_entry] answers [True] exactly when the id was registered,
    never leaves it registered, and undoes a registration under an id that
    was free; boxes and texts share the ids, so registering a text under
    the id of a box replaces the box. *)
Theorem registry_round_trip (entry_id : string) (x_min y_min x_max y_max x y : Z)
    (registry : gmap string Entry) :
  registry !! entry_id = None ->
  remove_entry entry_id registry = (false, registry)
  /\ remove_entry entry_id (register_box entry_id x_min y_min x_max y_max registry)
     = (true, registry)
  /\ register_text entry_id x y (register_box entry_id x_min y_min x_max y_max registry)
     = register_text entry_id x y registry
  /\ fst (remove_entry entry_id
            (snd (remove_entry entry_id (register_text entry_id x y registry))))
     = false.
Proof.
  intros H. unfold remove_entry, register_box, register_text.
  repeat split.
  - f_equal.
    + apply bool_decide_eq_false. rewrite H. intros [? ?]. discriminate.
    + apply delete_id. exact H.
  - f_equal.
    + apply bool_decide_eq_true. rewrite lookup_insert_eq. eexists. reflexivity.
    + apply delete_insert_id. exact H.
  - apply insert_insert_eq.
  - cbn [fst snd]. apply bool_decide_eq_false. rewrite lookup_delete_eq.
    intros [? ?]. discriminate.
Qed.

Lemma registry_round_trip_witness :
  remove_entry "box_1" ∅ = (false, ∅)
  /\ remove_entry "box_1" (register_box "box_1" 10 20 110 70 ∅) = (true, ∅)
  /\ register_text "box_1" 5 6 (register_box "box_1" 10 20 110 70 ∅)
     = register_text "box_1" 5 6 ∅
  /\ fst (remove_entry "box_1"
            (snd (remove_entry "box_1" (register_text "box_1" 5 6 ∅))))
     = false.
Proof. apply (registry_round_trip "box_1" 10 20 110 70 5 6 ∅). reflexivity. Defined.

(** *** The theme of the status bubble *)

Section ThemeFacts.

Context {Theme : Type}.
Variable sample : nat -> Theme.

Lemma follows_keep (s : StatusServer) (theme : Theme) (updates : list StatusCommand) :
  _active_status_theme s = Some theme ->
  forallb follows updates = true ->
  let s' := fold_left (handle_status sample) updates s in
  _active_status_theme s' = Some theme
  /\ samplings s' = samplings s
  /\ broadcast s' = broadcast s ++ List.map (fun _ => Some theme) updates.
Proof.
  revert s. induction updates as [|c updates IH]; intros s Ha Hf; cbv zeta.
  - cbn. rewrite app_nil_r. repeat split; [exact Ha].
  - cbn [forallb] in Hf. apply andb_prop in Hf as [Hc Hf].
    cbn [fold_left List.map].
    assert (E : handle_status sample s c
                = {| _active_status_theme := Some theme; samplings := samplings s;
                     broadcast := broadcast s ++ [Some theme] |}).
    { destruct c as [[t|]|[t|]|[t|]| |]; try discriminate; cbn [handle_status];
        rewrite Ha; reflexivity. }
    rewrite E.
    destruct (IH {| _active_status_theme := Some theme; samplings := samplings s;
                    broadcast := broadcast s ++ [Some theme] |} eq_refl Hf)
      as (I1 & I2 & I3).
    rewrite I1, I2, I3. cbn [samplings broadcast _active_status_theme].
    rewrite <- app_assoc. repeat split.
Qed.

(** X27. The theme of a status bubble is chosen once: after a
    [show_status_bubble] without a theme, the server samples the screen one
    time, and every following update and completion that brings no theme of
    its own is broadcast with that same theme, without sampling again. *)
Theorem status_theme_sticky (s : StatusServer) (updates : list StatusCommand) :
  forallb follows updates = true ->
  let shown := handle_status sample s (show_status_bubble None) in
  let s' := fold_left (handle_status sample) updates shown in
  let theme := sample (samplings s) in
  samplings s' = S (samplings s)
  /\ _active_status_theme s' = Some theme
  /\ broadcast s'
     = broadcast s ++ Some theme :: List.map (fun _ => Some theme) updates.
Proof.
  intros Hf. cbv zeta. cbn [handle_status]. unfold with_sampled_theme.
  destruct (follows_keep
              {| _active_status_theme := Some (sample (samplings s));
                 samplings := S (samplings s);
                 broadcast := broadcast s ++ [Some (sample (samplings s))] |}
              (sample (samplings s)) updates eq_refl Hf) as (I1 & I2 & I3).
  rewrite I1, I2, I3. cbn [samplings broadcast]. rewrite <- app_assoc.
  repeat split.
Qed.

End ThemeFacts.

Lemma status_theme_sticky_witness :
  let sample n := if (n =? 0)%nat then "light-on-dark" else "dark-on-light" in
  let s := {| _active_status_theme := None; samplings := 0; broadcast := [] |} in
  let updates := [update_status_bubble None; complete_status_bubble None] in
  let shown := handle_status sample s (show_status_bubble None) in
  let s' := fold_left (handle_status sample) updates shown in
  let theme := sample (samplings s) in
  samplings s' = S (samplings s)
  /\ _active_status_theme s' = Some theme
  /\ broadcast s'
     = broadcast s ++ Some theme :: List.map (fun _ => Some theme) updates.
Proof.
  intros sample s updates.
  apply (status_theme_sticky sample s updates). reflexivity.
Defined.

(** ** Process-management tasks *)

Import Management.

(** *** Substrings *)

Lemma prefix_split (n h : string) :
  String.prefix n h = true <-> exists post, h = n +:+ post.
Proof.
  revert h. induction n as [|c n IH]; intros h.
  - split; [intros _; exists h; reflexivity|intros _; destruct h; reflexivity].
  - destruct h as [|d h]; cbn [String.prefix].
    + split; [discriminate|intros [post H]; discriminate].
    + destruct (ascii_dec c d) as [->|N].
      * rewrite IH. split; intros [post H]; exists post.
        -- rewrite append_cons, <- H. reflexivity.
        -- rewrite append_cons in H. congruence.
      * split; [discriminate|]. intros [post H]. rewrite append_cons in H. congruence.
Qed.

Lemma contains_split (n h : string) :
  Py.contains n h = true <-> exists pre post, h = pre +:+ n +:+ post.
Proof.
  induction h as [|d h IH].
  - cbn [Py.contains]. rewrite orb_false_r, prefix_split. split.
    + intros [post H]. exists EmptyString, post. exact H.
    + intros (pre & post & H). destruct pre; [|discriminate].
      exists post. exact H.
  - cbn [Py.contains]. rewrite orb_true_iff, prefix_split, IH. split.
    + intros [[post H]|(pre & post & H)].
      * exists EmptyString, post. exact H.
      * exists (String d pre), post. rewrite append_cons, <- H. reflexivity.
    + intros (pre & post & H). destruct pre as [|c pre].
      * left. exists post. exact H.
      * right. rewrite append_cons in H. exists pre, post. congruence.
Qed.

(** A substring of a substring is a substring. *)
Lemma contains_trans (a b h : string) :
  Py.contains a b = true -> Py.contains b h = true -> Py.contains a h = true.
Proof.
  rewrite !contains_split. intros (p1 & q1 & ->) (p2 & q2 & ->).
  exists (p2 +:+ p1), (q1 +:+ q2). rewrite !append_assoc. reflexivity.
Qed.

Lemma contains_false_trans (a b h : string) :
  Py.contains a b = true -> Py.contains a h = false -> Py.contains b h = false.
Proof.
  intros Hab Hah. destruct (Py.contains b h) eqn:E; [|reflexivity].
  rewrite (contains_trans a b h Hab E) in Hah. discriminate.
Qed.

Lemma lstrip_split (s : string) : exists blanks, s = blanks +:+ Py.lstrip s.
Proof.
  induction s as [|c s [b IH]]; [exists EmptyString; reflexivity|].
  cbn [Py.lstrip]. destruct (Py.isspace c).
  - exists (String c b). rewrite append_cons, <- IH. reflexivity.
  - exists EmptyString. reflexivity.
Qed.

Lemma rev_string_spec (s : string) :
  forall acc, Py.rev_string acc s = Py.rev_string EmptyString s +:+ acc.
Proof.
  induction s as [|c s IH]; intros acc; [reflexivity|].
  cbn [Py.rev_string]. rewrite (IH (String c acc)), (IH (String c EmptyString)).
  rewrite append_assoc. reflexivity.
Qed.

Lemma rev_string_append (a b : string) :
  Py.rev_string EmptyString (a +:+ b)
  = Py.rev_string EmptyString b +:+ Py.rev_string EmptyString a.
Proof.
  induction a as [|c a IH].
  - rewrite append_nil_l, append_nil_r. reflexivity.
  - rewrite append_cons. cbn [Py.rev_string].
    rewrite (rev_string_spec (a +:+ b)), IH, (rev_string_spec a (String c EmptyString)).
    rewrite append_assoc. reflexivity.
Qed.

Lemma rev_string_involutive (s : string) :
  Py.rev_string EmptyString (Py.rev_string EmptyString s) = s.
Proof.
  induction s as [|c s IH]; [reflexivity|].
  cbn [Py.rev_string]. rewrite (rev_string_spec s (String c EmptyString)).
  rewrite rev_string_append, IH. reflexivity.
Qed.

(** [s.strip()] is a part of [s]. *)
Lemma strip_split (s : string) : exists a b, s = a +:+ Py.strip s +:+ b.
Proof.
  unfold Py.strip, Py.rstrip.
  destruct (lstrip_split s) as [a Ha].
  destruct (lstrip_split (Py.rev_string EmptyString (Py.lstrip s))) as [b Hb].
  exists a, (Py.rev_string EmptyString b).
  rewrite <- rev_string_append, <- Hb, rev_string_involutive. exact Ha.
Qed.

Lemma contains_lower_strip (n s : string) :
  Py.contains n (Py.lower (Py.strip s)) = true -> Py.contains n (Py.lower s) = true.
Proof.
  intros H. destruct (strip_split s) as (a & b & E).
  rewrite contains_split in H |- *. destruct H as (p & q & Hq).
  exists (Py.lower a +:+ p), (q +:+ Py.lower b).
  rewrite E, !lower_append, Hq, !append_assoc. reflexivity.
Qed.

Lemma blanks_split (s r : string) : blanks s = Some r -> exists b, s = b +:+ r.
Proof.
  unfold blanks. destruct (_ <? _)%nat; [|discriminate].
  intros [= <-]. apply lstrip_split.
Qed.

Lemma ci_prefix_split (pat s r : string) :
  ci_prefix pat s = Some r -> exists m, s = m +:+ r.
Proof.
  revert s. induction pat as [|p pat IH]; intros s H.
  - injection H as <-. exists EmptyString. reflexivity.
  - destruct s as [|c s]; [discriminate|]. cbn [ci_prefix] in H.
    destruct (Ascii.eqb _ _); [|discriminate].
    destruct (IH s H) as [m ->]. exists (String c m). reflexivity.
Qed.

(** A task in which [search_stop] finds a process id mentions
    [background]. *)
Lemma search_stop_background (s : string) (proc_id : string) :
  search_stop s = Some proc_id -> Py.contains "background" (Py.lower s) = true.
Proof.
  induction s as [|c s IH]; cbn [search_stop].
  - destruct (match_stop EmptyString) eqn:M; [|discriminate].
    unfold match_stop in M. cbn in M. discriminate.
  - destruct (match_stop (String c s)) as [i|] eqn:M.
    + intros _. unfold match_stop in M.
      destruct (match ci_prefix "stop" (String c s) with
                | Some r => Some r
                | None => ci_prefix "kill" (String c s)
                end) as [r1|] eqn:V; [|discriminate].
      cbn [mbind option_bind] in M.
      destruct (blanks r1) as [r2|] eqn:B1; [|discriminate]. cbn [mbind option_bind] in M.
      destruct (ci_prefix "background" r2) as [r3|] eqn:K; [|discriminate].
      assert (exists m, String c s = m +:+ r1) as [m1 E1].
      { destruct (ci_prefix "stop" (String c s)) eqn:V1.
        - injection V as <-. eapply ci_prefix_split. exact V1.
        - eapply ci_prefix_split. exact V. }
      destruct (blanks_split _ _ B1) as [b1 E2].
      rewrite E1, E2, <- append_assoc.
      apply (keyword_found "background" _ _ _ K).
    + intros H. cbn [Py.lower]. apply contains_tail. apply IH. exact H.
Qed.

(** X28. A task that does not mention [background], in whatever case, is
    never taken for a process-management task: no response is made for it,
    no process is stopped and no signal is sent. *)
Theorem management_needs_background (now : Z) (task : string)
    (table : gmap string Metadata) :
  Py.contains "background" (Py.lower task) = false ->
  _maybe_handle_background_management_task now task table = (None, table, []).
Proof.
  intros H. unfold _maybe_handle_background_management_task.
  assert (Hs : Py.contains "background" (Py.lower (Py.strip task)) = false).
  { destruct (Py.contains "background" (Py.lower (Py.strip task))) eqn:E; [|reflexivity].
    rewrite (contains_lower_strip _ _ E) in H. discriminate. }
  rewrite (contains_false_trans "background" "list background process" _ eq_refl Hs).
  rewrite (contains_false_trans "background" "show background process" _ eq_refl Hs).
  rewrite (contains_false_trans "background" "stop all background process" _ eq_refl Hs).
  rewrite (contains_false_trans "background" "kill all background process" _ eq_refl Hs).
  cbn [orb].
  destruct (search_stop task) as [i|] eqn:S; [|reflexivity].
  rewrite (search_stop_background _ _ S) in H. discriminate.
Qed.

Lemma management_needs_background_witness :
  _maybe_handle_background_management_task 0 "stop the dev server on port 3000" ∅
  = (None, ∅, []).
Proof.
  apply (management_needs_background 0 "stop the dev server on port 3000" ∅).
  reflexivity.
Defined.
